(** * libscopehal: the TinySA driver and the channel data model

    A shallow embedding of [scopehal/TinySA.cpp] and of the declarations of
    [scopehal/OscilloscopeChannel.h], with the properties the specification
    states about them.

    Conventions of the embedding.
    - C++ integers are [Z]; [size_t] and [int64_t] arithmetic is written with
      its wrap-around ([size_t_wrap], [int64_wrap]).
    - [char] and [uint8_t] are [ascii]; [std::string] is [string];
      [std::vector<T>] is [list T].
    - [double] wall-clock readings and [float] sample values are rationals
      ([Q]).  A sample is [k/32 - offset] for an integer [0 <= k < 65536],
      which binary32 holds without rounding (see [decode_exact_in_float]).
      Differences of clock readings are compared with the timeout exactly;
      the femtosecond stamp of a waveform is computed as the code computes
      it, each operation rounded to binary64 ([double_sub], [double_mul]).
    - The transport and the clock are an explicit [world]: a script of what
      the device will deliver, the commands sent so far and the log.
    - Loops that poll the transport take fuel; [Fault OutOfFuel] is proved
      unreachable with the fuel the entry points supply. *)

From Stdlib Require Import ZArith QArith Qround Bool List Ascii String Lia Lqa.
From Stdlib Require Import Qpower DecimalString.
Import ListNotations.
Local Open Scope Z_scope.

(* ===================================================================== *)
(** * Machine integers *)

Definition size_t_wrap (z : Z) : Z := z mod 2 ^ 64.

Definition int64_wrap (z : Z) : Z := (z + 2 ^ 63) mod 2 ^ 64 - 2 ^ 63.

Definition uint8_of (c : ascii) : Z := Z.of_N (N_of_ascii c).

(** [std::to_string] on an integer: decimal digits, a leading minus sign for
    negative values. *)
Definition to_string (z : Z) : string := NilZero.string_of_int (Z.to_int z).

(* ===================================================================== *)
(** * Machine numbers: [double]

    The values of a [double] are rationals.  An operation on doubles gives
    the exact result rounded to the nearest number with 53 significant
    bits, a tie going to the even significand (IEEE 754 binary64, round to
    nearest even).  The exponent range is not modelled (no overflow, no
    subnormal numbers): the doubles of this file are clock readings in
    seconds and counts of femtoseconds below 10^15. *)

(** The exponent of the binade of a positive number: the [k] with
    [2^k <= q < 2^(k+1)]. *)
Definition ilog2 (q : Q) : Z :=
  let k := Z.log2 (Qnum q) - Z.log2 (Zpos (Qden q)) in
  if Qle_bool (2 ^ k) q then k else k - 1.

(** The nearest integer, a tie going to the even one. *)
Definition round_half_even (x : Q) : Z :=
  let f := Qfloor x in
  match (x - inject_Z f ?= 1 # 2)%Q with
  | Lt => f
  | Gt => f + 1
  | Eq => if Z.even f then f else f + 1
  end.

(** A positive number rounded to 53 significant bits: the significand
    [q / 2^e] lies in [2^52, 2^53) and is rounded to an integer. *)
Definition binary64_pos (q : Q) : Q :=
  let e := ilog2 q - 52 in
  (inject_Z (round_half_even (q / 2 ^ e)) * 2 ^ e)%Q.

(** Rounding to binary64. *)
Definition binary64 (q : Q) : Q :=
  match Qnum q with
  | Z0 => 0%Q
  | Zpos _ => binary64_pos q
  | Zneg _ => (- binary64_pos (- q))%Q
  end.

(** [a - b] and [a * b] on doubles. *)
Definition double_sub (a b : Q) : Q := binary64 (a - b).

Definition double_mul (a b : Q) : Q := binary64 (a * b).

(* ===================================================================== *)
(** * OscilloscopeChannel.h *)

Module OscilloscopeChannel.

(** [enum DownloadState : int] *)
Inductive DownloadState : Type :=
| DOWNLOAD_PROGRESS_DISABLED
| DOWNLOAD_NONE
| DOWNLOAD_WAITING
| DOWNLOAD_STARTED
| DOWNLOAD_FINISHED.

(** The enumerators' values, as the header assigns them. *)
Definition DownloadState_value (s : DownloadState) : Z :=
  match s with
  | DOWNLOAD_PROGRESS_DISABLED => -3
  | DOWNLOAD_NONE => -2
  | DOWNLOAD_WAITING => -1
  | DOWNLOAD_STARTED => 0
  | DOWNLOAD_FINISHED => 100
  end.

(** How a caller reads the [int] that [GetDownloadState()] returns, after the
    header's comment: 0 to 100 is a percentage, a negative value is mapped to
    the enum. *)
Definition is_percentage (v : Z) : bool := (0 <=? v) && (v <=? 100).

Definition DownloadState_of_negative (v : Z) : option DownloadState :=
  if v =? -3 then Some DOWNLOAD_PROGRESS_DISABLED
  else if v =? -2 then Some DOWNLOAD_NONE
  else if v =? -1 then Some DOWNLOAD_WAITING
  else None.

(** Modelled from the spec: the download status of a channel and
    [OscilloscopeChannel::GetDownloadState], which the header declares and
    whose body is in OscilloscopeChannel.cpp, not among the sources.  The
    spec has it return either a percentage in [0,100] or one of the
    sentinel codes: the channel is in one of the enumerated states, or part
    of its waveform has been downloaded and the status is that percentage;
    [GetDownloadState] returns the code of the state, or the percentage. *)
Inductive download : Type :=
| InState (s : DownloadState)
| Downloaded (percent : Z).

(** A percentage is between 0 and 100. *)
Definition download_ok (d : download) : Prop :=
  match d with
  | InState _ => True
  | Downloaded percent => 0 <= percent <= 100
  end.

Definition GetDownloadState (d : download) : Z :=
  match d with
  | InState s => DownloadState_value s
  | Downloaded percent => percent
  end.

(** The part of the channel that reference counting touches:
    [size_t m_refcount] and whether the channel is switched on. *)
Record channel : Type := mkChannel {
  m_refcount : Z;
  m_enabled : bool
}.

Definition GetRefCount (ch : channel) : Z := m_refcount ch.

Definition IsEnabled (ch : channel) : bool := m_enabled ch.

(** [Enable()] and [Disable()] force the state and leave the count alone. *)
Definition Enable (ch : channel) : channel :=
  {| m_refcount := m_refcount ch; m_enabled := true |}.

Definition Disable (ch : channel) : channel :=
  {| m_refcount := m_refcount ch; m_enabled := false |}.

(** A channel as its constructor leaves it: no consumer, switched off. *)
Definition fresh_channel : channel := {| m_refcount := 0; m_enabled := false |}.

(** Modelled from the spec: [OscilloscopeChannel::AddRef], whose body is in
    OscilloscopeChannel.cpp (only the declaration is in the header).  The
    specification: [AddRef] increments the count, and a channel is on iff its
    count is positive, so the first reference switches the channel on. *)
Definition AddRef (ch : channel) : channel :=
  let ch := if m_refcount ch =? 0 then Enable ch else ch in
  {| m_refcount := size_t_wrap (m_refcount ch + 1); m_enabled := m_enabled ch |}.

(** Modelled from the spec: [OscilloscopeChannel::Release], whose body is in
    OscilloscopeChannel.cpp.  The specification: [Release] on a zero count is
    a no-op; otherwise it decrements and powers the channel off only when the
    count reaches zero. *)
Definition Release (ch : channel) : channel :=
  if m_refcount ch =? 0 then ch
  else
    let ch := {| m_refcount := size_t_wrap (m_refcount ch - 1);
                 m_enabled := m_enabled ch |} in
    if m_refcount ch =? 0 then Disable ch else ch.

(** A consumer's call. *)
Inductive call : Type := CallAddRef | CallRelease.

Definition call_eqb (a b : call) : bool :=
  match a, b with
  | CallAddRef, CallAddRef | CallRelease, CallRelease => true
  | _, _ => false
  end.

Definition do_call (ch : channel) (c : call) : channel :=
  match c with
  | CallAddRef => AddRef ch
  | CallRelease => Release ch
  end.

(** The calls are processed in order. *)
Definition run (calls : list call) (ch : channel) : channel :=
  fold_left do_call calls ch.

(** How often a call occurs in a sequence. *)
Definition count (c : call) (calls : list call) : Z :=
  Z.of_nat (List.length (filter (call_eqb c) calls)).

(** No [Release] is issued while the count is zero: at every point of the
    sequence the releases so far do not outnumber the references taken. *)
Definition never_over_released (calls : list call) : Prop :=
  forall k : nat,
    count CallRelease (firstn k calls) <= count CallAddRef (firstn k calls).

(** The Release calls of a sequence that take effect, when the sequence
    starts at count [n]: a Release at count zero is ignored. *)
Fixpoint effective_releases (n : Z) (calls : list call) : Z :=
  match calls with
  | [] => 0
  | CallAddRef :: rest => effective_releases (n + 1) rest
  | CallRelease :: rest =>
      if n =? 0 then effective_releases 0 rest
      else 1 + effective_releases (n - 1) rest
  end.

(** What every channel reached by [AddRef] and [Release] satisfies. *)
Definition refcount_inv (ch : channel) : Prop :=
  0 <= m_refcount ch < 2 ^ 64 /\ m_enabled ch = (0 <? m_refcount ch).

End OscilloscopeChannel.

(* ===================================================================== *)
(** * Strings and streams (the parts of the C++ library the driver uses) *)

Definition LF : ascii := "010"%char.
Definition CR : ascii := "013"%char.
Definition CRLF : string := String CR (String LF EmptyString).

(** [s += c] *)
Definition push_char (s : string) (c : ascii) : string :=
  (s ++ String c EmptyString)%string.

(** [s.size() >= n && 0 == s.compare(s.length() - n, n, t)] with
    [n = t.size()]: [t] is at the tail of [s]. *)
Definition ends_with (s t : string) : bool :=
  let n := String.length t in
  (n <=? String.length s)%nat &&
  String.eqb (substring (String.length s - n) n s) t.

(** [s.find(t) != std::string::npos] *)
Definition contains (s t : string) : bool :=
  match index 0 t s with Some _ => true | None => false end.

(** The characters up to the first line feed, and what follows that line
    feed; [None] when there is no line feed. *)
Fixpoint split_line (s : string) : string * option string :=
  match s with
  | EmptyString => (EmptyString, None)
  | String c s' =>
      if Ascii.eqb c LF then (EmptyString, Some s')
      else let (line, rest) := split_line s' in (String c line, rest)
  end.

(** A [std::stringstream] opened on a string: the characters not yet
    extracted, and [good()]. *)
Record stringstream : Type := mkStream {
  ss_buf : string;
  ss_good : bool
}.

Definition stringstream_of (s : string) : stringstream :=
  {| ss_buf := s; ss_good := true |}.

(** [getline(ss, str)]: the stream afterwards, [str] afterwards, and the
    stream's truth value ([!fail()]).

    The C++ standard ([string.io]): after constructing a sentry object, if
    the sentry converts to true, calls [str.erase()] and then extracts
    characters until end-of-file (sets [eofbit]) or the delimiter (extracted,
    not appended); if no character was extracted, sets [failbit].  The sentry
    converts to false when the stream is not [good()]: then [failbit] is set
    and [str] is left as it was. *)
Definition getline (ss : stringstream) (str : string)
  : stringstream * string * bool :=
  if negb (ss_good ss) then (ss, str, false)
  else
    match split_line (ss_buf ss) with
    | (line, Some rest) => ({| ss_buf := rest; ss_good := true |}, line, true)
    | (line, None) =>
        ({| ss_buf := EmptyString; ss_good := false |}, line,
         negb (String.eqb line EmptyString))
    end.

(** Modelled from the spec: [RemoveCR], a helper declared in TinySA.h.  The
    specification: the line is returned with trailing carriage-return
    characters stripped. *)
Fixpoint RemoveCR (s : string) : string :=
  match s with
  | EmptyString => EmptyString
  | String c s' =>
      match RemoveCR s' with
      | EmptyString => if Ascii.eqb c CR then EmptyString else String c EmptyString
      | r => String c r
      end
  end.

(** What "trailing carriage returns stripped" means, stated without
    [RemoveCR]: the string is the result followed by carriage returns only,
    and the result does not end in one. *)
Fixpoint all_CR (s : string) : bool :=
  match s with
  | EmptyString => true
  | String c s' => Ascii.eqb c CR && all_CR s'
  end.

Definition strips_trailing_CR (s r : string) : Prop :=
  (exists t, s = (r ++ t)%string /\ all_CR t = true) /\
  (forall r', r <> (r' ++ String CR EmptyString)%string).

(* ===================================================================== *)
(** * Outcomes *)

Inductive fault : Type :=
| OutOfFuel          (* the model's loop bound was hit *)
| DivisionByZero     (* integer division by zero: undefined behaviour *)
| OutOfBounds.       (* indexing a vector past its end: undefined behaviour *)

Inductive outcome (A : Type) : Type :=
| Ret (a : A)
| Fault (f : fault).

Arguments Ret {A} a.
Arguments Fault {A} f.

Definition bind {A B : Type} (c : outcome A) (k : A -> outcome B) : outcome B :=
  match c with
  | Ret a => k a
  | Fault f => Fault f
  end.

Notation "x <- c ;; k" := (bind c (fun x => k))
  (at level 61, c at next level, right associativity).
Notation "' pat <- c ;; k" := (bind c (fun x => match x with pat => k end))
  (at level 61, pat pattern, c at next level, right associativity).

(* ===================================================================== *)
(** * The world: transport, clock and log *)

(** What the device does next: deliver a byte, or stay quiet for a poll,
    after which the clock reads [now]. *)
Inductive rx_event : Type :=
| Rx (c : ascii)
| Quiet (now : Q).

Inductive log_entry : Type :=
| LogError_Timeout
| LogError_ResponseTooLong (bytesRead : Z)
| LogError_InvalidByteCount (read toRead : Z)
| LogError_CouldNotConnect
| LogWarning_UnexpectedResponse (response command : string)
| LogWarning_RbwRejected (value : Z) (reply0 : string)
| LogWarning_RbwTooFewLines (lines : Z)
| LogWarning_SweepStartRejected (value : Z) (reply0 : string)
| LogWarning_SweepStopRejected (value : Z) (reply0 : string)
| LogWarning_SweepNoLines
| LogWarning_InvalidOpeningByte (b : Z)
| LogWarning_InvalidClosingByte (b : Z)
| LogWarning_InvalidPointHeader (b : Z)
| Notify_ChannelsDownloadFinished.

Record world : Type := mkWorld {
  w_rx : list rx_event;     (* what the device will deliver *)
  w_clock : Q;              (* what GetTime() returns now, in seconds *)
  w_tx : list string;       (* what SendCommand has written, oldest first *)
  w_log : list log_entry    (* LogError, LogWarning and notifications *)
}.

(** [GetTime()]: the wall clock, in seconds. *)
Definition GetTime (w : world) : Q := w_clock w.

(** Modelled from the spec: [SCPITransport::SendCommand], the transport's
    write; the bytes go out as they are. *)
Definition SendCommand (cmd : string) (w : world) : world :=
  {| w_rx := w_rx w; w_clock := w_clock w;
     w_tx := w_tx w ++ [cmd]; w_log := w_log w |}.

Definition Log (e : log_entry) (w : world) : world :=
  {| w_rx := w_rx w; w_clock := w_clock w;
     w_tx := w_tx w; w_log := w_log w ++ [e] |}.

Definition Log_if (b : bool) (e : log_entry) (w : world) : world :=
  if b then Log e w else w.

(** Modelled from the spec: [m_transport->ReadRawData(1, &tmp)], the
    transport's non-blocking poll for a single byte, false when nothing is
    available.  A quiet poll lets the clock advance.  On a script that has
    run out nothing arrives. *)
Definition ReadRawData_1 (w : world) : option ascii * world :=
  match w_rx w with
  | [] => (None, w)
  | Quiet now :: rx =>
      (None, {| w_rx := rx; w_clock := now; w_tx := w_tx w; w_log := w_log w |})
  | Rx c :: rx =>
      (Some c, {| w_rx := rx; w_clock := w_clock w; w_tx := w_tx w; w_log := w_log w |})
  end.

(** The bytes the device delivers back to back, at most [n] of them. *)
Fixpoint take_run (n : nat) (rx : list rx_event) : list ascii * list rx_event :=
  match n, rx with
  | S n', Rx c :: rx' => let (bs, rest) := take_run n' rx' in (c :: bs, rest)
  | _, _ => ([], rx)
  end.

(** Modelled from the spec: [m_transport->ReadRawData(len, buf, progress)],
    the transport's block read: it stores up to [len] bytes from the start
    of [buf] on and returns how many it actually read.  The progress
    callback only feeds the download monitor and is left out. *)
Definition ReadRawData (len : Z) (buf : list ascii) (w : world)
  : Z * list ascii * world :=
  match w_rx w with
  | Quiet now :: rx =>
      (0, buf, {| w_rx := rx; w_clock := now; w_tx := w_tx w; w_log := w_log w |})
  | rx =>
      let (bs, rest) := take_run (Z.to_nat len) rx in
      (Z.of_nat (List.length bs), bs ++ skipn (List.length bs) buf,
       {| w_rx := rest; w_clock := w_clock w; w_tx := w_tx w; w_log := w_log w |})
  end.

(** [data.resize(length)] on a vector: kept elements, then zero bytes. *)
Definition resize (len : Z) (data : list ascii) : list ascii :=
  firstn (Z.to_nat len) data ++ repeat zero (Z.to_nat len - List.length data).

(* ===================================================================== *)
(** * Waveforms and what TinySA.h and its libraries supply *)

(** [UniformAnalogWaveform], the fields the driver stamps. *)
Record Waveform : Type := mkWaveform {
  m_timescale : Z;
  m_triggerPhase : Z;
  m_startTimestamp : Z;
  m_startFemtoseconds : Z;
  m_samples : list Q
}.

(** A peak: where it is and how high. *)
Definition Peak : Type := (Z * Q)%type.

(** [SequenceSet]: the waveform of each channel of one capture, keyed by the
    channel (here by its index). *)
Definition SequenceSet : Type := list (Z * Waveform).

(** Modelled from the spec: [FS_PER_SECOND], a constant of scopehal.h; the
    sub-second part of a timestamp is a count of femtoseconds. *)
Definition FS_PER_SECOND : Z := 10 ^ 15.

(** The constants that TinySA.h declares, and the library routines whose
    result is not modelled (floating-point formatting, [sscanf], the peak
    search of SpectrumChannel).  Every definition below takes them as a
    parameter.  [TRAILER_STRING_LENGTH] and [EOL_STRING_LENGTH] are the
    sizes of the two strings; [ends_with] takes them from the strings. *)
Record Platform : Type := mkPlatform {
  MAX_RESPONSE_SIZE : Z;
  COMMUNICATION_TIMEOUT : Q;
  TRAILER_STRING : string;
  EOL_STRING : string;
  (* std::to_string(((float)value)/1000) *)
  to_string_kHz : Z -> string;
  (* what sscanf(line, "%" SCNi64 "kHz", &rbw) leaves in rbw *)
  sscanf_rbw : string -> Z;
  (* what sscanf(line, "%" SCNi64 " %" SCNi64, &start, &stop) leaves in
     start and stop, given what they held before *)
  sscanf_sweep : string -> Z -> Z -> Z * Z;
  (* SpectrumChannel::FindPeaks(cap, max_peaks, search_hz) *)
  FindPeaks : Waveform -> Z -> Z -> list Peak
}.

(* ===================================================================== *)
(** * TinySA.cpp: the conversation with the device *)

Section Conversation.

Variable P : Platform.

(** [GetTime() - start >= COMMUNICATION_TIMEOUT], asked after a read that
    brought nothing.  Once the script has run out the device stays silent:
    the polling loop can only leave through this test, so it is answered
    yes. *)
Definition deadline_passed (start : Q) (w : world) : bool :=
  match w_rx w with
  | [] => true
  | _ => Qle_bool (COMMUNICATION_TIMEOUT P) (GetTime w - start)
  end.

(** The clock when the loop leaves through the timeout: not before the
    deadline. *)
Definition await_deadline (start : Q) (w : world) : world :=
  if Qle_bool (COMMUNICATION_TIMEOUT P) (GetTime w - start) then w
  else {| w_rx := w_rx w; w_clock := start + COMMUNICATION_TIMEOUT P;
          w_tx := w_tx w; w_log := w_log w |}.

Definition timeout_exit (start : Q) (w : world) : world :=
  Log LogError_Timeout (await_deadline start w).

(** The [while(true)] loop of [ConverseString]. *)
Fixpoint ConverseString_loop (fuel : nat) (start : Q) (result : string)
  (bytesRead : Z) (w : world) : outcome (string * world) :=
  match fuel with
  | O => Fault OutOfFuel
  | S fuel =>
      match ReadRawData_1 w with
      | (None, w) =>
          if deadline_passed start w then Ret (result, timeout_exit start w)
          else ConverseString_loop fuel start result bytesRead w
      | (Some tmp, w) =>
          let result := push_char result tmp in
          let bytesRead := size_t_wrap (bytesRead + 1) in
          if MAX_RESPONSE_SIZE P <? bytesRead then
            Ret (result, Log (LogError_ResponseTooLong bytesRead) w)
          else if ends_with result (TRAILER_STRING P) then Ret (result, w)
          else ConverseString_loop fuel start result bytesRead w
      end
  end.

Definition ConverseString (commandString : string) (w : world)
  : outcome (string * world) :=
  let w := SendCommand (commandString ++ CRLF)%string w in
  let start := GetTime w in
  ConverseString_loop (S (List.length (w_rx w))) start EmptyString 0 w.

Definition ConverseSingle (commandString : string) (w : world)
  : outcome (string * world) :=
  '(response, w) <- ConverseString commandString w ;;
  let ss := stringstream_of response in
  let result := EmptyString in
  (* Read first line (echo of command string) *)
  let '(ss, result, _) := getline ss result in
  let result := RemoveCR result in
  let w := Log_if (negb (String.eqb result commandString))
                  (LogWarning_UnexpectedResponse result commandString) w in
  (* Get second line as result *)
  let '(ss, result, _) := getline ss result in
  let result := RemoveCR result in
  Ret (result, w).

(** The [while (getline(ss, curLine))] loop of [ConverseMultiple]. *)
Fixpoint ConverseMultiple_loop (fuel : nat) (commandString : string)
  (ss : stringstream) (curLine : string) (firstLine : bool)
  (readLines : list string) (size : Z) (w : world)
  : outcome (Z * list string * world) :=
  match fuel with
  | O => Fault OutOfFuel
  | S fuel =>
      let '(ss, curLine, ok) := getline ss curLine in
      if negb ok then Ret (size, readLines, w)
      else
        let curLine := RemoveCR curLine in
        if firstLine then
          let w := Log_if (negb (String.eqb curLine commandString))
                     (LogWarning_UnexpectedResponse curLine commandString) w in
          ConverseMultiple_loop fuel commandString ss curLine false
            readLines size w
        else if negb (String.eqb curLine EmptyString) then
          ConverseMultiple_loop fuel commandString ss curLine firstLine
            (readLines ++ [curLine]) (size_t_wrap (size + 1)) w
        else
          ConverseMultiple_loop fuel commandString ss curLine firstLine
            readLines size w
  end.

Definition ConverseMultiple (commandString : string)
  (readLines : list string) (w : world) : outcome (Z * list string * world) :=
  '(response, w) <- ConverseString commandString w ;;
  ConverseMultiple_loop (String.length response + 2) commandString
    (stringstream_of response) EmptyString true readLines 0 w.

(** The [while(true)] loop of [ConverseBinary]. *)
Fixpoint ConverseBinary_loop (fuel : nat) (commandString : string)
  (length : Z) (start : Q) (inHeader inFooter : bool) (result : string)
  (bytesRead dataRead : Z) (data : list ascii) (w : world)
  : outcome (Z * list ascii * world) :=
  match fuel with
  | O => Fault OutOfFuel
  | S fuel =>
      if inFooter || inHeader then
        (* Consume header and footer as strings *)
        match ReadRawData_1 w with
        | (None, w) =>
            if deadline_passed start w then
              Ret (dataRead, data, timeout_exit start w)
            else
              ConverseBinary_loop fuel commandString length start
                inHeader inFooter result bytesRead dataRead data w
        | (Some tmp, w) =>
            let bytesRead := size_t_wrap (bytesRead + 1) in
            if MAX_RESPONSE_SIZE P <? bytesRead then
              Ret (dataRead, data, Log (LogError_ResponseTooLong bytesRead) w)
            else if inHeader then
              let result := push_char result tmp in
              if ends_with result (EOL_STRING P) then
                (* Check that header matches command string *)
                let w := Log_if (negb (prefix commandString result))
                           (LogWarning_UnexpectedResponse result commandString)
                           w in
                ConverseBinary_loop fuel commandString length start
                  false inFooter EmptyString bytesRead dataRead data w
              else
                ConverseBinary_loop fuel commandString length start
                  inHeader inFooter result bytesRead dataRead data w
            else if inFooter then
              let result := push_char result tmp in
              if ends_with result (TRAILER_STRING P) then
                Ret (dataRead, data, w)
              else
                ConverseBinary_loop fuel commandString length start
                  inHeader inFooter result bytesRead dataRead data w
            else
              ConverseBinary_loop fuel commandString length start
                inHeader inFooter result bytesRead dataRead data w
        end
      else
        (* Read binary data *)
        let '(n, data, w) := ReadRawData length data w in
        let dataRead := size_t_wrap (dataRead + n) in
        if length <=? dataRead then
          ConverseBinary_loop fuel commandString length start
            inHeader true result bytesRead dataRead data w
        else if deadline_passed start w then
          Ret (dataRead, data, timeout_exit start w)
        else
          ConverseBinary_loop fuel commandString length start
            inHeader inFooter result bytesRead dataRead data w
  end.

Definition ConverseBinary (commandString : string) (data : list ascii)
  (length : Z) (w : world) : outcome (Z * list ascii * world) :=
  let w := SendCommand (commandString ++ CRLF)%string w in
  (* Prepare buffer size *)
  let data := resize length data in
  let start := GetTime w in
  ConverseBinary_loop (List.length (w_rx w) + 2) commandString length start
    true false EmptyString 0 0 data w.

(** [ConverseRbwValue(sendValue, value)]: the rbw the device reports. *)
Definition ConverseRbwValue (sendValue : bool) (value : Z) (w : world)
  : outcome (Z * world) :=
  let reply : list string := [] in
  '(reply, w) <-
    (if sendValue then
       '(lines, reply, w) <-
         ConverseMultiple ("rbw " ++ to_string_kHz P value)%string reply w ;;
       (* Value was rejected *)
       let w := Log_if (1 <? lines)
                  (LogWarning_RbwRejected value (nth 0 reply EmptyString)) w in
       (* Clear reply for next use *)
       Ret ([], w)
     else Ret (reply, w)) ;;
  (* Get currently configured rbw *)
  '(lines, reply, w) <- ConverseMultiple "rbw" reply w ;;
  if lines <? 2 then Ret (0, Log (LogWarning_RbwTooFewLines lines) w)
  else
    let line := nth 1 reply EmptyString in
    let rbw := sscanf_rbw P line in
    let isKhz := contains line "kHz" in
    Ret (if isKhz then int64_wrap (rbw * 1000) else rbw, w).

(** [ConverseSweep(sweepStart, sweepStop, setValue)]: the result, and the two
    reference arguments afterwards. *)
Definition ConverseSweep (sweepStart sweepStop : Z) (setValue : bool)
  (w : world) : outcome (bool * Z * Z * world) :=
  let reply : list string := [] in
  let origStartValue := sweepStart in
  let origStopValue := sweepStop in
  '(reply, w) <-
    (if setValue then
       '(lines, reply, w) <-
         ConverseMultiple ("sweep start " ++ to_string sweepStart)%string
           reply w ;;
       let w := Log_if (1 <? lines)
                  (LogWarning_SweepStartRejected sweepStart
                     (nth 0 reply EmptyString)) w in
       '(lines, reply, w) <-
         ConverseMultiple ("sweep stop " ++ to_string sweepStop)%string
           reply w ;;
       let w := Log_if (1 <? lines)
                  (LogWarning_SweepStopRejected sweepStop
                     (nth 0 reply EmptyString)) w in
       Ret ([], w)
     else Ret (reply, w)) ;;
  '(lines, reply, w) <- ConverseMultiple "sweep" reply w ;;
  if lines <? 1 then
    Ret (false, sweepStart, sweepStop, Log LogWarning_SweepNoLines w)
  else
    let (sweepStart, sweepStop) :=
      sscanf_sweep P (nth 0 reply EmptyString) sweepStart sweepStop in
    Ret (setValue &&
         (negb (origStartValue =? sweepStart) ||
          negb (origStopValue =? sweepStop)),
         sweepStart, sweepStop, w).

End Conversation.

(* ===================================================================== *)
(** * TinySA.cpp: the instrument *)

(** [enum Model], the two enumerators the driver assigns. *)
Inductive Model : Type := TINY_SA | TINY_SA_ULTRA.

(** A [SpectrumChannel] of the instrument, as far as the driver touches it. *)
Record SpectrumChannel : Type := mkSpectrumChannel {
  ch_hwname : string;
  ch_color : string;
  ch_index : Z;
  ch_enabled : bool;         (* what IsChannelEnabled reports; a new channel
                                has no consumer yet and is off *)
  ch_voltageRange : Z;       (* set by SetChannelVoltageRange *)
  ch_offset : Z;             (* set by SetChannelOffset *)
  ch_peaks : list Peak       (* left by FindPeaks *)
}.

Record TinySA : Type := mkTinySA {
  m_vendor : string;
  m_fwVersion : string;
  m_model : string;
  m_tinySAModel : Model;
  m_channels : list SpectrumChannel;
  m_sampleDepth : Z;
  m_freqMin : Z;
  m_freqMax : Z;
  m_rbwMin : Z;
  m_rbwMax : Z;
  m_modelDbmOffset : Z;
  m_sweepStart : Z;
  m_sweepStop : Z;
  m_rbw : Z;
  m_pendingWaveforms : list SequenceSet;
  m_triggerOneShot : bool;
  m_triggerArmed : bool
}.

(** Assignments to the members. *)
Definition set_identity (vendor fwVersion : string) (st : TinySA) : TinySA :=
  mkTinySA vendor fwVersion (m_model st) (m_tinySAModel st) (m_channels st)
    (m_sampleDepth st) (m_freqMin st) (m_freqMax st) (m_rbwMin st)
    (m_rbwMax st) (m_modelDbmOffset st) (m_sweepStart st) (m_sweepStop st)
    (m_rbw st) (m_pendingWaveforms st) (m_triggerOneShot st)
    (m_triggerArmed st).

Definition set_model (model : string) (m : Model) (st : TinySA) : TinySA :=
  mkTinySA (m_vendor st) (m_fwVersion st) model m (m_channels st)
    (m_sampleDepth st) (m_freqMin st) (m_freqMax st) (m_rbwMin st)
    (m_rbwMax st) (m_modelDbmOffset st) (m_sweepStart st) (m_sweepStop st)
    (m_rbw st) (m_pendingWaveforms st) (m_triggerOneShot st)
    (m_triggerArmed st).

Definition set_channels (chs : list SpectrumChannel) (st : TinySA) : TinySA :=
  mkTinySA (m_vendor st) (m_fwVersion st) (m_model st) (m_tinySAModel st) chs
    (m_sampleDepth st) (m_freqMin st) (m_freqMax st) (m_rbwMin st)
    (m_rbwMax st) (m_modelDbmOffset st) (m_sweepStart st) (m_sweepStop st)
    (m_rbw st) (m_pendingWaveforms st) (m_triggerOneShot st)
    (m_triggerArmed st).

Definition set_sampleDepth (n : Z) (st : TinySA) : TinySA :=
  mkTinySA (m_vendor st) (m_fwVersion st) (m_model st) (m_tinySAModel st)
    (m_channels st) n (m_freqMin st) (m_freqMax st) (m_rbwMin st)
    (m_rbwMax st) (m_modelDbmOffset st) (m_sweepStart st) (m_sweepStop st)
    (m_rbw st) (m_pendingWaveforms st) (m_triggerOneShot st)
    (m_triggerArmed st).

(** The five assignments of one [case] of the constructor's [switch]. *)
Definition set_limits (freqMin freqMax rbwMin rbwMax dbmOffset : Z)
  (st : TinySA) : TinySA :=
  mkTinySA (m_vendor st) (m_fwVersion st) (m_model st) (m_tinySAModel st)
    (m_channels st) (m_sampleDepth st) freqMin freqMax rbwMin rbwMax dbmOffset
    (m_sweepStart st) (m_sweepStop st) (m_rbw st) (m_pendingWaveforms st)
    (m_triggerOneShot st) (m_triggerArmed st).

Definition set_sweep (sweepStart sweepStop : Z) (st : TinySA) : TinySA :=
  mkTinySA (m_vendor st) (m_fwVersion st) (m_model st) (m_tinySAModel st)
    (m_channels st) (m_sampleDepth st) (m_freqMin st) (m_freqMax st)
    (m_rbwMin st) (m_rbwMax st) (m_modelDbmOffset st) sweepStart sweepStop
    (m_rbw st) (m_pendingWaveforms st) (m_triggerOneShot st)
    (m_triggerArmed st).

Definition set_rbw (rbw : Z) (st : TinySA) : TinySA :=
  mkTinySA (m_vendor st) (m_fwVersion st) (m_model st) (m_tinySAModel st)
    (m_channels st) (m_sampleDepth st) (m_freqMin st) (m_freqMax st)
    (m_rbwMin st) (m_rbwMax st) (m_modelDbmOffset st) (m_sweepStart st)
    (m_sweepStop st) rbw (m_pendingWaveforms st) (m_triggerOneShot st)
    (m_triggerArmed st).

Definition set_pendingWaveforms (q : list SequenceSet) (st : TinySA) : TinySA :=
  mkTinySA (m_vendor st) (m_fwVersion st) (m_model st) (m_tinySAModel st)
    (m_channels st) (m_sampleDepth st) (m_freqMin st) (m_freqMax st)
    (m_rbwMin st) (m_rbwMax st) (m_modelDbmOffset st) (m_sweepStart st)
    (m_sweepStop st) (m_rbw st) q (m_triggerOneShot st) (m_triggerArmed st).

Definition set_triggerArmed (b : bool) (st : TinySA) : TinySA :=
  mkTinySA (m_vendor st) (m_fwVersion st) (m_model st) (m_tinySAModel st)
    (m_channels st) (m_sampleDepth st) (m_freqMin st) (m_freqMax st)
    (m_rbwMin st) (m_rbwMax st) (m_modelDbmOffset st) (m_sweepStart st)
    (m_sweepStop st) (m_rbw st) (m_pendingWaveforms st) (m_triggerOneShot st)
    b.

(** [v[i]] on a vector; past the end the behaviour is undefined. *)
Definition vector_at {A : Type} (v : list A) (i : Z) : outcome A :=
  match nth_error v (Z.to_nat i) with
  | Some a => if i <? 0 then Fault OutOfBounds else Ret a
  | None => Fault OutOfBounds
  end.

(** [v[i] = a] for [i] within the vector. *)
Fixpoint vector_set {A : Type} (v : list A) (i : nat) (a : A) : list A :=
  match v, i with
  | [], _ => []
  | _ :: t, O => a :: t
  | h :: t, S i' => h :: vector_set t i' a
  end.

(** Changes to channel [i] of the instrument. *)
Definition map_channel (i : nat) (f : SpectrumChannel -> SpectrumChannel)
  (st : TinySA) : TinySA :=
  match nth_error (m_channels st) i with
  | Some ch => set_channels (vector_set (m_channels st) i (f ch)) st
  | None => st
  end.

(** [SetChannelVoltageRange(i, stream, range)] and
    [SetChannelOffset(i, stream, offset)] of the base class store their
    argument; the channel has one stream. *)
Definition SetChannelVoltageRange (i : nat) (range : Z) (st : TinySA) : TinySA :=
  map_channel i (fun ch =>
    mkSpectrumChannel (ch_hwname ch) (ch_color ch) (ch_index ch)
      (ch_enabled ch) range (ch_offset ch) (ch_peaks ch)) st.

Definition SetChannelOffset (i : nat) (offset : Z) (st : TinySA) : TinySA :=
  map_channel i (fun ch =>
    mkSpectrumChannel (ch_hwname ch) (ch_color ch) (ch_index ch)
      (ch_enabled ch) (ch_voltageRange ch) offset (ch_peaks ch)) st.

Definition set_peaks (i : nat) (peaks : list Peak) (st : TinySA) : TinySA :=
  map_channel i (fun ch =>
    mkSpectrumChannel (ch_hwname ch) (ch_color ch) (ch_index ch)
      (ch_enabled ch) (ch_voltageRange ch) (ch_offset ch) peaks) st.

(** [IsChannelEnabled(j)], as the channel records it. *)
Definition IsChannelEnabled (st : TinySA) (j : Z) : bool :=
  match nth_error (m_channels st) (Z.to_nat j) with
  | Some ch => ch_enabled ch
  | None => false
  end.

(** ** The constructor's [switch (m_tinySAModel)] *)

Inductive case_label : Type :=
| case_of (m : Model)
| case_default.

(** One labelled group of statements, and whether it ends in [break]. *)
Record switch_arm : Type := mkArm {
  arm_label : case_label;
  arm_body : TinySA -> TinySA;
  arm_break : bool
}.

Definition Model_eqb (a b : Model) : bool :=
  match a, b with
  | TINY_SA, TINY_SA | TINY_SA_ULTRA, TINY_SA_ULTRA => true
  | _, _ => false
  end.

Definition is_case (m : Model) (a : switch_arm) : bool :=
  match arm_label a with
  | case_of m' => Model_eqb m m'
  | case_default => false
  end.

Definition is_default (a : switch_arm) : bool :=
  match arm_label a with
  | case_default => true
  | case_of _ => false
  end.

(** The arms from the first one that [sel] selects. *)
Fixpoint arms_from (sel : switch_arm -> bool) (arms : list switch_arm)
  : option (list switch_arm) :=
  match arms with
  | [] => None
  | a :: rest => if sel a then Some arms else arms_from sel rest
  end.

(** Control runs through the arms in textual order until a [break]. *)
Fixpoint fall_through (arms : list switch_arm) (st : TinySA) : TinySA :=
  match arms with
  | [] => st
  | a :: rest =>
      let st := arm_body a st in
      if arm_break a then st else fall_through rest st
  end.

(** [switch]: enter at the matching [case], else at [default], else skip. *)
Definition switch (m : Model) (arms : list switch_arm) (st : TinySA) : TinySA :=
  match arms_from (is_case m) arms with
  | Some entered => fall_through entered st
  | None =>
      match arms_from is_default arms with
      | Some entered => fall_through entered st
      | None => st
      end
  end.

(** The arms as the constructor writes them: [case TINY_SA] has no [break]. *)
Definition model_switch : list switch_arm :=
  [ mkArm (case_of TINY_SA_ULTRA) (set_limits 0 13000000000 200 850000 174) true;
    mkArm (case_of TINY_SA) (set_limits 0 6000000000 1 600000 128) false;
    mkArm case_default (fun st => st) true ].

(** What the [case] of a model assigns on its own. *)
Definition own_case (m : Model) (st : TinySA) : TinySA :=
  match arms_from (is_case m) model_switch with
  | Some (a :: _) => arm_body a st
  | _ => st
  end.

Section Instrument.

Variable P : Platform.

(** [TinySA::TinySA(transport)], run on an object whose members hold
    [blank]. *)
Definition TinySA_ctor (blank : TinySA) (w : world) : outcome (TinySA * world) :=
  '(version, w) <- ConverseSingle P "version" w ;;
  if String.eqb version EmptyString then
    Ret (blank, Log LogError_CouldNotConnect w)
  else
    (* Set vendor and version *)
    let st := set_identity "tinySA" version blank in
    (* Get model out of first line of info command response *)
    '(model, w) <- ConverseSingle P "info" w ;;
    let st := set_model model
                (if contains model "ULTRA" then TINY_SA_ULTRA else TINY_SA) st in
    (* Add spectrum view channel *)
    let st := set_channels
                (m_channels st ++
                 [mkSpectrumChannel "CH1" "#ffff00"
                    (Z.of_nat (List.length (m_channels st))) false 0 0 []]) st in
    (* Default memory depth to 1000 points *)
    let st := set_sampleDepth 1000 st in
    let st := switch (m_tinySAModel st) model_switch st in
    (* Get span information *)
    '(_, sweepStart, sweepStop, w) <-
      ConverseSweep P (m_sweepStart st) (m_sweepStop st) false w ;;
    let st := set_sweep sweepStart sweepStop st in
    (* Read rbw *)
    '(rbw, w) <- ConverseRbwValue P false 0 w ;;
    let st := set_rbw rbw st in
    (* Init channel range and offet *)
    let st := SetChannelVoltageRange 0 130 st in
    let st := SetChannelOffset 0 50 st in
    Ret (st, w).

(** ** AcquireData *)

(** [(((float)((data2 << 8) + data1))/32) - m_modelDbmOffset] *)
Definition decode_value (data2 data1 offset : Z) : Q :=
  inject_Z (Z.shiftl data2 8 + data1) / inject_Z 32 - inject_Z offset.

(** The [for(size_t j=0; j<nsamples; j++)] loop, with [count] iterations
    left. *)
Fixpoint decode_loop (count : nat) (j : Z) (data : list ascii) (offset : Z)
  (cap : Waveform) (w : world) : outcome (Waveform * world) :=
  match count with
  | O => Ret (cap, w)
  | S count =>
      (* Read content (3 bytes per point, skipping first byte) *)
      data0 <- vector_at data (size_t_wrap (1 + 3 * j)) ;;
      data1 <- vector_at data (size_t_wrap (2 + 3 * j)) ;;
      data2 <- vector_at data (size_t_wrap (3 + 3 * j)) ;;
      let w := Log_if (negb (Ascii.eqb data0 "x"))
                 (LogWarning_InvalidPointHeader (uint8_of data0)) w in
      let value := decode_value (uint8_of data2) (uint8_of data1) offset in
      let cap := mkWaveform (m_timescale cap) (m_triggerPhase cap)
                   (m_startTimestamp cap) (m_startFemtoseconds cap)
                   (vector_set (m_samples cap) (Z.to_nat j) value) in
      decode_loop count (j + 1) data offset cap w
  end.

(** [pending_waveforms[j]] on the [map<int, vector<WaveformBase*>>]: the
    vector stored under [j], an empty one if there is none. *)
Fixpoint map_lookup (m : list (Z * list Waveform)) (j : Z) : list Waveform :=
  match m with
  | [] => []
  | (k, v) :: rest => if k =? j then v else map_lookup rest j
  end.

(** [s[key] = value] on the SequenceSet. *)
Fixpoint SequenceSet_insert (s : SequenceSet) (key : Z) (value : Waveform)
  : SequenceSet :=
  match s with
  | [] => [(key, value)]
  | (k, v) :: rest =>
      if k =? key then (k, value) :: rest
      else (k, v) :: SequenceSet_insert rest key value
  end.

(** The [for(size_t j=0; j<m_channels.size(); j++)] loop that fills a
    SequenceSet, with [count] iterations left. *)
Fixpoint fill_SequenceSet (count : nat) (j : Z) (st : TinySA)
  (pending_waveforms : list (Z * list Waveform)) (i : Z) (s : SequenceSet)
  : outcome SequenceSet :=
  match count with
  | O => Ret s
  | S count =>
      if IsChannelEnabled st j then
        wfm <- vector_at (map_lookup pending_waveforms j) i ;;
        fill_SequenceSet count (j + 1) st pending_waveforms i
          (SequenceSet_insert s j wfm)
      else fill_SequenceSet count (j + 1) st pending_waveforms i s
  end.

(** Conversion of a [double] to [int64_t]: the fraction is dropped. *)
Definition truncate (q : Q) : Z :=
  if Qle_bool 0 q then Qfloor q else Qceiling q.

Definition scanraw_command (st : TinySA) : string :=
  ("scanraw " ++ to_string (m_sweepStart st) ++ " " ++
   to_string (m_sweepStop st) ++ " " ++ to_string (m_sampleDepth st))%string.

Definition AcquireData (st : TinySA) (w : world)
  : outcome (bool * TinySA * world) :=
  (* Store sample depth value *)
  let nsamples := m_sampleDepth st in
  let command := scanraw_command st in
  let data : list ascii := [] in
  (* Data format is  '{' ('x' MSB LSB)*points '}' *)
  let toRead := size_t_wrap (nsamples * 3 + 2) in
  '(read, data, w) <- ConverseBinary P command data toRead w ;;
  if negb (read =? toRead) then
    Ret (false, st, Log (LogError_InvalidByteCount read toRead) w)
  else
    let pending_waveforms : list (Z * list Waveform) := [] in
    if nsamples =? 0 then Fault DivisionByZero
    else
      (* both operands are converted to the unsigned type of nsamples *)
      let stepsize :=
        int64_wrap (size_t_wrap (m_sweepStop st - m_sweepStart st) / nsamples) in
      let tstart := GetTime w in
      (* floor is exact; the difference and the product are doubles *)
      let fs :=
        truncate (double_mul (double_sub tstart (inject_Z (Qfloor tstart)))
                    (inject_Z FS_PER_SECOND)) in
      (* Set up the capture we're going to store our data into *)
      let cap := mkWaveform stepsize (m_sweepStart st) (Qfloor tstart) fs
                   (repeat 0%Q (Z.to_nat nsamples)) in
      (* Check data opening and closing brackets *)
      first <- vector_at data 0 ;;
      let w := Log_if (negb (Ascii.eqb first "{"))
                 (LogWarning_InvalidOpeningByte (uint8_of first)) w in
      last <- vector_at data (size_t_wrap (toRead - 1)) ;;
      let w := Log_if (negb (Ascii.eqb last "}"))
                 (LogWarning_InvalidClosingByte (uint8_of last)) w in
      '(cap, w) <- decode_loop (Z.to_nat nsamples) 0 data
                     (m_modelDbmOffset st) cap w ;;
      (* Done, update the data *)
      let pending_waveforms := (0, [cap]) :: pending_waveforms in
      (* Look for peaks *)
      _ <- vector_at (m_channels st) 0 ;;
      let st := set_peaks 0 (FindPeaks P cap 10 500000) st in
      (* Now that we have all of the pending waveforms, save them in sets
         across all channels (num_pending is 1) *)
      s <- fill_SequenceSet (List.length (m_channels st)) 0 st
             pending_waveforms 0 [] ;;
      let st := set_pendingWaveforms (m_pendingWaveforms st ++ [s]) st in
      let st := if m_triggerOneShot st then set_triggerArmed false st else st in
      (* Tell the download monitor that waveform download has finished *)
      let w := Log Notify_ChannelsDownloadFinished w in
      Ret (true, st, w).

(** [GetSampleDepthsNonInterleaved] *)
Definition GetSampleDepthsNonInterleaved : list Z :=
  [51; 101; 145; 290; 500; 1000; 3000; 10000; 30000].

(** ** Spectrum analyzer mode *)

Definition SetResolutionBandwidth (rbw : Z) (st : TinySA) (w : world)
  : outcome (TinySA * world) :=
  (* Clamp to instrument limits *)
  let st := set_rbw (Z.max (m_rbwMin st) rbw) st in
  let st := set_rbw (Z.min (m_rbwMax st) (m_rbw st)) st in
  (* Send rbw and read actual return *)
  '(v, w) <- ConverseRbwValue P true (m_rbw st) w ;;
  Ret (set_rbw v st, w).

(** The value [SetResolutionBandwidth] hands to [ConverseRbwValue]. *)
Definition clamped_rbw (st : TinySA) (rbw : Z) : Z :=
  Z.min (m_rbwMax st) (Z.max (m_rbwMin st) rbw).

(** The text that carries a value to the device:
    ["rbw " + std::to_string(kHzValue)], then the line end. *)
Definition rbw_command (value : Z) : string :=
  (("rbw " ++ to_string_kHz P value) ++ CRLF)%string.

Definition GetSpan (st : TinySA) : Z :=
  int64_wrap (m_sweepStop st - m_sweepStart st).

Definition GetCenterFrequency (st : TinySA) : Z :=
  Z.quot (int64_wrap (m_sweepStop st + m_sweepStart st)) 2.

(** The start and stop that [SetSpan] and [SetCenterFrequency] ask for
    around a centre: [freq - span/2] and [freq + span/2], clamped to the
    instrument limits. *)
Definition requested_start (st : TinySA) (freq span : Z) : Z :=
  Z.max (m_freqMin st) (int64_wrap (freq - Z.quot span 2)).

Definition requested_stop (st : TinySA) (freq span : Z) : Z :=
  Z.min (m_freqMax st) (int64_wrap (freq + Z.quot span 2)).

Definition SetSpan (span : Z) (st : TinySA) (w : world)
  : outcome (TinySA * world) :=
  (* Calculate requested start/stop *)
  let freq := GetCenterFrequency st in
  let st := set_sweep (int64_wrap (freq - Z.quot span 2))
                      (int64_wrap (freq + Z.quot span 2)) st in
  (* Clamp to instrument limits *)
  let st := set_sweep (Z.max (m_freqMin st) (m_sweepStart st))
                      (Z.min (m_freqMax st) (m_sweepStop st)) st in
  (* Send and read back the values to/from the devices to check boundaries *)
  '(_, sweepStart, sweepStop, w) <-
    ConverseSweep P (m_sweepStart st) (m_sweepStop st) true w ;;
  Ret (set_sweep sweepStart sweepStop st, w).

Definition SetCenterFrequency (freq : Z) (st : TinySA) (w : world)
  : outcome (TinySA * world) :=
  (* Calculate requested start/stop *)
  let span := GetSpan st in
  let st := set_sweep (int64_wrap (freq - Z.quot span 2))
                      (int64_wrap (freq + Z.quot span 2)) st in
  (* Clamp to instrument limits *)
  let st := set_sweep (Z.max (m_freqMin st) (m_sweepStart st))
                      (Z.min (m_freqMax st) (m_sweepStop st)) st in
  (* Send and read back the values to/from the devices to check boundaries *)
  '(_, sweepStart, sweepStop, w) <-
    ConverseSweep P (m_sweepStart st) (m_sweepStop st) true w ;;
  Ret (set_sweep sweepStart sweepStop st, w).

(** [GetDriverNameInternal] *)
Definition GetDriverNameInternal : string := "tiny_sa".

End Instrument.

(** The instrument's limits are those its model's [case] assigns: what holds
    of every instrument the constructor has set up, whatever is changed
    later (no other member function writes these five members). *)
Definition limits_of_model (st : TinySA) : Prop :=
  own_case (m_tinySAModel st) st = st.

(** The calibration offset of a model, as the specification documents it. *)
Definition documented_offset (m : Model) : Z :=
  match m with
  | TINY_SA => 128
  | TINY_SA_ULTRA => 174
  end.

(** The bytes among the events, in order. *)
Fixpoint rx_bytes (events : list rx_event) : string :=
  match events with
  | [] => EmptyString
  | Rx c :: rest => String c (rx_bytes rest)
  | Quiet _ :: rest => rx_bytes rest
  end.

(** Byte [i] of a payload, as a number. *)
Definition payload_byte (data : list ascii) (i : Z) : Z :=
  uint8_of (nth (Z.to_nat i) data zero).

(** The second line of a response, in the specification's words: the text
    between the first and the second line feed (up to the end, if there is
    no second line feed); empty when there is no first line feed. *)
Definition second_line (response : string) : string :=
  match split_line response with
  | (_, Some rest) => fst (split_line rest)
  | (_, None) => EmptyString
  end.

(** The lines that successive [getline] calls take from a text, [cur]
    being the part of the current line already passed: the text is cut at
    every line feed, and what follows the last line feed is a line if it is
    not empty. *)
Fixpoint lines_from (cur : string) (s : string) : list string :=
  match s with
  | EmptyString => if String.eqb cur EmptyString then [] else [cur]
  | String c s' =>
      if Ascii.eqb c LF then cur :: lines_from EmptyString s'
      else lines_from (push_char cur c) s'
  end.

(** What [ConverseMultiple] keeps of a response: the lines after the first,
    without their carriage returns, the empty ones dropped. *)
Definition reply_lines (response : string) : list string :=
  filter (fun line => negb (String.eqb line EmptyString))
         (map RemoveCR (tl (lines_from EmptyString response))).

(** The warning about the first line of a response, if it is not the echo
    of the command. *)
Definition echo_warning (commandString response : string) (w : world) : world :=
  match lines_from EmptyString response with
  | [] => w
  | first :: _ =>
      Log_if (negb (String.eqb (RemoveCR first) commandString))
        (LogWarning_UnexpectedResponse (RemoveCR first) commandString) w
  end.

(** [t] ends [s], and ends no shorter non-empty beginning of [s]: reading
    [s] byte by byte, the delimiter [t] is seen for the first time when the
    last byte is in. *)
Definition first_ends_with (s t : string) : Prop :=
  s <> EmptyString
  /\ ends_with s t = true
  /\ forall p q, s = (p ++ q)%string -> p <> EmptyString -> q <> EmptyString ->
                 ends_with p t = false.

(** [first_ends_with], decided by walking through [s]: [p] is the part
    passed, [q] the part to come. *)
Fixpoint no_early_end (p q t : string) : bool :=
  match q with
  | EmptyString => true
  | String c q' =>
      match q' with
      | EmptyString => true
      | _ => negb (ends_with (push_char p c) t)
             && no_early_end (push_char p c) q' t
      end
  end.

Definition first_ends_withb (s t : string) : bool :=
  negb (String.eqb s EmptyString) && ends_with s t
  && no_early_end EmptyString s t.

(** No beginning of [q], read after [p], completes [t]. *)
Fixpoint no_end_in (p q t : string) : bool :=
  match q with
  | EmptyString => true
  | String c q' =>
      negb (ends_with (push_char p c) t) && no_end_in (push_char p c) q' t
  end.

(** [t] ends no non-empty beginning of [s]: reading [s] byte by byte, the
    delimiter [t] is never seen. *)
Definition never_ends_with (s t : string) : Prop :=
  forall p q, s = (p ++ q)%string -> p <> EmptyString -> ends_with p t = false.

(** The texts that carry a sweep to the device:
    ["sweep start " + std::to_string(sweepStart)] and
    ["sweep stop " + std::to_string(sweepStop)]. *)
Definition sweep_start_command (sweepStart : Z) : string :=
  ("sweep start " ++ to_string sweepStart)%string.

Definition sweep_stop_command (sweepStop : Z) : string :=
  ("sweep stop " ++ to_string sweepStop)%string.

(** The world after a conversation that consumed the script up to [rest]
    without a quiet poll and without logging. *)
Definition world_after (w : world) (sent : string) (rest : list rx_event)
  : world :=
  {| w_rx := rest; w_clock := w_clock w;
     w_tx := w_tx w ++ [(sent ++ CRLF)%string]; w_log := w_log w |}.

(* ===================================================================== *)
(** * Worked inputs *)

(** A device that delivers the characters of [s] back to back. *)
Definition script (s : string) : list rx_event :=
  map Rx (list_ascii_of_string s).

(** The leading decimal digits of a string, as a number. *)
Fixpoint leading_digits (s : string) (acc : Z) : Z * string :=
  match s with
  | EmptyString => (acc, s)
  | String c s' =>
      let d := uint8_of c - 48 in
      if (0 <=? d) && (d <=? 9) then leading_digits s' (10 * acc + d)
      else (acc, s)
  end.

Definition three_digits (n : Z) : string :=
  (to_string (n / 100) ++ to_string (n / 10 mod 10) ++ to_string (n mod 10))%string.

(** A stand-in platform for the worked inputs: a small response budget, a
    five second timeout, the prompt ["ch> "], CRLF line ends; kHz text with
    six decimals; numbers scanned as leading decimal digits; no peaks. *)
Definition example_platform : Platform :=
  mkPlatform 64 5 "ch> " CRLF
    (fun v => (to_string (v / 1000) ++ "." ++ three_digits (v mod 1000) ++ "000")%string)
    (fun line => fst (leading_digits line 0))
    (fun line start stop =>
       match leading_digits line 0 with
       | (a, String " " rest) => (a, fst (leading_digits rest 0))
       | _ => (start, stop)
       end)
    (fun _ _ _ => []).

(** A world at time 0 in which nothing was sent or logged. *)
Definition world_of (rx : list rx_event) : world := mkWorld rx 0 [] [].

(** An object before construction. *)
Definition blank_TinySA : TinySA :=
  mkTinySA EmptyString EmptyString EmptyString TINY_SA [] 0 0 0 0 0 0 0 0 0 []
    false false.

(** A base-model instrument with its channel switched on, sweeping 0 to
    6 MHz with [n] points. *)
Definition example_TinySA (n : Z) : TinySA :=
  mkTinySA "tinySA" "tinySA_v1.4" "tinySA" TINY_SA
    [mkSpectrumChannel "CH1" "#ffff00" 0 true 130 50 []]
    n 0 6000000000 1 600000 128 0 6000000 3000 [] true true.

(** The device answers a six point scan with 10 of the 20 payload bytes and
    then stays quiet past the timeout. *)
Definition short_read_world : world :=
  world_of (script ("scanraw 0 6000000 6" ++ CRLF ++ "{x01x02x03")
            ++ [Quiet 6]).

(** A complete two point scan: values 0x0201 and 0x0403. *)
Definition good_payload : list ascii :=
  ["{"; "x"; "001"; "002"; "x"; "003"; "004"; "}"]%char.

Definition good_scan_world : world :=
  mkWorld (script ("scanraw 0 6000000 2" ++ CRLF) ++ map Rx good_payload
           ++ script "ch> ") (1700000000.25) [] [].

(** The same two values inside wrong markers: "[", "y", "z", "]". *)
Definition bad_marker_payload : list ascii :=
  ["["; "y"; "001"; "002"; "z"; "003"; "004"; "]"]%char.

Definition bad_marker_world : world :=
  world_of (script ("scanraw 0 6000000 2" ++ CRLF) ++ map Rx bad_marker_payload
            ++ script "ch> ").

(** A complete two point scan followed by a footer that never shows the
    prompt: the response budget runs out in the footer phase. *)
Definition long_footer_world : world :=
  world_of (script ("scanraw 0 6000000 2" ++ CRLF) ++ map Rx good_payload
            ++ repeat (Rx "z") 60).

(** The device echoes the command and then hangs, before any line end. *)
Definition hung_after_echo_world : world :=
  world_of (script "version").

(** The first line is not the echo of the command. *)
Definition weird_response_world : world :=
  world_of (script ("weird response" ++ CRLF ++ "tinySA4_v1.4-143" ++ CRLF
                    ++ "ch> ")).

(** The device accepts an rbw and then reports another: it has settled on
    300 kHz. *)
Definition rbw_adjusted_world : world :=
  world_of (script ("rbw 600.000000" ++ CRLF ++ "ch> ")
            ++ script ("rbw" ++ CRLF ++ "usage: rbw 0.2..850|auto" ++ CRLF
                       ++ "300kHz" ++ CRLF ++ "ch> ")).

(** The device answers the four questions of the constructor: version, info,
    sweep and rbw. *)
Definition boot_world : world :=
  world_of (script ("version" ++ CRLF ++ "tinySA_v1.4-143-g864bb27" ++ CRLF
                    ++ "HW Version:V0.3" ++ CRLF ++ "ch> ")
            ++ script ("info" ++ CRLF ++ "tinySA v0.3" ++ CRLF ++ "ch> ")
            ++ script ("sweep" ++ CRLF ++ "0 350000000 450" ++ CRLF ++ "ch> ")
            ++ script ("rbw" ++ CRLF ++ "usage: rbw 0.3..600|auto" ++ CRLF
                       ++ "600kHz" ++ CRLF ++ "ch> ")).

(** The device answers "version" with one line end and then sends a run of
    letters without ever showing the prompt. *)
Definition long_line_world : world :=
  world_of (script ("version" ++ CRLF) ++ repeat (Rx "a") 70).

(** The device answers a scan with a header that never ends: the response
    budget runs out in the header phase. *)
Definition long_header_world : world :=
  world_of (repeat (Rx "h") 70).

(** The device answers "version" in full and has more to say afterwards. *)
Definition version_world : world :=
  world_of (script ("version" ++ CRLF ++ "tinySA_v1.4" ++ CRLF ++ "ch> ")
            ++ script "more").

(** The device never answers: three quiet polls, the last after the
    timeout. *)
Definition silent_world : world :=
  world_of [Quiet 1; Quiet 3; Quiet 6].

(** The device sends four bytes of its answer and then stalls: quiet polls
    at 1, 3, 6 and 7 seconds. *)
Definition stalled_world : world :=
  world_of (script "vers" ++ map Quiet [1%Q; 3%Q; 6%Q; 7%Q]).

(** The device answers a query of the rbw: usage, an empty line, the
    value. *)
Definition rbw_query_world : world :=
  world_of (script ("rbw" ++ CRLF ++ "usage: rbw 0.2..850|auto" ++ CRLF
                    ++ CRLF ++ "600kHz" ++ CRLF ++ "ch> ")).

(** The device accepts a sweep start and rejects the sweep stop. *)
Definition stop_rejected_world : world :=
  world_of (script ("sweep start 1000" ++ CRLF ++ "ch> ")
            ++ script ("sweep stop 99" ++ CRLF ++ "bad value" ++ CRLF ++ "ch> ")
            ++ script ("sweep" ++ CRLF ++ "1000 5000 450" ++ CRLF ++ "ch> ")).

(** A base-model instrument sweeping an odd span: 0 to 5 Hz. *)
Definition odd_span_TinySA : TinySA := set_sweep 0 5 (example_TinySA 2).

(** The device answers a scan of no points: the two brackets alone. *)
Definition empty_scan_world : world :=
  world_of (script ("scanraw 0 6000000 0" ++ CRLF ++ "{}" ++ "ch> ")).

(** A two point scan whose payload arrives in two bursts, five bytes and
    three bytes, with a quiet poll after each. *)
Definition split_scan_world : world :=
  world_of (script ("scanraw 0 6000000 2" ++ CRLF)
            ++ map Rx ["{"; "x"; "001"; "002"; "x"]%char ++ Quiet 1
            :: map Rx ["003"; "004"; "}"]%char ++ Quiet 2 :: script "ch> ").

(** The same scan, the second burst followed by the prompt at once. *)
Definition late_rest_world : world :=
  world_of (script ("scanraw 0 6000000 2" ++ CRLF)
            ++ map Rx ["{"; "x"; "001"; "002"; "x"]%char ++ Quiet 1
            :: map Rx ["003"; "004"; "}"]%char ++ script "ch> ").

(** A complete two point scan read at 1700000000 + 295227/2^22 s, a
    reading whose fraction times 10^15 is not a double. *)
Definition odd_clock_scan_world : world :=
  mkWorld (script ("scanraw 0 6000000 2" ++ CRLF) ++ map Rx good_payload
           ++ script "ch> ")
          ((1700000000 * 2 ^ 22 + 295227) # 2 ^ 22) [] [].

(** A base-model instrument whose sweep is reversed, from 6 MHz down to 0,
    as the device may report it or a negative span may leave it, and a
    complete two point scan of it. *)
Definition reversed_TinySA : TinySA := set_sweep 6000000 0 (example_TinySA 2).

(** The device accepts the sweep that a span of -6 MHz asks for and reports
    it as set. *)
Definition negative_span_world : world :=
  world_of (script ("sweep start 6000000" ++ CRLF ++ "ch> ")
            ++ script ("sweep stop 0" ++ CRLF ++ "ch> ")
            ++ script ("sweep" ++ CRLF ++ "6000000 0 450" ++ CRLF ++ "ch> ")).

Definition reversed_scan_world : world :=
  world_of (script ("scanraw 6000000 0 2" ++ CRLF) ++ map Rx good_payload
            ++ script "ch> ").

(* ===================================================================== *)
(** * Properties *)

(** ** Machine integers *)

Lemma size_t_wrap_id (z : Z) : 0 <= z < 2 ^ 64 -> size_t_wrap z = z.
Proof. intros H. unfold size_t_wrap. apply Z.mod_small. exact H. Qed.

Lemma int64_wrap_id (z : Z) : - 2 ^ 63 <= z < 2 ^ 63 -> int64_wrap z = z.
Proof.
  intros H. unfold int64_wrap. rewrite Z.mod_small; lia.
Qed.

(** ** The download-state codes *)

Section DownloadStateFacts.

Import OscilloscopeChannel.

(** C4, as the header has it: [GetDownloadState] returns -3, -2, -1 or a
    value in 0..100.  Exactly three codes are negative (-3 no progress UI,
    -2 no download pending, -1 queued) and a caller can tell them from a
    percentage by their sign: a negative result maps back to the state the
    channel is in.  DOWNLOAD_STARTED is 0 and DOWNLOAD_FINISHED is 100, so
    these two are the ends of the percentage range, not negative codes: a
    result of 0 or 100 reads as a percentage, and a caller cannot tell the
    state "started" from 0 percent, nor "finished" from 100 percent. *)
Theorem GetDownloadState_codes (d : download) :
  download_ok d ->
  let v := GetDownloadState d in
  (v = -3 \/ v = -2 \/ v = -1 \/ 0 <= v <= 100)
  /\ (v < 0 <->
        d = InState DOWNLOAD_PROGRESS_DISABLED \/ d = InState DOWNLOAD_NONE
        \/ d = InState DOWNLOAD_WAITING)
  /\ (v < 0 ->
        exists s, d = InState s
                  /\ DownloadState_of_negative v = Some s
                  /\ is_percentage v = false)
  /\ (0 <= v ->
        is_percentage v = true /\ DownloadState_of_negative v = None)
  /\ (forall s,
        DownloadState_value s < 0 <->
        s = DOWNLOAD_PROGRESS_DISABLED \/ s = DOWNLOAD_NONE
        \/ s = DOWNLOAD_WAITING)
  /\ GetDownloadState (InState DOWNLOAD_PROGRESS_DISABLED) = -3
  /\ GetDownloadState (InState DOWNLOAD_NONE) = -2
  /\ GetDownloadState (InState DOWNLOAD_WAITING) = -1
  /\ GetDownloadState (InState DOWNLOAD_STARTED) = 0
  /\ GetDownloadState (Downloaded 0) = 0
  /\ GetDownloadState (InState DOWNLOAD_FINISHED) = 100
  /\ GetDownloadState (Downloaded 100) = 100.
Proof.
  intros Hok v.
  assert (Hneg : forall s,
            DownloadState_value s < 0 <->
            s = DOWNLOAD_PROGRESS_DISABLED \/ s = DOWNLOAD_NONE
            \/ s = DOWNLOAD_WAITING).
  { intros s. destruct s; simpl; split; intros H; try lia; auto;
      destruct H as [H|[H|H]]; discriminate H. }
  split; [|split; [|split; [|split; [|split; [exact Hneg | repeat split]]]]].
  - subst v. destruct d as [s|p]; [destruct s; simpl; lia | simpl in *; lia].
  - subst v. destruct d as [s|p]; simpl in *.
    + rewrite Hneg. split; intros [H|[H|H]];
        try (injection H as ->); try (rewrite H); auto.
    + split; [lia | intros [H|[H|H]]; discriminate H].
  - subst v. destruct d as [s|p]; simpl in *; intros H; [|lia].
    exists s. destruct s; simpl in *; try lia; repeat split.
  - subst v. destruct d as [s|p]; simpl in *; intros H.
    + destruct s; simpl in *; try lia; split; reflexivity.
    + unfold is_percentage, DownloadState_of_negative.
      destruct (Z.leb_spec 0 p), (Z.leb_spec p 100); try lia.
      destruct (Z.eqb_spec p (-3)), (Z.eqb_spec p (-2)), (Z.eqb_spec p (-1));
        try lia.
      split; reflexivity.
Qed.

(** [GetDownloadState_codes] at a channel that is queued, and at one that
    has 42 percent of its waveform. *)
Lemma GetDownloadState_codes_witness :
  download_ok (InState DOWNLOAD_WAITING)
  /\ GetDownloadState (InState DOWNLOAD_WAITING) = -1
  /\ DownloadState_of_negative (GetDownloadState (InState DOWNLOAD_WAITING))
     = Some DOWNLOAD_WAITING
  /\ download_ok (Downloaded 42)
  /\ is_percentage (GetDownloadState (Downloaded 42)) = true.
Proof.
  split; [exact I|]. split; [reflexivity|]. split; [reflexivity|].
  split; [simpl; lia|].
  apply (GetDownloadState_codes (Downloaded 42) ltac:(simpl; lia)).
  simpl. lia.
Defined.

(** C4 as stated fails: "download started" is not a negative code; its value
    is 0, which is also the percentage 0. *)
Lemma DownloadState_started_not_negative :
  ~ (forall s, In s [DOWNLOAD_PROGRESS_DISABLED; DOWNLOAD_NONE;
                     DOWNLOAD_WAITING; DOWNLOAD_STARTED] ->
               DownloadState_value s < 0).
Proof.
  intros H. specialize (H DOWNLOAD_STARTED). simpl in H.
  assert (0 < 0) by (apply H; tauto). lia.
Qed.

End DownloadStateFacts.

(** ** Reference counting *)

Section RefCountFacts.

Import OscilloscopeChannel.

Lemma fresh_channel_inv : refcount_inv fresh_channel.
Proof. unfold refcount_inv, fresh_channel; simpl. split; [lia | reflexivity]. Qed.

Lemma ltb_positive (z : Z) : 0 < z -> (0 <? z) = true.
Proof. intros H. apply Z.ltb_lt. exact H. Qed.

Lemma AddRef_spec (ch : channel) :
  refcount_inv ch -> m_refcount ch + 1 < 2 ^ 64 ->
  refcount_inv (AddRef ch) /\ m_refcount (AddRef ch) = m_refcount ch + 1.
Proof.
  intros [Hr He] Hb. unfold AddRef, refcount_inv.
  destruct (m_refcount ch =? 0) eqn:E; cbn [m_refcount m_enabled Enable];
    rewrite size_t_wrap_id by lia.
  - split; [split; [lia|] | reflexivity].
    rewrite ltb_positive by lia. reflexivity.
  - apply Z.eqb_neq in E. split; [split; [lia|] | reflexivity].
    rewrite He, !ltb_positive by lia. reflexivity.
Qed.

Lemma Release_at_zero (ch : channel) : m_refcount ch = 0 -> Release ch = ch.
Proof. intros H. unfold Release. rewrite H. reflexivity. Qed.

Lemma Release_spec (ch : channel) :
  refcount_inv ch ->
  refcount_inv (Release ch) /\
  m_refcount (Release ch) = Z.max 0 (m_refcount ch - 1).
Proof.
  intros [Hr He]. unfold Release.
  destruct (m_refcount ch =? 0) eqn:E.
  - apply Z.eqb_eq in E. split; [split; assumption | lia].
  - apply Z.eqb_neq in E. cbn [m_refcount m_enabled].
    rewrite size_t_wrap_id by lia.
    destruct (m_refcount ch - 1 =? 0) eqn:E1; unfold refcount_inv;
      cbn [m_refcount m_enabled Disable].
    + apply Z.eqb_eq in E1. rewrite E1.
      split; [split; [lia | reflexivity] | lia].
    + apply Z.eqb_neq in E1. split; [split; [lia|] | lia].
      rewrite He, !ltb_positive by lia. reflexivity.
Qed.

Lemma count_app (c : call) (l1 l2 : list call) :
  count c (l1 ++ l2) = count c l1 + count c l2.
Proof. unfold count. rewrite filter_app, length_app. lia. Qed.

Lemma count_nonneg (c : call) (l : list call) : 0 <= count c l.
Proof. unfold count. lia. Qed.

Lemma count_total (l : list call) :
  count CallAddRef l + count CallRelease l = Z.of_nat (List.length l).
Proof.
  unfold count. induction l as [|c l IH]; [reflexivity|].
  destruct c; cbn [filter call_eqb List.length]; rewrite !Nat2Z.inj_succ; lia.
Qed.

Lemma count_single (c c' : call) :
  count c [c'] = if call_eqb c c' then 1 else 0.
Proof. destruct c, c'; reflexivity. Qed.

Lemma run_snoc (calls : list call) (c : call) (ch : channel) :
  run (calls ++ [c]) ch = do_call (run calls ch) c.
Proof. unfold run. rewrite fold_left_app. reflexivity. Qed.

Lemma length_snoc (calls : list call) (c : call) :
  Z.of_nat (List.length (calls ++ [c])) = Z.of_nat (List.length calls) + 1.
Proof. rewrite length_app. cbn [List.length]. lia. Qed.

(** The count after a sequence: never more than the references taken, never
    fewer than references minus releases, never negative. *)
Lemma run_bounds (calls : list call) :
  Z.of_nat (List.length calls) < 2 ^ 64 ->
  refcount_inv (run calls fresh_channel) /\
  m_refcount (run calls fresh_channel) <= count CallAddRef calls /\
  count CallAddRef calls - count CallRelease calls
    <= m_refcount (run calls fresh_channel).
Proof.
  induction calls as [|c calls IH] using rev_ind; intros Hlen.
  - split; [exact fresh_channel_inv|]. split; reflexivity.
  - rewrite length_snoc in Hlen.
    destruct IH as (Hinv & Hle & Hge); [lia|].
    rewrite run_snoc, !count_app, !count_single.
    pose proof (count_total calls) as Ht.
    pose proof (count_nonneg CallRelease calls) as Hn.
    pose proof (count_nonneg CallAddRef calls) as Hp0.
    pose proof Hinv as [Hrange _].
    destruct c; cbn [do_call call_eqb].
    + destruct (AddRef_spec (run calls fresh_channel) Hinv) as [Hi He]; [lia|].
      split; [exact Hi|]. rewrite He. lia.
    + destruct (Release_spec (run calls fresh_channel) Hinv) as [Hi He].
      split; [exact Hi|]. rewrite He. lia.
Qed.

Lemma never_over_released_prefix (calls : list call) (c : call) :
  never_over_released (calls ++ [c]) -> never_over_released calls.
Proof.
  intros H k. specialize (H (Nat.min k (List.length calls))).
  rewrite firstn_app in H.
  replace (Nat.min k (List.length calls) - List.length calls)%nat with O in H by lia.
  rewrite firstn_O, app_nil_r in H.
  destruct (Nat.le_gt_cases k (List.length calls)) as [Hk|Hk].
  - rewrite Nat.min_l in H by exact Hk. exact H.
  - rewrite Nat.min_r in H by lia. rewrite firstn_all in H.
    rewrite firstn_all2 by lia. exact H.
Qed.

(** When no release is issued at a zero count, the count is the difference
    of the two numbers of calls. *)
Lemma run_exact (calls : list call) :
  Z.of_nat (List.length calls) < 2 ^ 64 ->
  never_over_released calls ->
  m_refcount (run calls fresh_channel)
    = count CallAddRef calls - count CallRelease calls.
Proof.
  induction calls as [|c calls IH] using rev_ind; intros Hlen Hnv.
  - reflexivity.
  - pose proof (never_over_released_prefix _ _ Hnv) as Hp.
    rewrite length_snoc in Hlen.
    specialize (IH ltac:(lia) Hp).
    destruct (run_bounds calls ltac:(lia)) as (Hinv & Hle & _).
    pose proof (count_total calls) as Ht.
    pose proof (count_nonneg CallRelease calls) as Hn.
    pose proof (count_nonneg CallAddRef calls) as Hp0.
    pose proof Hinv as [Hrange _].
    specialize (Hnv (List.length (calls ++ [c]))).
    rewrite firstn_all in Hnv.
    rewrite run_snoc. rewrite !count_app, !count_single in *.
    destruct c; cbn [do_call call_eqb] in *.
    + destruct (AddRef_spec _ Hinv) as [_ He]; [lia|].
      rewrite He, IH. lia.
    + destruct (Release_spec _ Hinv) as [_ He]. rewrite He, IH. lia.
Qed.

Lemma count_cons (c c' : call) (l : list call) :
  count c (c' :: l) = (if call_eqb c c' then 1 else 0) + count c l.
Proof. change (c' :: l) with ([c'] ++ l). rewrite count_app, count_single. reflexivity. Qed.

(** From any channel that satisfies the invariant, the count after a
    sequence is the count before, plus the AddRef calls, minus the Release
    calls that took effect. *)
Lemma run_effective (calls : list call) :
  forall ch : channel,
    refcount_inv ch ->
    m_refcount ch + Z.of_nat (List.length calls) < 2 ^ 64 ->
    m_refcount (run calls ch)
    = m_refcount ch + count CallAddRef calls
      - effective_releases (m_refcount ch) calls.
Proof.
  induction calls as [|c calls IH]; intros ch Hinv Hlen.
  - cbn [run fold_left effective_releases]. unfold count. cbn. lia.
  - cbn [List.length] in Hlen. rewrite Nat2Z.inj_succ in Hlen.
    change (run (c :: calls) ch) with (run calls (do_call ch c)).
    rewrite !count_cons. destruct c; cbn [do_call call_eqb effective_releases].
    + destruct (AddRef_spec ch Hinv) as [Hi He]; [lia|].
      rewrite (IH (AddRef ch) Hi) by lia. rewrite He. lia.
    + destruct (Release_spec ch Hinv) as [Hi He]. pose proof Hinv as [Hr _].
      rewrite (IH (Release ch) Hi) by lia. rewrite He.
      destruct (m_refcount ch =? 0) eqn:E0.
      * apply Z.eqb_eq in E0. rewrite E0. reflexivity.
      * apply Z.eqb_neq in E0.
        replace (Z.max 0 (m_refcount ch - 1)) with (m_refcount ch - 1) by lia.
        lia.
Qed.

(** C3, as the modelled channel has it: after any sequence of AddRef and
    Release calls on a fresh channel the count is not negative; a Release at
    count zero changes nothing; the count is the number of AddRef calls
    minus the number of Release calls that took effect, and the channel is
    enabled iff the AddRef calls outnumber those Release calls.  When no
    Release was issued at count zero, every Release took effect, and then
    the channel is enabled iff the AddRef calls outnumber the Release
    calls. *)
Theorem refcount_enabled (calls : list call) :
  Z.of_nat (List.length calls) < 2 ^ 64 ->
  let ch := run calls fresh_channel in
  0 <= GetRefCount ch
  /\ (IsEnabled ch = true <-> 0 < GetRefCount ch)
  /\ (GetRefCount ch = 0 -> Release ch = ch)
  /\ GetRefCount ch = count CallAddRef calls - effective_releases 0 calls
  /\ (IsEnabled ch = true <->
      effective_releases 0 calls < count CallAddRef calls)
  /\ (count CallRelease calls < count CallAddRef calls -> IsEnabled ch = true)
  /\ (never_over_released calls ->
        effective_releases 0 calls = count CallRelease calls
        /\ (IsEnabled ch = true <->
            count CallRelease calls < count CallAddRef calls)).
Proof.
  intros Hlen ch. unfold GetRefCount, IsEnabled.
  destruct (run_bounds calls Hlen) as ((Hr & He) & Hle & Hge).
  fold ch in Hr, He, Hle, Hge.
  assert (Hiff : m_enabled ch = true <-> 0 < m_refcount ch).
  { rewrite He. apply Z.ltb_lt. }
  pose proof (run_effective calls fresh_channel fresh_channel_inv) as Heff.
  cbn [m_refcount fresh_channel] in Heff. specialize (Heff ltac:(lia)).
  fold ch in Heff.
  split; [lia|]. split; [exact Hiff|].
  split; [apply Release_at_zero|].
  split; [lia|]. split; [rewrite Hiff; lia|].
  split; [intros Hmore; apply Hiff; lia|].
  intros Hnv. pose proof (run_exact calls Hlen Hnv) as Hx. fold ch in Hx.
  split; [lia|]. rewrite Hiff, Hx. lia.
Qed.

(** [refcount_enabled] at a sequence of three calls in which no release
    comes too early. *)
Lemma refcount_enabled_witness :
  let calls := [CallAddRef; CallAddRef; CallRelease] in
  let ch := run calls fresh_channel in
  0 <= GetRefCount ch
  /\ (IsEnabled ch = true <-> 0 < GetRefCount ch)
  /\ (GetRefCount ch = 0 -> Release ch = ch)
  /\ GetRefCount ch = count CallAddRef calls - effective_releases 0 calls
  /\ (IsEnabled ch = true <->
      effective_releases 0 calls < count CallAddRef calls)
  /\ (count CallRelease calls < count CallAddRef calls -> IsEnabled ch = true)
  /\ (never_over_released calls ->
        effective_releases 0 calls = count CallRelease calls
        /\ (IsEnabled ch = true <->
            count CallRelease calls < count CallAddRef calls)).
Proof.
  apply (refcount_enabled [CallAddRef; CallAddRef; CallRelease]).
  simpl. lia.
Defined.

(** C3 as stated fails: after a Release on the fresh channel (a no-op) and
    one AddRef, the channel is enabled although the AddRef calls do not
    outnumber the Release calls. *)
Lemma refcount_release_first :
  let calls := [CallRelease; CallAddRef] in
  IsEnabled (run calls fresh_channel) = true
  /\ ~ (count CallRelease calls < count CallAddRef calls).
Proof.
  simpl. split; [reflexivity|]. unfold count; simpl. lia.
Qed.

End RefCountFacts.

(** ** The world *)

Lemma append_empty_r (s : string) : (s ++ EmptyString)%string = s.
Proof. induction s as [|c s IH]; simpl; [reflexivity | rewrite IH; reflexivity]. Qed.

Lemma push_char_append (s t : string) (c : ascii) :
  (push_char s c ++ t)%string = (s ++ String c t)%string.
Proof.
  unfold push_char. induction s as [|a s IH]; simpl;
    [reflexivity | rewrite IH; reflexivity].
Qed.

Lemma size_t_wrap_nonneg (z : Z) : 0 <= size_t_wrap z.
Proof. unfold size_t_wrap. apply Z.mod_pos_bound. lia. Qed.

Section WorldFacts.

Variable P : Platform.

Lemma timeout_exit_fields (start : Q) (w : world) :
  w_rx (timeout_exit P start w) = w_rx w
  /\ w_tx (timeout_exit P start w) = w_tx w
  /\ w_log (timeout_exit P start w) = w_log w ++ [LogError_Timeout].
Proof.
  unfold timeout_exit, await_deadline, Log.
  destruct (Qle_bool _ _); cbn; repeat split.
Qed.

Lemma deadline_passed_drained (start : Q) (w : world) :
  w_rx w = [] -> deadline_passed P start w = true.
Proof. intros H. unfold deadline_passed. rewrite H. reflexivity. Qed.

Lemma Log_if_fields (b : bool) (e : log_entry) (w : world) :
  w_rx (Log_if b e w) = w_rx w
  /\ w_tx (Log_if b e w) = w_tx w
  /\ w_clock (Log_if b e w) = w_clock w
  /\ w_log (Log_if b e w) = w_log w ++ (if b then [e] else []).
Proof.
  destruct b; cbn; repeat split. rewrite app_nil_r. reflexivity.
Qed.

(** What a one-byte read does to the world. *)
Lemma ReadRawData_1_spec (w : world) :
  let (got, w') := ReadRawData_1 w in
  w_tx w' = w_tx w /\ w_log w' = w_log w /\
  match got with
  | Some c => w_rx w = Rx c :: w_rx w' /\ w_clock w' = w_clock w
  | None => (w_rx w = [] /\ w' = w) \/ exists now, w_rx w = Quiet now :: w_rx w'
  end.
Proof.
  unfold ReadRawData_1. destruct (w_rx w) as [|[c|now] rx] eqn:E; cbn.
  - repeat split. left. split; reflexivity.
  - repeat split.
  - repeat split. right. exists now. reflexivity.
Qed.

Lemma take_run_spec (n : nat) (rx : list rx_event) :
  let (bs, rest) := take_run n rx in
  rx = map Rx bs ++ rest /\ (List.length bs <= n)%nat
  /\ (bs = [] -> (0 < n)%nat -> match rx with Rx _ :: _ => False | _ => True end).
Proof.
  revert rx. induction n as [|n IH]; intros rx; cbn.
  - split; [reflexivity|]. split; [lia|]. intros _ H. inversion H.
  - destruct rx as [|[c|now] rx]; cbn;
      try (split; [reflexivity|]; split; [lia|]; intros _ _; exact I).
    specialize (IH rx). destruct (take_run n rx) as [bs rest].
    destruct IH as (E & L & _). cbn. rewrite <- E.
    split; [reflexivity|]. split; [lia|]. intros H; discriminate H.
Qed.

(** What a block read does to the world and to the buffer. *)
Lemma ReadRawData_spec (len : Z) (buf : list ascii) (w : world) :
  let '(n, buf', w') := ReadRawData len buf w in
  w_tx w' = w_tx w /\ w_log w' = w_log w
  /\ 0 <= n
  /\ (List.length buf = Z.to_nat len -> List.length buf' = Z.to_nat len)
  /\ (List.length (w_rx w') <= List.length (w_rx w))%nat
  /\ (w_rx w <> [] -> 0 < len ->
      (List.length (w_rx w') < List.length (w_rx w))%nat).
Proof.
  unfold ReadRawData.
  assert (Block : forall l,
    match l with Quiet _ :: _ => False | _ => True end ->
    let '(n, buf', w') :=
      let (bs, rest) := take_run (Z.to_nat len) l in
      (Z.of_nat (List.length bs), bs ++ skipn (List.length bs) buf,
       {| w_rx := rest; w_clock := w_clock w; w_tx := w_tx w;
          w_log := w_log w |}) in
    w_tx w' = w_tx w /\ w_log w' = w_log w /\ 0 <= n
    /\ (List.length buf = Z.to_nat len -> List.length buf' = Z.to_nat len)
    /\ (List.length (w_rx w') <= List.length l)%nat
    /\ (l <> [] -> 0 < len -> (List.length (w_rx w') < List.length l)%nat)).
  { intros l Hl0.
    pose proof (take_run_spec (Z.to_nat len) l) as T.
    destruct (take_run (Z.to_nat len) l) as [bs rest].
    destruct T as (Erx & Hlen & Hne). cbn [w_rx w_tx w_log].
    assert (Hl : List.length l = (List.length bs + List.length rest)%nat).
    { rewrite Erx at 1. rewrite length_app, length_map. reflexivity. }
    split; [reflexivity|]. split; [reflexivity|]. split; [lia|].
    split; [intros Hb; rewrite length_app, length_skipn; lia|].
    split; [lia|]. intros Hnil Hpos.
    destruct bs as [|b bs]; [|cbn [List.length] in Hl; lia].
    exfalso. destruct l as [|[c|now] l]; [congruence| |exact Hl0].
    apply Hne; [reflexivity | lia]. }
  destruct (w_rx w) as [|[c|now] rx] eqn:E.
  - apply (Block []). exact I.
  - apply (Block (Rx c :: rx)). exact I.
  - cbn. repeat split; try lia; try (intros H; exact H).
Qed.

End WorldFacts.

(** ** The line conversation *)

Section LineConversation.

Variable P : Platform.

(** The polling loop of [ConverseString] returns: with fuel beyond the
    length of the script it hands back what it had plus the bytes it
    consumed, sends nothing, and logs at most one error. *)
Lemma ConverseString_loop_spec (fuel : nat) :
  forall (start : Q) (result : string) (bytesRead : Z) (w : world),
    (List.length (w_rx w) < fuel)%nat ->
    exists r w' consumed extra,
      ConverseString_loop P fuel start result bytesRead w = Ret (r, w')
      /\ w_tx w' = w_tx w
      /\ w_rx w = consumed ++ w_rx w'
      /\ r = (result ++ rx_bytes consumed)%string
      /\ w_log w' = w_log w ++ extra
      /\ (extra = [] \/ extra = [LogError_Timeout]
          \/ exists n, extra = [LogError_ResponseTooLong n]).
Proof.
  induction fuel as [|fuel IH]; intros start result bytesRead w Hf; [lia|].
  cbn [ConverseString_loop].
  pose proof (ReadRawData_1_spec w) as R.
  destruct (ReadRawData_1 w) as [[c|] w1].
  - destruct R as (Htx & Hlog & Hrx & _).
    destruct (MAX_RESPONSE_SIZE P <? size_t_wrap (bytesRead + 1)).
    { exists (push_char result c), (Log (LogError_ResponseTooLong
                (size_t_wrap (bytesRead + 1))) w1), [Rx c],
             [LogError_ResponseTooLong (size_t_wrap (bytesRead + 1))].
      cbn. rewrite Htx, Hlog, Hrx. repeat split.
      right. right. eexists. reflexivity. }
    destruct (ends_with (push_char result c) (TRAILER_STRING P)).
    { exists (push_char result c), w1, [Rx c], [].
      cbn. rewrite Htx, Hlog, Hrx, app_nil_r. repeat split.
      left. reflexivity. }
    destruct (IH start (push_char result c) (size_t_wrap (bytesRead + 1)) w1)
      as (r & w' & consumed & extra & E & Etx & Erx & Er & Elog & Ex).
    { rewrite Hrx in Hf. cbn [List.length] in Hf. lia. }
    exists r, w', (Rx c :: consumed), extra. rewrite E.
    split; [reflexivity|]. split; [congruence|].
    split; [rewrite Hrx, Erx; reflexivity|].
    split; [rewrite Er; cbn [rx_bytes]; apply push_char_append|].
    split; [congruence | exact Ex].
  - destruct R as (Htx & Hlog & [[Hnil ->] | [now Hrx]]).
    + rewrite (deadline_passed_drained P start w Hnil).
      destruct (timeout_exit_fields P start w) as (Frx & Ftx & Flog).
      exists result, (timeout_exit P start w), [], [LogError_Timeout].
      split; [reflexivity|]. split; [exact Ftx|].
      split; [rewrite Frx; reflexivity|].
      split; [symmetry; apply append_empty_r|].
      split; [exact Flog | right; left; reflexivity].
    + destruct (deadline_passed P start w1).
      * destruct (timeout_exit_fields P start w1) as (Frx & Ftx & Flog).
        exists result, (timeout_exit P start w1), [Quiet now],
               [LogError_Timeout].
        split; [reflexivity|]. split; [congruence|].
        split; [rewrite Frx, Hrx; reflexivity|].
        split; [symmetry; apply append_empty_r|].
        split; [congruence | right; left; reflexivity].
      * destruct (IH start result bytesRead w1)
          as (r & w' & consumed & extra & E & Etx & Erx & Er & Elog & Ex).
        { rewrite Hrx in Hf. cbn [List.length] in Hf. lia. }
        exists r, w', (Quiet now :: consumed), extra. rewrite E.
        split; [reflexivity|]. split; [congruence|].
        split; [rewrite Hrx, Erx; reflexivity|].
        split; [exact Er|]. split; [congruence | exact Ex].
Qed.

(** [ConverseString] always returns: it sends the command and a line end,
    and hands back exactly the bytes it consumed, whether the prompt was
    seen, the wait timed out or the response was too long. *)
Lemma ConverseString_spec (commandString : string) (w : world) :
  exists r w' consumed extra,
    ConverseString P commandString w = Ret (r, w')
    /\ w_tx w' = w_tx w ++ [(commandString ++ CRLF)%string]
    /\ w_rx w = consumed ++ w_rx w'
    /\ r = rx_bytes consumed
    /\ w_log w' = w_log w ++ extra
    /\ (extra = [] \/ extra = [LogError_Timeout]
        \/ exists n, extra = [LogError_ResponseTooLong n]).
Proof.
  unfold ConverseString.
  destruct (ConverseString_loop_spec
              (S (List.length (w_rx (SendCommand (commandString ++ CRLF) w))))
              (GetTime (SendCommand (commandString ++ CRLF) w)) EmptyString 0
              (SendCommand (commandString ++ CRLF) w))
    as (r & w' & consumed & extra & E & Etx & Erx & Er & Elog & Ex); [lia|].
  exists r, w', consumed, extra. repeat split; assumption.
Qed.

(** A successful [getline] on a good stream leaves a shorter buffer or a
    stream that is no longer good. *)
Lemma split_line_shorter (s line rest : string) :
  split_line s = (line, Some rest) ->
  (String.length rest < String.length s)%nat.
Proof.
  revert line rest. induction s as [|c s IH]; intros line rest H; cbn in H.
  - discriminate H.
  - destruct (Ascii.eqb c LF).
    + injection H as _ <-. cbn. lia.
    + destruct (split_line s) as [l [r|]] eqn:E; [|discriminate H].
      injection H as _ <-. specialize (IH l r eq_refl). cbn. lia.
Qed.

(** The line loop of [ConverseMultiple] returns and touches only the log. *)
Lemma ConverseMultiple_loop_spec (fuel : nat) :
  forall (commandString : string) (ss : stringstream) (curLine : string)
         (firstLine : bool) (readLines : list string) (size : Z) (w : world),
    ((if ss_good ss then String.length (ss_buf ss) + 2 else 1) <= fuel)%nat ->
    exists n lines w',
      ConverseMultiple_loop fuel commandString ss curLine firstLine
        readLines size w = Ret (n, lines, w')
      /\ w_tx w' = w_tx w /\ w_rx w' = w_rx w.
Proof.
  induction fuel as [|fuel IH]; intros cmd ss curLine firstLine readLines size
    w Hf; [destruct (ss_good ss); lia|].
  cbn [ConverseMultiple_loop]. unfold getline.
  destruct (ss_good ss) eqn:G; cbn [negb].
  - destruct (split_line (ss_buf ss)) as [line [rest|]] eqn:E.
    + cbn [negb]. apply split_line_shorter in E.
      assert (Hn : forall fl rl sz w0,
                w_tx w0 = w_tx w -> w_rx w0 = w_rx w ->
                exists n lines w',
                  ConverseMultiple_loop fuel cmd
                    {| ss_buf := rest; ss_good := true |} (RemoveCR line)
                    fl rl sz w0 = Ret (n, lines, w')
                  /\ w_tx w' = w_tx w /\ w_rx w' = w_rx w).
      { intros fl rl sz w0 H1 H2.
        destruct (IH cmd {| ss_buf := rest; ss_good := true |} (RemoveCR line)
                    fl rl sz w0) as (n & lines & w' & E' & T & R).
        { cbn. lia. }
        exists n, lines, w'. split; [exact E'|]. split; congruence. }
      destruct firstLine.
      * apply Hn; apply Log_if_fields.
      * destruct (negb (String.eqb (RemoveCR line) EmptyString));
          apply Hn; reflexivity.
    + destruct (negb (String.eqb line EmptyString)); cbn [negb].
      * assert (Hn : forall fl rl sz w0,
                  w_tx w0 = w_tx w -> w_rx w0 = w_rx w ->
                  exists n lines w',
                    ConverseMultiple_loop fuel cmd
                      {| ss_buf := EmptyString; ss_good := false |}
                      (RemoveCR line) fl rl sz w0 = Ret (n, lines, w')
                    /\ w_tx w' = w_tx w /\ w_rx w' = w_rx w).
        { intros fl rl sz w0 H1 H2.
          destruct (IH cmd {| ss_buf := EmptyString; ss_good := false |}
                      (RemoveCR line) fl rl sz w0)
            as (n & lines & w' & E' & T & R).
          { cbn. lia. }
          exists n, lines, w'. split; [exact E'|]. split; congruence. }
        destruct firstLine.
        -- apply Hn; apply Log_if_fields.
        -- destruct (negb (String.eqb (RemoveCR line) EmptyString));
             apply Hn; reflexivity.
      * exists size, readLines, w. repeat split.
  - exists size, readLines, w. repeat split.
Qed.

(** [ConverseMultiple] always returns and sends its command once. *)
Lemma ConverseMultiple_spec (commandString : string)
  (readLines : list string) (w : world) :
  exists n lines w',
    ConverseMultiple P commandString readLines w = Ret (n, lines, w')
    /\ w_tx w' = w_tx w ++ [(commandString ++ CRLF)%string].
Proof.
  unfold ConverseMultiple.
  destruct (ConverseString_spec commandString w)
    as (r & w1 & consumed & extra & E & Etx & _).
  rewrite E. cbn [bind].
  destruct (ConverseMultiple_loop_spec (String.length r + 2) commandString
              (stringstream_of r) EmptyString true readLines 0 w1)
    as (n & lines & w' & E' & T & _).
  { cbn. lia. }
  exists n, lines, w'. split; [exact E'|]. congruence.
Qed.

(** [ConverseRbwValue(true, value)] always returns; it sends the rbw
    command that carries [value], then the question for the rbw. *)
Lemma ConverseRbwValue_send_spec (value : Z) (w : world) :
  exists v w',
    ConverseRbwValue P true value w = Ret (v, w')
    /\ w_tx w' = w_tx w ++ [rbw_command P value; ("rbw" ++ CRLF)%string].
Proof.
  unfold ConverseRbwValue.
  destruct (ConverseMultiple_spec ("rbw " ++ to_string_kHz P value) [] w)
    as (n1 & l1 & w1 & E1 & T1).
  rewrite E1. cbn [bind].
  match goal with
  | |- context [ConverseMultiple P "rbw" [] ?w0] =>
      destruct (ConverseMultiple_spec "rbw" [] w0) as (n2 & l2 & w2 & E2 & T2)
  end.
  rewrite E2. cbn [bind].
  assert (T : w_tx w2 = w_tx w ++ [rbw_command P value; ("rbw" ++ CRLF)%string]).
  { rewrite T2. destruct (Log_if_fields (1 <? n1)
      (LogWarning_RbwRejected value (nth 0 l1 EmptyString)) w1) as (_ & Tl & _).
    rewrite Tl, T1, <- app_assoc. reflexivity. }
  destruct (n2 <? 2); eexists; eexists; (split; [reflexivity|]); cbn; exact T.
Qed.

(** [ConverseSingle], [ConverseRbwValue] and [ConverseSweep] always
    return. *)
Lemma ConverseSingle_returns (commandString : string) (w : world) :
  exists r w', ConverseSingle P commandString w = Ret (r, w').
Proof.
  unfold ConverseSingle.
  destruct (ConverseString_spec commandString w) as (r & w1 & _ & _ & E & _).
  rewrite E. cbn [bind].
  destruct (getline (stringstream_of r) EmptyString) as [[ss1 r1] ok1].
  destruct (getline ss1 (RemoveCR r1)) as [[ss2 r2] ok2].
  eexists. eexists. reflexivity.
Qed.

Lemma ConverseRbwValue_returns (sendValue : bool) (value : Z) (w : world) :
  exists v w', ConverseRbwValue P sendValue value w = Ret (v, w').
Proof.
  destruct sendValue.
  - destruct (ConverseRbwValue_send_spec value w) as (v & w' & E & _).
    exists v, w'. exact E.
  - unfold ConverseRbwValue. cbn [bind].
    destruct (ConverseMultiple_spec "rbw" [] w) as (n & l & w1 & E & _).
    rewrite E. cbn [bind].
    destruct (n <? 2); eexists; eexists; reflexivity.
Qed.

Lemma ConverseSweep_returns (sweepStart sweepStop : Z) (setValue : bool)
  (w : world) :
  exists changed start stop w',
    ConverseSweep P sweepStart sweepStop setValue w
    = Ret (changed, start, stop, w').
Proof.
  unfold ConverseSweep.
  assert (Last : forall w0,
    exists changed start stop w',
      ('(lines, reply, w) <- ConverseMultiple P "sweep" [] w0 ;;
       if lines <? 1 then
         Ret (false, sweepStart, sweepStop, Log LogWarning_SweepNoLines w)
       else
         let (sweepStart0, sweepStop0) :=
           sscanf_sweep P (nth 0 reply EmptyString) sweepStart sweepStop in
         Ret (setValue &&
              (negb (sweepStart =? sweepStart0)
               || negb (sweepStop =? sweepStop0)),
              sweepStart0, sweepStop0, w))
      = Ret (changed, start, stop, w')).
  { intros w0.
    destruct (ConverseMultiple_spec "sweep" [] w0) as (n & l & w1 & E & _).
    rewrite E. cbn [bind].
    destruct (n <? 1); [eexists; eexists; eexists; eexists; reflexivity|].
    destruct (sscanf_sweep P (nth 0 l EmptyString) sweepStart sweepStop).
    eexists. eexists. eexists. eexists. reflexivity. }
  destruct setValue.
  - destruct (ConverseMultiple_spec ("sweep start " ++ to_string sweepStart)
                [] w) as (n1 & l1 & w1 & E1 & _).
    rewrite E1. cbn [bind].
    match goal with
    | |- context [ConverseMultiple P ?c l1 ?w0] =>
        destruct (ConverseMultiple_spec c l1 w0) as (n2 & l2 & w2 & E2 & _)
    end.
    rewrite E2. cbn [bind]. apply Last.
  - cbn [bind]. apply Last.
Qed.

End LineConversation.

(** ** Single-line answers *)

Section SingleLine.

Variable P : Platform.

Lemma RemoveCR_no_trailing_CR (s r' : string) :
  RemoveCR s <> (r' ++ String CR EmptyString)%string.
Proof.
  revert r'. induction s as [|c s IH]; intros r'; cbn [RemoveCR].
  - destruct r'; discriminate.
  - destruct (RemoveCR s) as [|a r0] eqn:E.
    + destruct (Ascii.eqb c CR) eqn:Ec.
      * destruct r'; discriminate.
      * destruct r' as [|b [|b' r'']]; cbn; try discriminate.
        intros H. injection H as ->. rewrite Ascii.eqb_refl in Ec.
        discriminate Ec.
    + destruct r' as [|b r'']; cbn.
      * discriminate.
      * intros H. injection H as _ H. exact (IH r'' H).
Qed.

(** [RemoveCR], as modelled, strips the trailing carriage returns. *)
Lemma RemoveCR_strips (s : string) : strips_trailing_CR s (RemoveCR s).
Proof.
  split; [|intros r'; apply RemoveCR_no_trailing_CR].
  induction s as [|c s (t & Es & Ht)]; cbn [RemoveCR].
  - exists EmptyString. split; reflexivity.
  - destruct (RemoveCR s) as [|a r0] eqn:E.
    + cbn in Es. destruct (Ascii.eqb c CR) eqn:Ec.
      * exists (String c s). split; [reflexivity|]. cbn [all_CR].
        rewrite Ec, Es. exact Ht.
      * exists t. split; [cbn; rewrite Es; reflexivity | exact Ht].
    + exists t. split; [cbn; rewrite Es at 1; reflexivity | exact Ht].
Qed.

(** When the response has a line feed, [ConverseSingle] returns its second
    line without trailing carriage returns, whether or not the first line
    echoes the command; a first line that differs costs one warning. *)
Lemma ConverseSingle_with_line_end (commandString : string) (w : world) :
  exists response w1,
    ConverseString P commandString w = Ret (response, w1)
    /\ forall line1 rest,
         split_line response = (line1, Some rest) ->
         ConverseSingle P commandString w
         = Ret (RemoveCR (second_line response),
                Log_if (negb (String.eqb (RemoveCR line1) commandString))
                  (LogWarning_UnexpectedResponse (RemoveCR line1) commandString)
                  w1)
         /\ strips_trailing_CR (second_line response)
                                (RemoveCR (second_line response)).
Proof.
  destruct (ConverseString_spec P commandString w)
    as (r & w1 & consumed & extra & E & _).
  exists r, w1. split; [exact E|]. intros line1 rest Hs.
  split; [|apply RemoveCR_strips].
  unfold ConverseSingle. rewrite E. cbn [bind].
  unfold getline, stringstream_of, second_line. cbn [ss_good ss_buf negb].
  rewrite Hs. cbn [ss_good ss_buf negb fst].
  destruct (split_line rest) as [l2 [r2|]]; reflexivity.
Qed.

(** When the response has no line feed, the second [getline] finds the
    stream at its end and leaves the first line in place: [ConverseSingle]
    returns the first line. *)
Lemma ConverseSingle_without_line_end (commandString : string) (w : world) :
  exists response w1,
    ConverseString P commandString w = Ret (response, w1)
    /\ (forall line1,
          split_line response = (line1, None) ->
          ConverseSingle P commandString w
          = Ret (RemoveCR (RemoveCR line1),
                 Log_if (negb (String.eqb (RemoveCR line1) commandString))
                   (LogWarning_UnexpectedResponse (RemoveCR line1)
                      commandString) w1)).
Proof.
  destruct (ConverseString_spec P commandString w)
    as (r & w1 & consumed & extra & E & _).
  exists r, w1. split; [exact E|]. intros line1 Hs.
  unfold ConverseSingle. rewrite E. cbn [bind].
  unfold getline, stringstream_of. cbn [ss_good ss_buf negb].
  rewrite Hs. reflexivity.
Qed.

End SingleLine.

(** The scenario of the specification: the first line is "weird response",
    not the echo; the line after it is returned and a warning is logged. *)
Example ConverseSingle_weird_response :
  exists w',
    ConverseSingle example_platform "version" weird_response_world
    = Ret ("tinySA4_v1.4-143"%string, w')
    /\ w_log w' = [LogWarning_UnexpectedResponse "weird response" "version"].
Proof. eexists. split; vm_compute; reflexivity. Qed.

(** C5 at the failing input: the device echoes "version" and hangs before
    any line end.  The response has no second line (it is empty), yet
    [ConverseSingle] returns "version", the echo, and logs no warning about
    the response, only the timeout. *)
Theorem ConverseSingle_returns_echo_without_line_end :
  exists w',
    ConverseString example_platform "version" hung_after_echo_world
      = Ret ("version"%string, Log LogError_Timeout
                                 (await_deadline example_platform 0
                                    (SendCommand ("version" ++ CRLF)
                                       (world_of []))))
    /\ ConverseSingle example_platform "version" hung_after_echo_world
       = Ret ("version"%string, w')
    /\ w_log w' = [LogError_Timeout]
    /\ second_line "version" = EmptyString
    /\ RemoveCR (second_line "version") <> "version"%string.
Proof.
  eexists. split; [vm_compute; reflexivity|].
  split; [vm_compute; reflexivity|].
  split; [reflexivity|]. split; [reflexivity|]. discriminate.
Qed.

(** ** The constructor's switch *)

Lemma set_limits_channels (a b c d e : Z) (st : TinySA) :
  m_channels (set_limits a b c d e st) = m_channels st.
Proof. reflexivity. Qed.

(** Entering at [case TINY_SA], control runs on into [default], which
    assigns nothing: the switch leaves what the case assigned. *)
Lemma switch_TINY_SA (st : TinySA) :
  (exists a d, arms_from (is_case TINY_SA) model_switch = Some [a; d]
               /\ arm_break a = false
               /\ arm_label d = case_default
               /\ forall s, arm_body d s = s)
  /\ switch TINY_SA model_switch st = own_case TINY_SA st
  /\ switch TINY_SA model_switch st = set_limits 0 6000000000 1 600000 128 st.
Proof.
  split; [|split; reflexivity].
  eexists. eexists. cbn. repeat split.
Qed.

Lemma switch_TINY_SA_ULTRA (st : TinySA) :
  switch TINY_SA_ULTRA model_switch st = own_case TINY_SA_ULTRA st
  /\ switch TINY_SA_ULTRA model_switch st
     = set_limits 0 13000000000 200 850000 174 st.
Proof. split; reflexivity. Qed.

Lemma switch_is_own_case (m : Model) (st : TinySA) :
  switch m model_switch st = own_case m st.
Proof. destruct m; reflexivity. Qed.

Lemma limits_of_model_offset (st : TinySA) :
  limits_of_model st ->
  m_modelDbmOffset st = documented_offset (m_tinySAModel st)
  /\ m_rbwMin st <= m_rbwMax st.
Proof.
  unfold limits_of_model. intros H.
  assert (E1 : m_modelDbmOffset (own_case (m_tinySAModel st) st)
               = m_modelDbmOffset st) by (rewrite H; reflexivity).
  assert (E2 : m_rbwMin (own_case (m_tinySAModel st) st) = m_rbwMin st)
    by (rewrite H; reflexivity).
  assert (E3 : m_rbwMax (own_case (m_tinySAModel st) st) = m_rbwMax st)
    by (rewrite H; reflexivity).
  destruct (m_tinySAModel st); cbn in E1, E2, E3; cbn; split; lia.
Qed.

(** The constructor either gives up (no version answer) and leaves the
    object as it was, or sets the limits of the detected model. *)
Lemma TinySA_ctor_limits (P : Platform) (blank st : TinySA) (w w' : world) :
  TinySA_ctor P blank w = Ret (st, w') ->
  st = blank \/
  (limits_of_model st /\
   (m_channels blank = [] -> exists ch, m_channels st = [ch])).
Proof.
  unfold TinySA_ctor. intros H.
  destruct (ConverseSingle P "version" w) as [[version w1]|f]; cbn [bind] in H;
    [|discriminate H].
  destruct (String.eqb version EmptyString).
  { injection H as <- _. left. reflexivity. }
  destruct (ConverseSingle P "info" w1) as [[model w2]|f]; cbn [bind] in H;
    [|discriminate H].
  match type of H with
  | context [ConverseSweep P ?a ?b false w2] =>
      destruct (ConverseSweep P a b false w2) as [[[[r s1] s2] w3]|f];
        cbn [bind] in H; [|discriminate H]
  end.
  destruct (ConverseRbwValue P false 0 w3) as [[rbw w4]|f]; cbn [bind] in H;
    [|discriminate H].
  injection H as <- _. right.
  unfold limits_of_model, SetChannelOffset, SetChannelVoltageRange, map_channel.
  destruct blank as [? ? ? ? chs ? ? ? ? ? ? ? ? ? ? ? ?].
  destruct (contains model "ULTRA"); destruct chs as [|c0 chs];
    cbn; (split; [reflexivity | intros Hch; try discriminate Hch;
                                eexists; reflexivity]).
Qed.

(** The constructor always returns. *)
Lemma TinySA_ctor_returns (P : Platform) (blank : TinySA) (w : world) :
  exists st w', TinySA_ctor P blank w = Ret (st, w').
Proof.
  unfold TinySA_ctor.
  destruct (ConverseSingle_returns P "version" w) as (version & w1 & E1).
  rewrite E1. cbn [bind].
  destruct (String.eqb version EmptyString);
    [eexists; eexists; reflexivity|].
  destruct (ConverseSingle_returns P "info" w1) as (model & w2 & E2).
  rewrite E2. cbn [bind].
  match goal with
  | |- context [ConverseSweep P ?a ?b false w2] =>
      destruct (ConverseSweep_returns P a b false w2)
        as (r & s1 & s2 & w3 & E3)
  end.
  rewrite E3. cbn [bind].
  destruct (ConverseRbwValue_returns P false 0 w3) as (rbw & w4 & E4).
  rewrite E4. cbn [bind]. eexists. eexists. reflexivity.
Qed.

(** C9, as the constructor has it: [case TINY_SA] has no [break] and control
    falls into [default], but [default] holds no assignment, so nothing is
    overwritten: the constructor returns, and an instrument it has set up as
    model TINY_SA has exactly the limits its own case assigns (frequency 0
    to 6 GHz, rbw 1 to 600000, offset 128). *)
Theorem TINY_SA_limits_after_construction
  (P : Platform) (blank : TinySA) (w : world) :
  exists st w',
    TinySA_ctor P blank w = Ret (st, w')
    /\ (st <> blank ->
        m_tinySAModel st = TINY_SA ->
        st = own_case TINY_SA st
        /\ st = switch TINY_SA model_switch st
        /\ m_freqMin st = 0 /\ m_freqMax st = 6000000000
        /\ m_rbwMin st = 1 /\ m_rbwMax st = 600000
        /\ m_modelDbmOffset st = 128).
Proof.
  destruct (TinySA_ctor_returns P blank w) as (st & w' & Hc).
  exists st, w'. split; [exact Hc|]. intros Hnb Hm.
  destruct (TinySA_ctor_limits P blank st w w' Hc) as [Hb|[Hl _]];
    [contradiction|].
  unfold limits_of_model in Hl. rewrite Hm in Hl.
  rewrite switch_is_own_case, Hl.
  split; [reflexivity|]. split; [reflexivity|].
  rewrite <- Hl. cbn. repeat split.
Qed.

(** [TINY_SA_limits_after_construction] at a device that answers the
    constructor's questions as a base-model tinySA. *)
Lemma TINY_SA_limits_after_construction_witness :
  exists st w',
    TinySA_ctor example_platform blank_TinySA boot_world = Ret (st, w')
    /\ st <> blank_TinySA
    /\ m_tinySAModel st = TINY_SA
    /\ st = own_case TINY_SA st
    /\ m_rbwMin st = 1 /\ m_rbwMax st = 600000.
Proof.
  destruct (TINY_SA_limits_after_construction example_platform blank_TinySA
              boot_world) as (st & w' & E & H).
  exists st, w'.
  assert (Hst : st <> blank_TinySA /\ m_tinySAModel st = TINY_SA).
  { vm_compute in E. injection E as <- _. split; [discriminate | reflexivity]. }
  destruct Hst as [Hnb Hm].
  destruct (H Hnb Hm) as (H1 & _ & _ & _ & H5 & H6 & _).
  repeat split; assumption.
Defined.

(** C9 as stated fails: constructed as model TINY_SA, the instrument's
    limits do not differ from what its own case assigns. *)
Lemma TINY_SA_limits_not_overwritten :
  exists st w',
    TinySA_ctor example_platform blank_TinySA boot_world = Ret (st, w')
    /\ m_tinySAModel st = TINY_SA
    /\ (m_freqMin st, m_freqMax st, m_rbwMin st, m_rbwMax st,
        m_modelDbmOffset st)
       = (m_freqMin (own_case TINY_SA st), m_freqMax (own_case TINY_SA st),
          m_rbwMin (own_case TINY_SA st), m_rbwMax (own_case TINY_SA st),
          m_modelDbmOffset (own_case TINY_SA st))
    /\ m_rbwMin st = 1 /\ m_rbwMax st = 600000.
Proof.
  eexists. eexists. split; [vm_compute; reflexivity|].
  repeat split.
Qed.

(** ** The binary conversation *)

Section BinaryConversation.

Variable P : Platform.

(** The loop of [ConverseBinary] returns, with fuel beyond the length of the
    script.  It sends nothing and keeps the size of the buffer.  If it logs
    that the response was too long, the count it returns is 0 (the budget
    ran out in the header) or at least the requested length (the budget ran
    out in the footer, after the payload). *)
Lemma ConverseBinary_loop_spec (fuel : nat) :
  forall (commandString : string) (len : Z) (start : Q)
         (inHeader inFooter : bool) (result : string)
         (bytesRead dataRead : Z) (data : list ascii) (w : world),
    (List.length (w_rx w)
     + (if inHeader then 1 else if inFooter then 0 else 1) < fuel)%nat ->
    exists read data' w' extra,
      ConverseBinary_loop P fuel commandString len start inHeader inFooter
        result bytesRead dataRead data w = Ret (read, data', w')
      /\ w_tx w' = w_tx w
      /\ (List.length data = Z.to_nat len -> List.length data' = Z.to_nat len)
      /\ w_log w' = w_log w ++ extra
      /\ ((inHeader = true -> dataRead = 0 /\ inFooter = false) ->
          (inHeader = false -> inFooter = true -> len <= dataRead) ->
          forall n, In (LogError_ResponseTooLong n) extra ->
                    read = 0 \/ len <= read).
Proof.
  induction fuel as [|fuel IH];
    intros cmd len start inHeader inFooter result bytesRead dataRead data w Hf;
    [lia|].
  (* one more turn of the loop, from a state reached by logging [pre] *)
  assert (Rec : forall (ih ifo : bool) res br dr d0 w0 pre,
    (List.length (w_rx w0) + (if ih then 1 else if ifo then 0 else 1)
       < fuel)%nat ->
    w_tx w0 = w_tx w ->
    (List.length data = Z.to_nat len -> List.length d0 = Z.to_nat len) ->
    w_log w0 = w_log w ++ pre ->
    (forall n, ~ In (LogError_ResponseTooLong n) pre) ->
    (((inHeader = true -> dataRead = 0 /\ inFooter = false) ->
      (inHeader = false -> inFooter = true -> len <= dataRead) ->
      (ih = true -> dr = 0 /\ ifo = false)
      /\ (ih = false -> ifo = true -> len <= dr))) ->
    exists read data' w' extra,
      ConverseBinary_loop P fuel cmd len start ih ifo res br dr d0 w0
        = Ret (read, data', w')
      /\ w_tx w' = w_tx w
      /\ (List.length data = Z.to_nat len -> List.length data' = Z.to_nat len)
      /\ w_log w' = w_log w ++ extra
      /\ ((inHeader = true -> dataRead = 0 /\ inFooter = false) ->
          (inHeader = false -> inFooter = true -> len <= dataRead) ->
          forall n, In (LogError_ResponseTooLong n) extra ->
                    read = 0 \/ len <= read)).
  { intros ih ifo res br dr d0 w0 pre Hm Htx Hd Hlog Hpre Hinv.
    destruct (IH cmd len start ih ifo res br dr d0 w0 Hm)
      as (read & data' & w' & extra & E & Etx & Ed & Elog & Einv).
    exists read, data', w', (pre ++ extra).
    split; [exact E|]. split; [congruence|].
    split; [intros Hl; apply Ed, Hd, Hl|].
    split; [rewrite Elog, Hlog, app_assoc; reflexivity|].
    intros H1 H2 n Hin. destruct (Hinv H1 H2) as [I1 I2].
    apply (Einv I1 I2 n). apply in_app_or in Hin.
    destruct Hin as [Hin|Hin]; [exfalso; exact (Hpre n Hin) | exact Hin]. }
  (* leaving the loop from a state reached by logging nothing before *)
  assert (Exit : forall read (d0 : list ascii) w0 extra,
    w_tx w0 = w_tx w ->
    (List.length data = Z.to_nat len -> List.length d0 = Z.to_nat len) ->
    w_log w0 = w_log w ++ extra ->
    ((inHeader = true -> dataRead = 0 /\ inFooter = false) ->
     (inHeader = false -> inFooter = true -> len <= dataRead) ->
     forall n, In (LogError_ResponseTooLong n) extra ->
               read = 0 \/ len <= read) ->
    exists read' data' w' extra',
      Ret (read, d0, w0) = Ret (read', data', w')
      /\ w_tx w' = w_tx w
      /\ (List.length data = Z.to_nat len -> List.length data' = Z.to_nat len)
      /\ w_log w' = w_log w ++ extra'
      /\ ((inHeader = true -> dataRead = 0 /\ inFooter = false) ->
          (inHeader = false -> inFooter = true -> len <= dataRead) ->
          forall n, In (LogError_ResponseTooLong n) extra' ->
                    read' = 0 \/ len <= read')).
  { intros read d0 w0 extra H1 H2 H3 H4.
    exists read, d0, w0, extra. repeat split; assumption. }
  cbn [ConverseBinary_loop].
  destruct (inFooter || inHeader) eqn:Ph.
  - (* header or footer *)
    pose proof (ReadRawData_1_spec w) as R.
    destruct (ReadRawData_1 w) as [[c|] w1].
    + destruct R as (Htx & Hlog & Hrx & _).
      assert (Hlen : List.length (w_rx w) = S (List.length (w_rx w1)))
        by (rewrite Hrx; reflexivity).
      destruct (MAX_RESPONSE_SIZE P <? size_t_wrap (bytesRead + 1)).
      { apply (Exit _ _ _ [LogError_ResponseTooLong
                             (size_t_wrap (bytesRead + 1))]);
          [exact Htx | tauto | cbn; rewrite Hlog; reflexivity |].
        intros H1 H2 n _. destruct inHeader.
        - left. apply H1. reflexivity.
        - right. apply H2; [reflexivity|]. destruct inFooter;
            [reflexivity | discriminate Ph]. }
      destruct inHeader.
      * destruct (ends_with (push_char result c) (EOL_STRING P)).
        -- destruct (Log_if_fields
                       (negb (prefix cmd (push_char result c)))
                       (LogWarning_UnexpectedResponse (push_char result c) cmd)
                       w1) as (Lrx & Ltx & _ & Llog).
           eapply Rec.
           ++ rewrite Lrx. destruct inFooter; lia.
           ++ congruence.
           ++ tauto.
           ++ rewrite Llog, Hlog. reflexivity.
           ++ intros n Hin.
              destruct (negb (prefix cmd (push_char result c)));
                cbn in Hin; [destruct Hin as [Hin|[]]; discriminate Hin
                            | exact Hin].
           ++ intros H1 _. destruct (H1 eq_refl) as [_ ->].
              split; [discriminate | discriminate].
        -- apply Rec with (pre := []);
             [lia | exact Htx | tauto | rewrite Hlog, app_nil_r; reflexivity
             | intros n [] | tauto].
      * destruct inFooter; [|discriminate Ph].
        destruct (ends_with (push_char result c) (TRAILER_STRING P)).
        -- apply (Exit _ _ _ []);
             [exact Htx | tauto | rewrite Hlog, app_nil_r; reflexivity
             | intros _ _ n []].
        -- apply Rec with (pre := []);
             [lia | exact Htx | tauto | rewrite Hlog, app_nil_r; reflexivity
             | intros n [] | tauto].
    + destruct R as (Htx & Hlog & [[Hnil ->] | [now Hrx]]).
      * rewrite (deadline_passed_drained P start w Hnil).
        destruct (timeout_exit_fields P start w) as (Frx & Ftx & Flog).
        apply (Exit _ _ _ [LogError_Timeout]);
          [exact Ftx | tauto | exact Flog |].
        intros _ _ n [Hin|[]]. discriminate Hin.
      * assert (Hlen : List.length (w_rx w) = S (List.length (w_rx w1)))
          by (rewrite Hrx; reflexivity).
        destruct (deadline_passed P start w1).
        -- destruct (timeout_exit_fields P start w1) as (Frx & Ftx & Flog).
           apply (Exit _ _ _ [LogError_Timeout]);
             [congruence | tauto | congruence |].
           intros _ _ n [Hin|[]]. discriminate Hin.
        -- apply Rec with (pre := []);
             [destruct inHeader, inFooter; lia | exact Htx | tauto
             | rewrite Hlog, app_nil_r; reflexivity | intros n [] | tauto].
  - (* payload *)
    apply orb_false_iff in Ph. destruct Ph as [-> ->].
    pose proof (ReadRawData_spec len data w) as R.
    destruct (ReadRawData len data w) as [[n data1] w1].
    destruct R as (Htx & Hlog & Hn & Hd & Hle & Hlt).
    destruct (len <=? size_t_wrap (dataRead + n)) eqn:L.
    + apply Z.leb_le in L.
      apply Rec with (pre := []);
        [lia | exact Htx | exact Hd | rewrite Hlog, app_nil_r; reflexivity
        | intros k [] |].
      intros _ _. split; [discriminate | intros _ _; exact L].
    + apply Z.leb_gt in L. pose proof (size_t_wrap_nonneg (dataRead + n)) as Hw.
      destruct (deadline_passed P start w1) eqn:D.
      * destruct (timeout_exit_fields P start w1) as (Frx & Ftx & Flog).
        apply (Exit _ _ _ [LogError_Timeout]);
          [congruence | exact Hd | congruence |].
        intros _ _ k [Hin|[]]. discriminate Hin.
      * assert (Hne : w_rx w <> []).
        { intros Hnil. rewrite Hnil in Hle. cbn in Hle.
          rewrite deadline_passed_drained in D; [discriminate D|].
          destruct (w_rx w1); [reflexivity | cbn in Hle; lia]. }
        specialize (Hlt Hne ltac:(lia)).
        apply Rec with (pre := []);
          [lia | exact Htx | exact Hd | rewrite Hlog, app_nil_r; reflexivity
          | intros k [] |].
        intros _ _. split; discriminate.
Qed.

(** [ConverseBinary] always returns.  It sends the command and a line end;
    the buffer it hands back has the requested size; and if the response
    was too long, the count it returns is 0 or at least the requested
    length. *)
Lemma ConverseBinary_spec (commandString : string) (len : Z) (w : world) :
  exists read data w' extra,
    ConverseBinary P commandString [] len w = Ret (read, data, w')
    /\ w_tx w' = w_tx w ++ [(commandString ++ CRLF)%string]
    /\ List.length data = Z.to_nat len
    /\ w_log w' = w_log w ++ extra
    /\ (forall n, In (LogError_ResponseTooLong n) extra ->
                  read = 0 \/ len <= read).
Proof.
  unfold ConverseBinary.
  destruct (ConverseBinary_loop_spec
              (List.length (w_rx (SendCommand (commandString ++ CRLF) w)) + 2)
              commandString len
              (GetTime (SendCommand (commandString ++ CRLF) w)) true false
              EmptyString 0 0 (resize len [])
              (SendCommand (commandString ++ CRLF) w))
    as (read & data & w' & extra & E & Etx & Ed & Elog & Einv); [lia|].
  exists read, data, w', extra.
  split; [exact E|]. split; [exact Etx|].
  split.
  { apply Ed. unfold resize. rewrite firstn_nil. cbn [app List.length].
    rewrite repeat_length. lia. }
  split; [exact Elog|].
  apply Einv; [intros _; split; reflexivity | discriminate].
Qed.

End BinaryConversation.

(** ** The response budget *)

Lemma string_length_app (s t : string) :
  String.length (s ++ t) = (String.length s + String.length t)%nat.
Proof. induction s as [|c s IH]; cbn; [reflexivity | rewrite IH; reflexivity]. Qed.

Lemma push_char_length (s : string) (c : ascii) :
  String.length (push_char s c) = S (String.length s).
Proof. unfold push_char. rewrite string_length_app. cbn. lia. Qed.

Lemma rx_bytes_app (a b : list rx_event) :
  rx_bytes (a ++ b) = (rx_bytes a ++ rx_bytes b)%string.
Proof.
  induction a as [|[c|now] a IH]; cbn; [reflexivity | rewrite IH; reflexivity
                                       | exact IH].
Qed.

Lemma rx_bytes_length_le (l : list rx_event) :
  (String.length (rx_bytes l) <= List.length l)%nat.
Proof. induction l as [|[c|now] l IH]; cbn; lia. Qed.

Lemma rx_bytes_single (c : ascii) :
  Z.of_nat (String.length (rx_bytes [Rx c])) = 1.
Proof. reflexivity. Qed.

Lemma rx_bytes_map_Rx (bs : list ascii) :
  String.length (rx_bytes (map Rx bs)) = List.length bs.
Proof. induction bs as [|b bs IH]; cbn; [reflexivity | rewrite IH; reflexivity]. Qed.

(** The events a block read consumes hold exactly the bytes it counts. *)
Lemma ReadRawData_consumed (len : Z) (buf : list ascii) (w : world) :
  let '(n, buf', w') := ReadRawData len buf w in
  exists consumed,
    w_rx w = consumed ++ w_rx w'
    /\ Z.of_nat (String.length (rx_bytes consumed)) = n.
Proof.
  unfold ReadRawData.
  assert (Block : forall l,
    w_rx w = l ->
    let '(n, buf', w') :=
      let (bs, rest) := take_run (Z.to_nat len) l in
      (Z.of_nat (List.length bs), bs ++ skipn (List.length bs) buf,
       {| w_rx := rest; w_clock := w_clock w; w_tx := w_tx w;
          w_log := w_log w |}) in
    exists consumed,
      l = consumed ++ w_rx w'
      /\ Z.of_nat (String.length (rx_bytes consumed)) = n).
  { intros l _. pose proof (take_run_spec (Z.to_nat len) l) as T.
    destruct (take_run (Z.to_nat len) l) as [bs rest].
    destruct T as (Erx & _). exists (map Rx bs). cbn [w_rx].
    split; [exact Erx | rewrite rx_bytes_map_Rx; reflexivity]. }
  destruct (w_rx w) as [|[c|now] rx] eqn:E.
  - apply (Block []). reflexivity.
  - apply (Block (Rx c :: rx)). reflexivity.
  - exists [Quiet now]. split; reflexivity.
Qed.

Section Budget.

Variable P : Platform.

Hypothesis budget_range : 0 <= MAX_RESPONSE_SIZE P < 2 ^ 64 - 1.

(** The line conversation never accumulates more than the budget plus one
    byte; it accumulates that much exactly when it logs that the response
    was too long, and then it stops. *)
Lemma ConverseString_loop_budget (fuel : nat) :
  forall (start : Q) (result : string) (bytesRead : Z) (w : world)
         (r : string) (w' : world),
    bytesRead = Z.of_nat (String.length result) ->
    bytesRead <= MAX_RESPONSE_SIZE P ->
    ConverseString_loop P fuel start result bytesRead w = Ret (r, w') ->
    exists extra,
      w_log w' = w_log w ++ extra
      /\ ((Z.of_nat (String.length r) <= MAX_RESPONSE_SIZE P
           /\ (extra = [] \/ extra = [LogError_Timeout]))
          \/ (Z.of_nat (String.length r) = MAX_RESPONSE_SIZE P + 1
              /\ extra = [LogError_ResponseTooLong (MAX_RESPONSE_SIZE P + 1)])).
Proof.
  induction fuel as [|fuel IH]; intros start result bytesRead w r w' Hb Hle H;
    [discriminate H|].
  cbn [ConverseString_loop] in H.
  pose proof (ReadRawData_1_spec w) as R.
  destruct (ReadRawData_1 w) as [[c|] w1].
  - destruct R as (_ & Hlog & _).
    rewrite size_t_wrap_id in H by lia.
    pose proof (push_char_length result c) as Hpl.
    destruct (MAX_RESPONSE_SIZE P <? bytesRead + 1) eqn:M.
    + apply Z.ltb_lt in M. injection H as <- <-.
      assert (Hmax : bytesRead + 1 = MAX_RESPONSE_SIZE P + 1) by lia.
      rewrite Hmax. eexists. cbn [w_log Log]. rewrite Hlog.
      split; [reflexivity|]. right. split; [lia | reflexivity].
    + apply Z.ltb_ge in M.
      destruct (ends_with (push_char result c) (TRAILER_STRING P)).
      * injection H as <- <-. exists []. rewrite Hlog, app_nil_r.
        split; [reflexivity|]. left. split; [lia | left; reflexivity].
      * destruct (IH start (push_char result c) (bytesRead + 1) w1 r w')
          as (extra & Elog & Ex); [lia | lia | exact H |].
        exists extra. split; [congruence | exact Ex].
  - destruct R as (_ & Hlog & HR).
    assert (Hexit : forall w0, w_log w0 = w_log w ->
      Ret (result, timeout_exit P start w0) = Ret (r, w') ->
      exists extra,
        w_log w' = w_log w ++ extra
        /\ ((Z.of_nat (String.length r) <= MAX_RESPONSE_SIZE P
             /\ (extra = [] \/ extra = [LogError_Timeout]))
            \/ (Z.of_nat (String.length r) = MAX_RESPONSE_SIZE P + 1
                /\ extra
                   = [LogError_ResponseTooLong (MAX_RESPONSE_SIZE P + 1)]))).
    { intros w0 Hw0 Heq. injection Heq as <- <-.
      destruct (timeout_exit_fields P start w0) as (_ & _ & Flog).
      exists [LogError_Timeout]. split; [congruence|].
      left. split; [lia | right; reflexivity]. }
    destruct (deadline_passed P start w1).
    + apply (Hexit w1 Hlog H).
    + destruct (IH start result bytesRead w1 r w' Hb Hle H)
        as (extra & Elog & Ex).
      exists extra. split; [congruence | exact Ex].
Qed.

(** The binary conversation: of the bytes it consumes, [read] are payload
    and the others, [hf] of them, header and footer.  It never takes more
    than the budget plus one byte of header and footer; it takes that many
    exactly when it logs that the response was too long, and then it stops
    with the payload count it has: 0 in the header, at least the requested
    length in the footer. *)
Lemma ConverseBinary_loop_budget (fuel : nat) :
  forall (commandString : string) (len : Z) (start : Q)
         (inHeader inFooter : bool) (result : string)
         (bytesRead dataRead : Z) (data : list ascii) (w : world)
         (read : Z) (data' : list ascii) (w' : world),
    0 <= bytesRead <= MAX_RESPONSE_SIZE P ->
    0 <= dataRead ->
    dataRead + Z.of_nat (List.length (w_rx w)) < 2 ^ 64 ->
    (inHeader = true -> dataRead = 0 /\ inFooter = false) ->
    (inHeader = false -> inFooter = true -> len <= dataRead) ->
    ConverseBinary_loop P fuel commandString len start inHeader inFooter
      result bytesRead dataRead data w = Ret (read, data', w') ->
    exists consumed extra hf,
      w_rx w = consumed ++ w_rx w'
      /\ Z.of_nat (String.length (rx_bytes consumed)) = hf + (read - dataRead)
      /\ 0 <= hf
      /\ w_log w' = w_log w ++ extra
      /\ ((bytesRead + hf <= MAX_RESPONSE_SIZE P
           /\ forall n, ~ In (LogError_ResponseTooLong n) extra)
          \/ (bytesRead + hf = MAX_RESPONSE_SIZE P + 1
              /\ In (LogError_ResponseTooLong (MAX_RESPONSE_SIZE P + 1)) extra
              /\ (read = 0 \/ len <= read))).
Proof.
  induction fuel as [|fuel IH];
    intros cmd len start inHeader inFooter result bytesRead dataRead data w
           read data' w' Hbr Hdr Hsz Hph1 Hph2 H; [discriminate H|].
  (* one more turn of the loop, after consuming [c0] and logging [pre] *)
  assert (Rec : forall (ih ifo : bool) res br dr d0 w0 c0 pre,
    ConverseBinary_loop P fuel cmd len start ih ifo res br dr d0 w0
      = Ret (read, data', w') ->
    w_rx w = c0 ++ w_rx w0 ->
    w_log w0 = w_log w ++ pre ->
    (forall n, ~ In (LogError_ResponseTooLong n) pre) ->
    0 <= br <= MAX_RESPONSE_SIZE P ->
    br - bytesRead + (dr - dataRead)
      = Z.of_nat (String.length (rx_bytes c0)) ->
    bytesRead <= br -> dataRead <= dr ->
    (ih = true -> dr = 0 /\ ifo = false) ->
    (ih = false -> ifo = true -> len <= dr) ->
    exists consumed extra hf,
      w_rx w = consumed ++ w_rx w'
      /\ Z.of_nat (String.length (rx_bytes consumed)) = hf + (read - dataRead)
      /\ 0 <= hf
      /\ w_log w' = w_log w ++ extra
      /\ ((bytesRead + hf <= MAX_RESPONSE_SIZE P
           /\ forall n, ~ In (LogError_ResponseTooLong n) extra)
          \/ (bytesRead + hf = MAX_RESPONSE_SIZE P + 1
              /\ In (LogError_ResponseTooLong (MAX_RESPONSE_SIZE P + 1)) extra
              /\ (read = 0 \/ len <= read)))).
  { intros ih ifo res br dr d0 w0 c0 pre Hloop Hrx Hlog Hpre Hbr0 Hcount
           Hbb Hdd Hp1 Hp2.
    assert (Hlen : List.length (w_rx w)
                   = (List.length c0 + List.length (w_rx w0))%nat)
      by (rewrite Hrx, length_app; reflexivity).
    pose proof (rx_bytes_length_le c0) as Hle0.
    destruct (IH cmd len start ih ifo res br dr d0 w0 read data' w')
      as (consumed & extra & hf & Erx & Ecount & Ehf & Elog & Ex);
      [exact Hbr0 | lia | lia | exact Hp1 | exact Hp2 | exact Hloop |].
    exists (c0 ++ consumed), (pre ++ extra), (hf + (br - bytesRead)).
    split; [rewrite Hrx, Erx, app_assoc; reflexivity|].
    split; [rewrite rx_bytes_app, string_length_app; lia|].
    split; [lia|].
    split; [rewrite Elog, Hlog, app_assoc; reflexivity|].
    destruct Ex as [[E1 E2]|(E1 & E2 & E3)].
    - left. split; [lia|]. intros n Hin. apply in_app_or in Hin.
      destruct Hin as [Hin|Hin]; [exact (Hpre n Hin) | exact (E2 n Hin)].
    - right. split; [lia|]. split; [apply in_or_app; right; exact E2|].
      exact E3. }
  cbn [ConverseBinary_loop] in H.
  destruct (inFooter || inHeader) eqn:Ph.
  - (* header or footer *)
    pose proof (ReadRawData_1_spec w) as R.
    destruct (ReadRawData_1 w) as [[c|] w1].
    + destruct R as (_ & Hlog & Hrx & _).
      rewrite size_t_wrap_id in H by lia.
      destruct (MAX_RESPONSE_SIZE P <? bytesRead + 1) eqn:M.
      { apply Z.ltb_lt in M. injection H as <- <- <-.
        exists [Rx c], [LogError_ResponseTooLong (bytesRead + 1)], 1.
        split; [exact Hrx|]. split; [rewrite rx_bytes_single; lia|]. split; [lia|].
        split; [cbn; rewrite Hlog; reflexivity|].
        right. split; [lia|].
        replace (MAX_RESPONSE_SIZE P + 1) with (bytesRead + 1) by lia.
        split; [left; reflexivity|].
        destruct inHeader.
        - left. apply Hph1. reflexivity.
        - right. apply Hph2; [reflexivity|].
          destruct inFooter; [reflexivity | discriminate Ph]. }
      apply Z.ltb_ge in M.
      assert (Hone : bytesRead + 1 - bytesRead + (dataRead - dataRead)
                     = Z.of_nat (String.length (rx_bytes [Rx c])))
        by (rewrite rx_bytes_single; lia).
      destruct inHeader.
      * destruct (ends_with (push_char result c) (EOL_STRING P)).
        -- destruct (Log_if_fields
                       (negb (prefix cmd (push_char result c)))
                       (LogWarning_UnexpectedResponse (push_char result c) cmd)
                       w1) as (Lrx & _ & _ & Llog).
           eapply (Rec _ _ _ _ _ _ _ [Rx c]);
             [exact H | rewrite Lrx; exact Hrx
             | rewrite Llog, Hlog; reflexivity | | lia | exact Hone | lia
             | lia | discriminate |].
           ++ intros n Hin.
              destruct (negb (prefix cmd (push_char result c)));
                cbn in Hin; [destruct Hin as [Hin|[]]; discriminate Hin
                            | exact Hin].
           ++ intros _ Hf. destruct (Hph1 eq_refl) as [_ Hf'].
              rewrite Hf' in Hf. discriminate Hf.
        -- apply (Rec _ _ _ _ _ _ _ [Rx c] [] H Hrx);
             [rewrite Hlog, app_nil_r; reflexivity | intros n []
             | lia | exact Hone | lia | lia | exact Hph1 | exact Hph2].
      * destruct inFooter; [|discriminate Ph].
        destruct (ends_with (push_char result c) (TRAILER_STRING P)).
        -- injection H as <- <- <-.
           exists [Rx c], [], 1.
           split; [exact Hrx|]. split; [rewrite rx_bytes_single; lia|]. split; [lia|].
           split; [rewrite Hlog, app_nil_r; reflexivity|].
           left. split; [lia | intros n []].
        -- apply (Rec _ _ _ _ _ _ _ [Rx c] [] H Hrx);
             [rewrite Hlog, app_nil_r; reflexivity | intros n []
             | lia | exact Hone | lia | lia | exact Hph1 | exact Hph2].
    + destruct R as (_ & Hlog & HR).
      assert (Hexit : forall c0 w0,
        w_rx w = c0 ++ w_rx w0 -> rx_bytes c0 = EmptyString ->
        w_log w0 = w_log w ->
        Ret (dataRead, data, timeout_exit P start w0) = Ret (read, data', w') ->
        exists consumed extra hf,
          w_rx w = consumed ++ w_rx w'
          /\ Z.of_nat (String.length (rx_bytes consumed))
             = hf + (read - dataRead)
          /\ 0 <= hf
          /\ w_log w' = w_log w ++ extra
          /\ ((bytesRead + hf <= MAX_RESPONSE_SIZE P
               /\ forall n, ~ In (LogError_ResponseTooLong n) extra)
              \/ (bytesRead + hf = MAX_RESPONSE_SIZE P + 1
                  /\ In (LogError_ResponseTooLong (MAX_RESPONSE_SIZE P + 1))
                        extra
                  /\ (read = 0 \/ len <= read)))).
      { intros c0 w0 Hrx0 Hb0 Hl0 Heq. injection Heq as <- <- <-.
        destruct (timeout_exit_fields P start w0) as (Frx & _ & Flog).
        exists c0, [LogError_Timeout], 0.
        split; [rewrite Frx; exact Hrx0|].
        split; [rewrite Hb0; cbn [String.length]; lia|].
        split; [lia|]. split; [congruence|].
        left. split; [lia|]. intros n [Hin|[]]. discriminate Hin. }
      destruct HR as [[Hnil ->] | [now Hrx]].
      * rewrite (deadline_passed_drained P start w Hnil) in H.
        apply (Hexit [] w); [reflexivity | reflexivity | reflexivity | exact H].
      * destruct (deadline_passed P start w1).
        -- apply (Hexit [Quiet now] w1);
             [exact Hrx | reflexivity | exact Hlog | exact H].
        -- apply (Rec _ _ _ _ _ _ _ [Quiet now] [] H Hrx);
             [rewrite Hlog, app_nil_r; reflexivity | intros n []
             | lia | cbn [rx_bytes String.length]; lia | lia | lia
             | exact Hph1 | exact Hph2].
  - (* payload *)
    apply orb_false_iff in Ph. destruct Ph as [-> ->].
    pose proof (ReadRawData_spec len data w) as R.
    pose proof (ReadRawData_consumed len data w) as C.
    destruct (ReadRawData len data w) as [[n data1] w1].
    destruct R as (_ & Hlog & Hn & _).
    destruct C as (c0 & Hrx & Hc0).
    pose proof (rx_bytes_length_le c0) as Hle0.
    assert (Hlen : List.length (w_rx w)
                   = (List.length c0 + List.length (w_rx w1))%nat)
      by (rewrite Hrx, length_app; reflexivity).
    rewrite size_t_wrap_id in H by lia.
    destruct (len <=? dataRead + n) eqn:L.
    + apply Z.leb_le in L.
      apply (Rec _ _ _ _ _ _ _ c0 [] H Hrx);
        [rewrite Hlog, app_nil_r; reflexivity | intros k []
        | lia | lia | lia | lia | discriminate | intros _ _; exact L].
    + destruct (deadline_passed P start w1).
      * injection H as <- <- <-.
        destruct (timeout_exit_fields P start w1) as (Frx & _ & Flog).
        exists c0, [LogError_Timeout], 0.
        split; [rewrite Frx; exact Hrx|]. split; [lia|]. split; [lia|].
        split; [congruence|].
        left. split; [lia|]. intros k [Hin|[]]. discriminate Hin.
      * apply (Rec _ _ _ _ _ _ _ c0 [] H Hrx);
          [rewrite Hlog, app_nil_r; reflexivity | intros k []
          | lia | lia | lia | lia | discriminate | discriminate].
Qed.

(** [ConverseString] and the budget. *)
Lemma ConverseString_budget (commandString : string) (w : world)
  (r : string) (w' : world) :
  ConverseString P commandString w = Ret (r, w') ->
  exists extra,
    w_log w' = w_log w ++ extra
    /\ ((Z.of_nat (String.length r) <= MAX_RESPONSE_SIZE P
         /\ (extra = [] \/ extra = [LogError_Timeout]))
        \/ (Z.of_nat (String.length r) = MAX_RESPONSE_SIZE P + 1
            /\ extra = [LogError_ResponseTooLong (MAX_RESPONSE_SIZE P + 1)])).
Proof.
  unfold ConverseString. intros H.
  apply ConverseString_loop_budget in H; [exact H | reflexivity | lia].
Qed.

(** [ConverseBinary] and the budget, for a script of fewer than 2^64
    events. *)
Lemma ConverseBinary_budget (commandString : string) (len : Z) (w : world)
  (read : Z) (data : list ascii) (w' : world) :
  Z.of_nat (List.length (w_rx w)) < 2 ^ 64 ->
  ConverseBinary P commandString [] len w = Ret (read, data, w') ->
  exists consumed extra hf,
    w_rx w = consumed ++ w_rx w'
    /\ Z.of_nat (String.length (rx_bytes consumed)) = hf + read
    /\ 0 <= hf
    /\ w_log w' = w_log w ++ extra
    /\ ((hf <= MAX_RESPONSE_SIZE P
         /\ forall n, ~ In (LogError_ResponseTooLong n) extra)
        \/ (hf = MAX_RESPONSE_SIZE P + 1
            /\ In (LogError_ResponseTooLong (MAX_RESPONSE_SIZE P + 1)) extra
            /\ (read = 0 \/ len <= read))).
Proof.
  unfold ConverseBinary. intros Hsz H.
  apply ConverseBinary_loop_budget in H;
    [| lia | lia | cbn [w_rx SendCommand]; lia
     | intros _; split; reflexivity | discriminate].
  destruct H as (consumed & extra & hf & Erx & Ecount & Ehf & Elog & Ex).
  exists consumed, extra, hf. cbn [w_rx w_log SendCommand] in Erx, Elog.
  split; [exact Erx|]. split; [lia|]. split; [exact Ehf|].
  split; [exact Elog|]. destruct Ex as [[E1 E2]|(E1 & E2 & E3)].
  - left. split; [lia | exact E2].
  - right. split; [lia|]. split; assumption.
Qed.

End Budget.

(** ** Vectors *)

Lemma vector_at_in_range {A : Type} (v : list A) (i : Z) (d : A) :
  0 <= i -> (Z.to_nat i < List.length v)%nat ->
  vector_at v i = Ret (nth (Z.to_nat i) v d).
Proof.
  intros H0 Hlt. unfold vector_at.
  destruct (nth_error v (Z.to_nat i)) as [a|] eqn:E.
  - rewrite (nth_error_nth v (Z.to_nat i) d E).
    destruct (i <? 0) eqn:L; [apply Z.ltb_lt in L; lia | reflexivity].
  - apply nth_error_None in E. lia.
Qed.

Lemma vector_set_length {A : Type} (v : list A) (i : nat) (a : A) :
  List.length (vector_set v i a) = List.length v.
Proof.
  revert i. induction v as [|h t IH]; intros [|i]; cbn; try reflexivity.
  rewrite IH. reflexivity.
Qed.

Lemma vector_set_same {A : Type} (v : list A) (i : nat) (a d : A) :
  (i < List.length v)%nat -> nth i (vector_set v i a) d = a.
Proof.
  revert i. induction v as [|h t IH]; intros [|i] H; cbn in *; try lia.
  - reflexivity.
  - apply IH. lia.
Qed.

Lemma vector_set_other {A : Type} (v : list A) (i k : nat) (a d : A) :
  k <> i -> nth k (vector_set v i a) d = nth k v d.
Proof.
  revert i k. induction v as [|h t IH]; intros [|i] [|k] H; cbn;
    try reflexivity; try lia.
  apply IH. lia.
Qed.

(** ** The acquisition *)

Section Acquisition.

Variable P : Platform.

(** The decoding loop over a payload of 3N+2 bytes: it returns; it writes
    the values of the points it visits and leaves the other samples and the
    stamps alone; it logs nothing but warnings about point headers, one for
    each visited point whose header is not "x". *)
Lemma decode_loop_spec (N : Z) (data : list ascii) (offset : Z) :
  3 * N + 2 < 2 ^ 64 ->
  List.length data = Z.to_nat (3 * N + 2) ->
  forall (count : nat) (j : Z) (cap : Waveform) (w : world),
    0 <= j -> j + Z.of_nat count <= N ->
    List.length (m_samples cap) = Z.to_nat N ->
    exists samples w' extra,
      decode_loop count j data offset cap w
      = Ret (mkWaveform (m_timescale cap) (m_triggerPhase cap)
               (m_startTimestamp cap) (m_startFemtoseconds cap) samples, w')
      /\ List.length samples = Z.to_nat N
      /\ (forall k, j <= k < j + Z.of_nat count ->
            nth (Z.to_nat k) samples 0%Q
            = decode_value (payload_byte data (3 + 3 * k))
                           (payload_byte data (2 + 3 * k)) offset)
      /\ (forall k, 0 <= k -> k < j \/ j + Z.of_nat count <= k ->
            nth (Z.to_nat k) samples 0%Q = nth (Z.to_nat k) (m_samples cap) 0%Q)
      /\ w_rx w' = w_rx w /\ w_tx w' = w_tx w /\ w_clock w' = w_clock w
      /\ w_log w' = w_log w ++ extra
      /\ (forall e, In e extra -> exists b, e = LogWarning_InvalidPointHeader b)
      /\ (forall k, j <= k < j + Z.of_nat count ->
            payload_byte data (1 + 3 * k) <> 120 ->
            In (LogWarning_InvalidPointHeader (payload_byte data (1 + 3 * k)))
               extra).
Proof.
  intros Hb Hd. induction count as [|count IH]; intros j cap w Hj Hjn Hs.
  - exists (m_samples cap), w, []. cbn [decode_loop].
    split; [destruct cap; reflexivity|]. split; [exact Hs|].
    split; [intros k Hk; lia|]. split; [reflexivity|].
    split; [reflexivity|]. split; [reflexivity|]. split; [reflexivity|].
    split; [rewrite app_nil_r; reflexivity|].
    split; [intros e []|]. intros k Hk. lia.
  - cbn [decode_loop].
    rewrite !size_t_wrap_id by lia.
    rewrite (vector_at_in_range data (1 + 3 * j) zero) by lia.
    rewrite (vector_at_in_range data (2 + 3 * j) zero) by lia.
    rewrite (vector_at_in_range data (3 + 3 * j) zero) by lia.
    cbn [bind].
    set (data0 := nth (Z.to_nat (1 + 3 * j)) data zero).
    set (value := decode_value _ _ offset).
    set (w1 := Log_if _ _ w).
    destruct (Log_if_fields (negb (Ascii.eqb data0 "x"))
                (LogWarning_InvalidPointHeader (uint8_of data0)) w)
      as (Lrx & Ltx & Lclock & Llog).
    fold w1 in Lrx, Ltx, Lclock, Llog.
    destruct (IH (j + 1)
                (mkWaveform (m_timescale cap) (m_triggerPhase cap)
                   (m_startTimestamp cap) (m_startFemtoseconds cap)
                   (vector_set (m_samples cap) (Z.to_nat j) value)) w1)
      as (samples & w' & extra & E & El & Ein & Eout & Erx & Etx & Eclock
          & Elog & Eonly & Ewarn).
    { lia. } { lia. }
    { cbn [m_samples]. rewrite vector_set_length. exact Hs. }
    cbn [m_timescale m_triggerPhase m_startTimestamp m_startFemtoseconds
         m_samples] in E, Eout.
    exists samples, w',
      ((if negb (Ascii.eqb data0 "x")
        then [LogWarning_InvalidPointHeader (uint8_of data0)] else [])
       ++ extra).
    split; [exact E|]. split; [exact El|].
    split.
    { intros k Hk. destruct (Z.eq_dec k j) as [->|Hne].
      - rewrite Eout by lia. rewrite vector_set_same by lia. reflexivity.
      - apply Ein. lia. }
    split.
    { intros k Hk0 Hk. rewrite Eout by lia.
      apply vector_set_other. lia. }
    split; [congruence|]. split; [congruence|]. split; [congruence|].
    split; [rewrite Elog, Llog, app_assoc; reflexivity|].
    split.
    { intros e Hin. apply in_app_or in Hin. destruct Hin as [Hin|Hin].
      - destruct (negb (Ascii.eqb data0 "x")); [|destruct Hin].
        destruct Hin as [<-|[]]. eexists. reflexivity.
      - apply Eonly, Hin. }
    intros k Hk Hbad. apply in_or_app.
    destruct (Z.eq_dec k j) as [->|Hne].
    + left. unfold payload_byte in Hbad |- *. fold data0 in Hbad |- *.
      destruct (Ascii.eqb data0 "x") eqn:Ex.
      * apply Ascii.eqb_eq in Ex. rewrite Ex in Hbad.
        exfalso. apply Hbad. reflexivity.
      * left. reflexivity.
    + right. apply Ewarn; [lia | exact Hbad].
Qed.

End Acquisition.

Section AcquireDataFacts.

Variable P : Platform.

(** A complete read on a one-channel instrument: [AcquireData] returns true,
    appends one SequenceSet (holding the new waveform if the channel is
    enabled), disarms a one-shot trigger and notifies the download monitor.
    The waveform carries the stamps and the decoded values; the only log
    entries are warnings about markers. *)
Lemma AcquireData_full_read (st : TinySA) (w : world) (N : Z)
  (ch : SpectrumChannel) (data : list ascii) (w1 : world) :
  m_sampleDepth st = N -> 0 < N -> 3 * N + 2 < 2 ^ 64 ->
  m_channels st = [ch] ->
  ConverseBinary P (scanraw_command st) [] (3 * N + 2) w
    = Ret (3 * N + 2, data, w1) ->
  exists samples st' w2 extra,
    let cap :=
      mkWaveform
        (int64_wrap (size_t_wrap (m_sweepStop st - m_sweepStart st) / N))
        (m_sweepStart st) (Qfloor (GetTime w1))
        (truncate (double_mul
                     (double_sub (GetTime w1) (inject_Z (Qfloor (GetTime w1))))
                     (inject_Z FS_PER_SECOND)))
        samples in
    AcquireData P st w = Ret (true, st', Log Notify_ChannelsDownloadFinished w2)
    /\ m_pendingWaveforms st'
       = m_pendingWaveforms st ++ [if ch_enabled ch then [(0, cap)] else []]
    /\ m_triggerArmed st'
       = (if m_triggerOneShot st then false else m_triggerArmed st)
    /\ List.length samples = Z.to_nat N
    /\ (forall k, 0 <= k < N ->
          nth (Z.to_nat k) samples 0%Q
          = decode_value (payload_byte data (3 + 3 * k))
                         (payload_byte data (2 + 3 * k)) (m_modelDbmOffset st))
    /\ w_log w2 = w_log w1 ++ extra
    /\ (payload_byte data 0 <> 123 ->
        In (LogWarning_InvalidOpeningByte (payload_byte data 0)) extra)
    /\ (payload_byte data (3 * N + 1) <> 125 ->
        In (LogWarning_InvalidClosingByte (payload_byte data (3 * N + 1))) extra)
    /\ (forall k, 0 <= k < N -> payload_byte data (1 + 3 * k) <> 120 ->
          In (LogWarning_InvalidPointHeader (payload_byte data (1 + 3 * k)))
             extra)
    /\ (forall e, In e extra ->
          exists b, e = LogWarning_InvalidOpeningByte b
                    \/ e = LogWarning_InvalidClosingByte b
                    \/ e = LogWarning_InvalidPointHeader b).
Proof.
  intros Hn Hpos Hb Hch HCB.
  destruct (ConverseBinary_spec P (scanraw_command st) (3 * N + 2) w)
    as (read' & data' & w' & ex' & E & _ & Hd & _).
  rewrite HCB in E. injection E as <- <- <-.
  unfold AcquireData. rewrite Hn.
  replace (N * 3 + 2) with (3 * N + 2) by lia.
  rewrite (size_t_wrap_id (3 * N + 2)) by lia.
  rewrite HCB. cbn [bind]. rewrite Z.eqb_refl. cbn [negb].
  destruct (N =? 0) eqn:E0; [apply Z.eqb_eq in E0; lia|].
  rewrite (size_t_wrap_id (3 * N + 2 - 1)) by lia.
  rewrite (vector_at_in_range data 0 zero) by lia.
  rewrite (vector_at_in_range data (3 * N + 2 - 1) zero) by lia.
  cbn [bind].
  set (first := nth (Z.to_nat 0) data zero).
  set (last := nth (Z.to_nat (3 * N + 2 - 1)) data zero).
  set (wa := Log_if (negb (Ascii.eqb first "{")) _ w1).
  set (wb := Log_if (negb (Ascii.eqb last "}")) _ wa).
  destruct (Log_if_fields (negb (Ascii.eqb first "{"))
              (LogWarning_InvalidOpeningByte (uint8_of first)) w1)
    as (_ & _ & _ & La). fold wa in La.
  destruct (Log_if_fields (negb (Ascii.eqb last "}"))
              (LogWarning_InvalidClosingByte (uint8_of last)) wa)
    as (_ & _ & _ & Lb). fold wb in Lb.
  match goal with
  | |- context [decode_loop ?c ?j data ?o ?cap0 wb] =>
      destruct (decode_loop_spec N data o Hb Hd c j cap0 wb)
        as (samples & w2 & extra & E & El & Ein & _ & _ & _ & _ & Elog
            & Eonly & Ewarn);
        [lia | lia | cbn [m_samples]; rewrite repeat_length; reflexivity |]
  end.
  cbn [m_timescale m_triggerPhase m_startTimestamp m_startFemtoseconds] in E.
  rewrite E. cbn [bind].
  rewrite Hch. cbn [vector_at nth_error Z.to_nat Z.ltb Z.compare bind].
  eexists samples, _, w2,
    ((if negb (Ascii.eqb first "{")
      then [LogWarning_InvalidOpeningByte (uint8_of first)] else [])
     ++ (if negb (Ascii.eqb last "}")
         then [LogWarning_InvalidClosingByte (uint8_of last)] else [])
     ++ extra).
  cbv zeta.
  assert (Hfill : forall st0,
    m_channels st0 = [ch] ->
    fill_SequenceSet (List.length (m_channels (set_peaks 0
        (FindPeaks P (mkWaveform
           (int64_wrap (size_t_wrap (m_sweepStop st - m_sweepStart st) / N))
           (m_sweepStart st) (Qfloor (GetTime w1))
           (truncate (double_mul
                        (double_sub (GetTime w1)
                           (inject_Z (Qfloor (GetTime w1))))
                        (inject_Z FS_PER_SECOND))) samples) 10 500000) st0)))
      0 (set_peaks 0 (FindPeaks P (mkWaveform
           (int64_wrap (size_t_wrap (m_sweepStop st - m_sweepStart st) / N))
           (m_sweepStart st) (Qfloor (GetTime w1))
           (truncate (double_mul
                        (double_sub (GetTime w1)
                           (inject_Z (Qfloor (GetTime w1))))
                        (inject_Z FS_PER_SECOND))) samples) 10 500000) st0)
      [(0, [mkWaveform
           (int64_wrap (size_t_wrap (m_sweepStop st - m_sweepStart st) / N))
           (m_sweepStart st) (Qfloor (GetTime w1))
           (truncate (double_mul
                        (double_sub (GetTime w1)
                           (inject_Z (Qfloor (GetTime w1))))
                        (inject_Z FS_PER_SECOND))) samples])] 0 []
    = Ret (if ch_enabled ch
           then [(0, mkWaveform
                   (int64_wrap (size_t_wrap (m_sweepStop st - m_sweepStart st) / N))
                   (m_sweepStart st) (Qfloor (GetTime w1))
                   (truncate (double_mul
                                (double_sub (GetTime w1)
                                   (inject_Z (Qfloor (GetTime w1))))
                                (inject_Z FS_PER_SECOND))) samples)]
           else [])).
  { intros st0 H0. unfold set_peaks, map_channel, IsChannelEnabled.
    rewrite H0. cbn. unfold IsChannelEnabled. cbn.
    destruct (ch_enabled ch); reflexivity. }
  rewrite (Hfill st Hch). cbn [bind].
  split; [reflexivity|].
  split.
  { unfold set_peaks, map_channel. rewrite Hch. cbn.
    destruct (m_triggerOneShot st); reflexivity. }
  split.
  { unfold set_peaks, map_channel. rewrite Hch. cbn.
    destruct (m_triggerOneShot st); reflexivity. }
  split; [exact El|].
  split; [intros k Hk; apply Ein; lia|].
  split; [rewrite Elog, Lb, La, <- !app_assoc; reflexivity|].
  assert (Hfirst : payload_byte data 0 = uint8_of first) by reflexivity.
  assert (Hlast : payload_byte data (3 * N + 1) = uint8_of last).
  { unfold payload_byte, last. replace (3 * N + 2 - 1) with (3 * N + 1) by lia.
    reflexivity. }
  split.
  { intros Hbad. apply in_or_app. left.
    destruct (Ascii.eqb first "{") eqn:Ex.
    - apply Ascii.eqb_eq in Ex. rewrite Hfirst, Ex in Hbad.
      exfalso. apply Hbad. reflexivity.
    - rewrite Hfirst. left. reflexivity. }
  split.
  { intros Hbad. apply in_or_app. right. apply in_or_app. left.
    destruct (Ascii.eqb last "}") eqn:Ex.
    - apply Ascii.eqb_eq in Ex. rewrite Hlast, Ex in Hbad.
      exfalso. apply Hbad. reflexivity.
    - rewrite Hlast. left. reflexivity. }
  split.
  { intros k Hk Hbad. apply in_or_app. right. apply in_or_app. right.
    apply Ewarn; [lia | exact Hbad]. }
  intros e Hin. apply in_app_or in Hin. destruct Hin as [Hin|Hin].
  { destruct (negb (Ascii.eqb first "{")); [|destruct Hin].
    destruct Hin as [<-|[]]. eexists. left. reflexivity. }
  apply in_app_or in Hin. destruct Hin as [Hin|Hin].
  { destruct (negb (Ascii.eqb last "}")); [|destruct Hin].
    destruct Hin as [<-|[]]. eexists. right. left. reflexivity. }
  destruct (Eonly e Hin) as [b ->]. eexists. right. right. reflexivity.
Qed.

End AcquireDataFacts.

(** ** Short reads *)

(** A count that differs from the requested length: [AcquireData] logs the
    error and returns false, and the instrument is as it was. *)
Lemma AcquireData_wrong_count
  (P : Platform) (st : TinySA) (w : world) (N read : Z)
  (data : list ascii) (w1 : world) :
  m_sampleDepth st = N -> 0 <= N -> 3 * N + 2 < 2 ^ 64 ->
  ConverseBinary P (scanraw_command st) [] (3 * N + 2) w
    = Ret (read, data, w1) ->
  read <> 3 * N + 2 ->
  AcquireData P st w
  = Ret (false, st, Log (LogError_InvalidByteCount read (3 * N + 2)) w1).
Proof.
  intros Hn H0 Hb HCB Hne. unfold AcquireData. rewrite Hn.
  replace (N * 3 + 2) with (3 * N + 2) by lia.
  rewrite size_t_wrap_id by lia. rewrite HCB. cbn [bind].
  destruct (read =? 3 * N + 2) eqn:E; [apply Z.eqb_eq in E; contradiction|].
  reflexivity.
Qed.

(** C1: for every sample count N, the acquisition asks [ConverseBinary] for
    3N+2 payload bytes and [ConverseBinary] returns a count; if that count
    is anything but 3N+2, [AcquireData] returns false, leaves the instrument
    as it was (no waveform, no SequenceSet) and only logs the error; so an
    acquisition that returns true has read exactly 3N+2 bytes. *)
Theorem AcquireData_short_read_fails
  (P : Platform) (st : TinySA) (w : world) (N : Z) :
  m_sampleDepth st = N -> 0 <= N -> 3 * N + 2 < 2 ^ 64 ->
  exists read data w1,
    ConverseBinary P (scanraw_command st) [] (3 * N + 2) w
      = Ret (read, data, w1)
    /\ (read <> 3 * N + 2 ->
        AcquireData P st w
        = Ret (false, st, Log (LogError_InvalidByteCount read (3 * N + 2)) w1))
    /\ (forall st' w', AcquireData P st w = Ret (true, st', w') ->
                       read = 3 * N + 2).
Proof.
  intros Hn H0 Hb.
  destruct (ConverseBinary_spec P (scanraw_command st) (3 * N + 2) w)
    as (read & data & w1 & extra & HCB & _).
  exists read, data, w1. split; [exact HCB|].
  pose proof (AcquireData_wrong_count P st w N read data w1 Hn H0 Hb HCB)
    as Hfail.
  split; [exact Hfail|].
  intros st' w' Hok. destruct (Z.eq_dec read (3 * N + 2)) as [e|ne];
    [exact e|]. rewrite (Hfail ne) in Hok. discriminate Hok.
Qed.

(** [AcquireData_short_read_fails] at the scenario of the specification:
    10 of 20 payload bytes arrive before the timeout. *)
Lemma AcquireData_short_read_fails_witness :
  exists data w1,
    ConverseBinary example_platform (scanraw_command (example_TinySA 6)) []
      20 short_read_world = Ret (10, data, w1)
    /\ In LogError_Timeout (w_log w1)
    /\ AcquireData example_platform (example_TinySA 6) short_read_world
       = Ret (false, example_TinySA 6,
              Log (LogError_InvalidByteCount 10 20) w1).
Proof.
  assert (HCB : exists data w1,
    ConverseBinary example_platform (scanraw_command (example_TinySA 6)) []
      20 short_read_world = Ret (10, data, w1)
    /\ In LogError_Timeout (w_log w1)).
  { eexists. eexists. split; [vm_compute; reflexivity | left; reflexivity]. }
  destruct HCB as (data & w1 & HCB & Hlog).
  exists data, w1. split; [exact HCB|]. split; [exact Hlog|].
  destruct (AcquireData_short_read_fails example_platform (example_TinySA 6)
              short_read_world 6 eq_refl ltac:(lia) ltac:(lia))
    as (read' & data' & w1' & E & Hfail & _).
  change (3 * 6 + 2) with 20 in E, Hfail.
  rewrite HCB in E. injection E as <- <- <-.
  apply Hfail. discriminate.
Defined.

(** ** Decoded values *)

Lemma uint8_of_range (c : ascii) : 0 <= uint8_of c < 256.
Proof.
  unfold uint8_of. pose proof (N_ascii_bounded c) as H. lia.
Qed.

Lemma decode_value_as_fraction (data2 data1 offset : Z) :
  decode_value data2 data1 offset
  == (data2 * 256 + data1 - 32 * offset) # 32.
Proof.
  unfold decode_value. rewrite Z.shiftl_mul_pow2 by lia.
  change (2 ^ 8) with 256.
  set (n := data2 * 256 + data1 - 32 * offset).
  unfold Qeq, Qminus, Qdiv, Qplus, Qmult, Qinv, Qopp, inject_Z. cbn.
  subst n. lia.
Qed.

(** A decoded value is a multiple of 1/32 whose numerator has fewer than 24
    bits: binary32 holds it, and the operations that lead to it, without
    rounding. *)
Lemma decode_exact_in_float (data2 data1 : ascii) (m : Model) :
  exists k : Z,
    decode_value (uint8_of data2) (uint8_of data1) (documented_offset m)
    == k # 32
    /\ - 2 ^ 24 < k < 2 ^ 24.
Proof.
  exists (uint8_of data2 * 256 + uint8_of data1 - 32 * documented_offset m).
  split; [apply decode_value_as_fraction|].
  pose proof (uint8_of_range data1). pose proof (uint8_of_range data2).
  destruct m; cbn [documented_offset]; lia.
Qed.

(** C2: in every complete acquisition the sample decoded from the payload
    bytes data1 (low, at 2+3j) and data2 (high, at 3+3j) of point j is
    ((data2<<8)+data1)/32 - offset, a function of the bytes and the offset
    alone; the offset is 128 for model TINY_SA and 174 for TINY_SA_ULTRA. *)
Theorem AcquireData_decodes
  (P : Platform) (st : TinySA) (w : world) (N : Z) (ch : SpectrumChannel)
  (data : list ascii) (w1 : world) :
  m_sampleDepth st = N -> 0 < N -> 3 * N + 2 < 2 ^ 64 ->
  m_channels st = [ch] -> ch_enabled ch = true ->
  limits_of_model st ->
  ConverseBinary P (scanraw_command st) [] (3 * N + 2) w
    = Ret (3 * N + 2, data, w1) ->
  exists st' w' cap,
    AcquireData P st w = Ret (true, st', w')
    /\ m_pendingWaveforms st' = m_pendingWaveforms st ++ [[(0, cap)]]
    /\ m_modelDbmOffset st = documented_offset (m_tinySAModel st)
    /\ documented_offset TINY_SA = 128
    /\ documented_offset TINY_SA_ULTRA = 174
    /\ forall j, 0 <= j < N ->
         let data1 := payload_byte data (2 + 3 * j) in
         let data2 := payload_byte data (3 + 3 * j) in
         nth (Z.to_nat j) (m_samples cap) 0%Q
         = decode_value data2 data1 (documented_offset (m_tinySAModel st))
         /\ nth (Z.to_nat j) (m_samples cap) 0%Q
            == inject_Z (data2 * 2 ^ 8 + data1) / inject_Z 32
               - inject_Z (documented_offset (m_tinySAModel st)).
Proof.
  intros Hn Hpos Hb Hch Hen Hlim HCB.
  destruct (AcquireData_full_read P st w N ch data w1 Hn Hpos Hb Hch HCB)
    as (samples & st' & w2 & extra & E & Hp & _ & _ & Hs & _).
  destruct (limits_of_model_offset st Hlim) as [Hoff _].
  rewrite Hen in Hp.
  eexists st', _, _. split; [exact E|]. split; [exact Hp|].
  split; [exact Hoff|]. split; [reflexivity|]. split; [reflexivity|].
  intros j Hj. cbn [m_samples]. rewrite <- Hoff.
  split; [apply Hs, Hj|]. rewrite (Hs j Hj). unfold decode_value.
  rewrite Z.shiftl_mul_pow2 by lia. reflexivity.
Qed.

(** [AcquireData_decodes] at a two point scan of a base-model instrument:
    0x0201 and 0x0403 become 513/32 - 128 and 1027/32 - 128. *)
Lemma AcquireData_decodes_witness :
  exists data w1 st' w' cap,
    ConverseBinary example_platform (scanraw_command (example_TinySA 2)) []
      8 good_scan_world = Ret (8, data, w1)
    /\ AcquireData example_platform (example_TinySA 2) good_scan_world
       = Ret (true, st', w')
    /\ m_pendingWaveforms st' = [[(0, cap)]]
    /\ nth 0 (m_samples cap) 0%Q == (513 # 32) - 128
    /\ nth 1 (m_samples cap) 0%Q == (1027 # 32) - 128.
Proof.
  assert (HCB : exists data w1,
    ConverseBinary example_platform (scanraw_command (example_TinySA 2)) []
      8 good_scan_world = Ret (8, data, w1)
    /\ data = good_payload).
  { eexists. eexists. split; vm_compute; reflexivity. }
  destruct HCB as (data & w1 & HCB & Hdata).
  destruct (AcquireData_decodes example_platform (example_TinySA 2)
              good_scan_world 2 _ data w1 eq_refl ltac:(lia) ltac:(lia)
              eq_refl eq_refl eq_refl HCB)
    as (st' & w' & cap & E & Hp & _ & _ & _ & Hs).
  exists data, w1, st', w', cap.
  split; [exact HCB|]. split; [exact E|]. split; [exact Hp|].
  destruct (Hs 0 ltac:(lia)) as [_ H0].
  destruct (Hs 1 ltac:(lia)) as [_ H1].
  subst data. split.
  - rewrite H0. vm_compute. reflexivity.
  - change (Z.to_nat 1) with 1%nat in H1. rewrite H1. vm_compute. reflexivity.
Defined.

(** ** Markers *)

(** C7: on a complete read the marker checks do not abort anything.
    Whatever the first byte, the last byte and the point headers are,
    [AcquireData] returns true, decodes all N values and publishes the
    waveform; a first byte that is not "{" (123), a last byte that is not
    "}" (125) and each point header that is not "x" (120) is logged as a
    warning, and nothing but such warnings and the final notification is
    logged. *)
Theorem AcquireData_markers_not_fatal
  (P : Platform) (st : TinySA) (w : world) (N : Z) (ch : SpectrumChannel)
  (data : list ascii) (w1 : world) :
  m_sampleDepth st = N -> 0 < N -> 3 * N + 2 < 2 ^ 64 ->
  m_channels st = [ch] -> ch_enabled ch = true ->
  ConverseBinary P (scanraw_command st) [] (3 * N + 2) w
    = Ret (3 * N + 2, data, w1) ->
  exists st' w' cap extra,
    AcquireData P st w = Ret (true, st', w')
    /\ m_pendingWaveforms st' = m_pendingWaveforms st ++ [[(0, cap)]]
    /\ List.length (m_samples cap) = Z.to_nat N
    /\ (forall j, 0 <= j < N ->
          nth (Z.to_nat j) (m_samples cap) 0%Q
          = decode_value (payload_byte data (3 + 3 * j))
                         (payload_byte data (2 + 3 * j)) (m_modelDbmOffset st))
    /\ w_log w' = w_log w1 ++ extra ++ [Notify_ChannelsDownloadFinished]
    /\ (payload_byte data 0 <> 123 ->
        In (LogWarning_InvalidOpeningByte (payload_byte data 0)) extra)
    /\ (payload_byte data (3 * N + 1) <> 125 ->
        In (LogWarning_InvalidClosingByte (payload_byte data (3 * N + 1)))
           extra)
    /\ (forall j, 0 <= j < N -> payload_byte data (1 + 3 * j) <> 120 ->
          In (LogWarning_InvalidPointHeader (payload_byte data (1 + 3 * j)))
             extra)
    /\ (forall e, In e extra ->
          exists b, e = LogWarning_InvalidOpeningByte b
                    \/ e = LogWarning_InvalidClosingByte b
                    \/ e = LogWarning_InvalidPointHeader b).
Proof.
  intros Hn Hpos Hb Hch Hen HCB.
  destruct (AcquireData_full_read P st w N ch data w1 Hn Hpos Hb Hch HCB)
    as (samples & st' & w2 & extra & E & Hp & _ & Hl & Hs & Hlog & Ho & Hc
        & Hh & Honly).
  rewrite Hen in Hp.
  eexists st', _, _, extra. split; [exact E|]. split; [exact Hp|].
  cbn [m_samples]. split; [exact Hl|]. split; [exact Hs|].
  split; [cbn; rewrite Hlog, <- app_assoc; reflexivity|].
  repeat split; assumption.
Qed.

(** [AcquireData_markers_not_fatal] at a two point scan whose brackets and
    point headers are all wrong: four warnings, and the two values are
    published all the same. *)
Lemma AcquireData_markers_not_fatal_witness :
  exists w1 st' w' cap,
    ConverseBinary example_platform (scanraw_command (example_TinySA 2)) []
      8 bad_marker_world = Ret (8, bad_marker_payload, w1)
    /\ AcquireData example_platform (example_TinySA 2) bad_marker_world
       = Ret (true, st', w')
    /\ m_pendingWaveforms st' = [[(0, cap)]]
    /\ List.length (m_samples cap) = 2%nat
    /\ In (LogWarning_InvalidOpeningByte 91) (w_log w')
    /\ In (LogWarning_InvalidClosingByte 93) (w_log w')
    /\ In (LogWarning_InvalidPointHeader 121) (w_log w')
    /\ In (LogWarning_InvalidPointHeader 122) (w_log w').
Proof.
  assert (HCB : exists w1,
    ConverseBinary example_platform (scanraw_command (example_TinySA 2)) []
      8 bad_marker_world = Ret (8, bad_marker_payload, w1)).
  { eexists. vm_compute. reflexivity. }
  destruct HCB as (w1 & HCB).
  destruct (AcquireData_markers_not_fatal example_platform (example_TinySA 2)
              bad_marker_world 2 _ bad_marker_payload w1 eq_refl ltac:(lia)
              ltac:(lia) eq_refl eq_refl HCB)
    as (st' & w' & cap & extra & E & Hp & Hl & _ & Hlog & Ho & Hc & Hh & _).
  exists w1, st', w', cap.
  split; [exact HCB|]. split; [exact E|]. split; [exact Hp|].
  split; [exact Hl|]. rewrite Hlog.
  split; [apply in_or_app; right; apply in_or_app; left; apply Ho;
          vm_compute; discriminate|].
  split; [apply in_or_app; right; apply in_or_app; left; apply Hc;
          vm_compute; discriminate|].
  split; apply in_or_app; right; apply in_or_app; left.
  - apply (Hh 0); [lia | vm_compute; discriminate].
  - apply (Hh 1); [lia | vm_compute; discriminate].
Defined.

(** ** Stamps *)

(** Rounding to the nearest integer moves a number by at most a half. *)
Lemma round_half_even_near (x : Q) :
  (x - (1 # 2) <= inject_Z (round_half_even x) <= x + (1 # 2))%Q.
Proof.
  unfold round_half_even.
  pose proof (Qfloor_le x) as Hlo. pose proof (Qlt_floor x) as Hhi.
  rewrite inject_Z_plus in Hhi. change (inject_Z 1) with 1%Q in Hhi.
  set (f := Qfloor x) in *.
  destruct (Qcompare_spec (x - inject_Z f) (1 # 2)) as [E|E|E].
  - destruct (Z.even f); [|rewrite inject_Z_plus; change (inject_Z 1) with 1%Q];
      lra.
  - lra.
  - rewrite inject_Z_plus. change (inject_Z 1) with 1%Q. lra.
Qed.

(** Powers of two, as rationals. *)
Lemma inject_Z_pos (z : Z) : 0 < z -> (0 < inject_Z z)%Q.
Proof. intros H. change 0%Q with (inject_Z 0). rewrite <- Zlt_Qlt. exact H. Qed.

Lemma pow2_pos (z : Z) : (0 < 2 ^ z)%Q.
Proof. apply Qpower_0_lt. reflexivity. Qed.

Lemma pow2_nonneg_Z (z : Z) : 0 <= z -> (2 ^ z == inject_Z (2 ^ z))%Q.
Proof. intros H. rewrite (Zpower_Qpower 2 z H). reflexivity. Qed.

Lemma pow2_add (a b : Z) : (2 ^ (a + b) == 2 ^ a * 2 ^ b)%Q.
Proof. apply Qpower_plus. discriminate. Qed.

Lemma pow2_sub (a b : Z) : (2 ^ (a - b) == 2 ^ a / 2 ^ b)%Q.
Proof.
  unfold Z.sub. rewrite pow2_add, Qpower_opp. reflexivity.
Qed.

(** [ilog2 q] is the exponent of the binade of [q]. *)
Lemma ilog2_spec (q : Q) :
  (0 < q)%Q -> (2 ^ ilog2 q <= q < 2 ^ (ilog2 q + 1))%Q.
Proof.
  intros Hq. unfold ilog2.
  destruct q as [n d]. cbn [Qnum Qden].
  assert (Hn : 0 < n).
  { unfold Qlt in Hq. cbn in Hq. lia. }
  destruct (Z.log2_spec n Hn) as [Hn1 Hn2].
  destruct (Z.log2_spec (Zpos d) ltac:(lia)) as [Hd1 Hd2].
  pose proof (Z.log2_nonneg n) as Ln. pose proof (Z.log2_nonneg (Zpos d)) as Ld.
  set (ln := Z.log2 n) in *. set (ld := Z.log2 (Zpos d)) in *.
  assert (Hval : (n # d == inject_Z n / inject_Z (Zpos d))%Q)
    by apply Qmake_Qdiv.
  assert (Hdpos : (0 < inject_Z (Zpos d))%Q) by reflexivity.
  assert (Hlow : (2 ^ (ln - ld - 1) <= n # d)%Q).
  { replace (ln - ld - 1) with (ln - (ld + 1)) by lia.
    rewrite pow2_sub, !pow2_nonneg_Z by lia. rewrite Hval.
    apply Qle_shift_div_l; [exact Hdpos|].
    unfold Qdiv. rewrite <- Qmult_assoc, (Qmult_comm (/ _)), Qmult_assoc.
    apply Qle_shift_div_r.
    { apply inject_Z_pos. lia. }
    rewrite <- !inject_Z_mult, <- Zle_Qle. nia. }
  assert (Hhigh : (n # d < 2 ^ (ln - ld + 1))%Q).
  { replace (ln - ld + 1) with ((ln + 1) - ld) by lia.
    rewrite pow2_sub, !pow2_nonneg_Z by lia. rewrite Hval.
    apply Qlt_shift_div_r; [exact Hdpos|].
    unfold Qdiv. rewrite <- Qmult_assoc, (Qmult_comm (/ _)), Qmult_assoc.
    apply Qlt_shift_div_l.
    { apply inject_Z_pos. lia. }
    rewrite <- !inject_Z_mult, <- Zlt_Qlt.
    replace (2 ^ (ln + 1)) with (2 ^ Z.succ ln) in * by (f_equal; lia).
    replace (2 ^ (ld + 1)) with (2 ^ Z.succ ld) in * by (f_equal; lia).
    nia. }
  destruct (Qle_bool (2 ^ (ln - ld)) (n # d)) eqn:E.
  - apply Qle_bool_iff in E. split; [exact E | exact Hhigh].
  - split; [exact Hlow|].
    replace (ln - ld - 1 + 1) with (ln - ld) by lia.
    apply Qnot_le_lt. intros H. apply Qle_bool_iff in H. congruence.
Qed.

(** The significand that [binary64_pos] rounds has 53 bits, and the result
    is within half a unit in the last place of the number, which is at most
    2^-53 of it. *)
Lemma binary64_pos_spec (q : Q) :
  (0 < q)%Q ->
  let e := ilog2 q - 52 in
  (inject_Z (2 ^ 52) <= q / 2 ^ e < inject_Z (2 ^ 53))%Q
  /\ (q - q * (1 # 2 ^ 53) <= binary64_pos q <= q + q * (1 # 2 ^ 53))%Q.
Proof.
  intros Hq e. destruct (ilog2_spec q Hq) as [Hlo Hhi].
  pose proof (pow2_pos e) as He.
  assert (E52 : (2 ^ ilog2 q == 2 ^ e * inject_Z (2 ^ 52))%Q).
  { replace (ilog2 q) with (e + 52) by (unfold e; lia).
    rewrite pow2_add, (pow2_nonneg_Z 52) by lia. reflexivity. }
  assert (E53 : (2 ^ (ilog2 q + 1) == 2 ^ e * inject_Z (2 ^ 53))%Q).
  { replace (ilog2 q + 1) with (e + 53) by (unfold e; lia).
    rewrite pow2_add, (pow2_nonneg_Z 53) by lia. reflexivity. }
  rewrite E52 in Hlo. rewrite E53 in Hhi.
  assert (Hy : (q / 2 ^ e * 2 ^ e == q)%Q).
  { unfold Qdiv. rewrite <- Qmult_assoc, (Qmult_comm (/ _)).
    rewrite Qmult_inv_r by (intros H; rewrite H in He; discriminate He).
    apply Qmult_1_r. }
  split.
  - split.
    + apply Qle_shift_div_l; [exact He|]. rewrite Qmult_comm. exact Hlo.
    + apply Qlt_shift_div_r; [exact He|]. rewrite Qmult_comm. exact Hhi.
  - unfold binary64_pos. fold e.
    pose proof (round_half_even_near (q / 2 ^ e)) as Hr.
    set (y := (q / 2 ^ e)%Q) in *.
    set (m := inject_Z (round_half_even y)) in *.
    set (p := (2 ^ e)%Q) in *.
    change (inject_Z (2 ^ 52)) with (4503599627370496 # 1)%Q in Hlo.
    change (1 # 2 ^ 53)%Q with (1 # 9007199254740992)%Q.
    assert (H1 : ((m - y) * p <= (1 # 2) * p)%Q)
      by (apply Qmult_le_compat_r; lra).
    assert (H2 : ((y - m) * p <= (1 # 2) * p)%Q)
      by (apply Qmult_le_compat_r; lra).
    assert (H3 : ((m - y) * p == m * p - q)%Q) by (rewrite <- Hy; ring).
    assert (H4 : ((y - m) * p == q - m * p)%Q) by (rewrite <- Hy; ring).
    rewrite H3 in H1. rewrite H4 in H2. lra.
Qed.

(** A number that is not negative, rounded to binary64: not negative, and
    within 2^-53 of the number, relatively. *)
Lemma binary64_near (q : Q) :
  (0 <= q)%Q ->
  (q - q * (1 # 2 ^ 53) <= binary64 q <= q + q * (1 # 2 ^ 53))%Q.
Proof.
  intros Hq. unfold binary64. destruct q as [[|n|n] d]; cbn [Qnum].
  - unfold Qle, Qminus, Qplus, Qmult, Qopp. cbn. lia.
  - apply (binary64_pos_spec (Z.pos n # d)). reflexivity.
  - exfalso. unfold Qle in Hq. cbn in Hq. lia.
Qed.

(** A clock reading splits into whole seconds and a count of femtoseconds:
    the part of the reading below one second, times 10^15, both computed in
    double and then cut to an integer.  The count lies between 0 and 10^15
    and is within a femtosecond and a quarter of the exact product. *)
Lemma timestamp_split (tstart : Q) :
  let seconds := Qfloor tstart in
  let fs := truncate (double_mul (double_sub tstart (inject_Z seconds))
                        (inject_Z FS_PER_SECOND)) in
  0 <= fs <= FS_PER_SECOND
  /\ ((tstart - inject_Z seconds) * inject_Z FS_PER_SECOND - (5 # 4)
      < inject_Z fs
      <= (tstart - inject_Z seconds) * inject_Z FS_PER_SECOND + (1 # 4))%Q.
Proof.
  intros seconds fs.
  pose proof (Qfloor_le tstart) as Hlo. pose proof (Qlt_floor tstart) as Hhi.
  fold seconds in Hlo, Hhi. rewrite inject_Z_plus in Hhi.
  change (inject_Z 1) with 1%Q in Hhi.
  unfold double_mul, double_sub in fs.
  set (d := (tstart - inject_Z seconds)%Q) in *.
  assert (Hd : (0 <= d < 1)%Q) by (unfold d; lra).
  pose proof (binary64_near d ltac:(lra)) as H1.
  set (f1 := binary64 d) in *.
  change (inject_Z FS_PER_SECOND) with 1000000000000000%Q in *.
  change (1 # 2 ^ 53)%Q with (1 # 9007199254740992)%Q in H1.
  assert (Hx : (0 <= f1 * 1000000000000000)%Q) by lra.
  pose proof (binary64_near (f1 * 1000000000000000) Hx) as H2.
  change (1 # 2 ^ 53)%Q with (1 # 9007199254740992)%Q in H2.
  set (f2 := binary64 (f1 * 1000000000000000)) in *.
  assert (H0 : (0 <= f2)%Q) by lra.
  assert (Hfs : fs = Qfloor f2).
  { unfold fs, truncate. apply Qle_bool_iff in H0. rewrite H0. reflexivity. }
  pose proof (Qfloor_le f2) as Flo. pose proof (Qlt_floor f2) as Fhi.
  rewrite <- Hfs in Flo, Fhi. rewrite inject_Z_plus in Fhi.
  change (inject_Z 1) with 1%Q in Fhi.
  split; [|lra].
  split.
  - rewrite Hfs. change 0 with (Qfloor 0). apply Qfloor_resp_le. exact H0.
  - assert (Hlt : (inject_Z fs < inject_Z (FS_PER_SECOND + 1))%Q).
    { change (inject_Z (FS_PER_SECOND + 1)) with 1000000000000001%Q. lra. }
    rewrite <- Zlt_Qlt in Hlt. lia.
Qed.

(** The time per point of an ordered sweep: on a difference that is not
    negative the unsigned division is the division. *)
Lemma timescale_ordered (start stop N : Z) :
  start <= stop -> stop - start < 2 ^ 63 -> 0 < N ->
  int64_wrap (size_t_wrap (stop - start) / N) = (stop - start) / N.
Proof.
  intros Hle Hspan Hpos. rewrite size_t_wrap_id by lia. apply int64_wrap_id.
  assert (0 <= (stop - start) / N) by (apply Z.div_pos; lia).
  assert ((stop - start) / N <= stop - start)
    by (apply Z.div_le_upper_bound; nia).
  lia.
Qed.

(** The time per point of a reversed sweep: the negative difference is
    converted to [size_t] before the division, and the quotient of two or
    more points is positive. *)
Lemma timescale_reversed (start stop N : Z) :
  stop < start -> - 2 ^ 63 <= stop - start -> 2 <= N -> N < 2 ^ 63 ->
  int64_wrap (size_t_wrap (stop - start) / N) = (2 ^ 64 + (stop - start)) / N
  /\ 0 < (2 ^ 64 + (stop - start)) / N.
Proof.
  intros Hlt Hlo HN HN'.
  assert (Hw : size_t_wrap (stop - start) = 2 ^ 64 + (stop - start)).
  { unfold size_t_wrap. symmetry.
    apply (Z.mod_unique (stop - start) (2 ^ 64) (-1)); lia. }
  rewrite Hw.
  assert (H1 : 1 <= (2 ^ 64 + (stop - start)) / N)
    by (apply Z.div_le_lower_bound; lia).
  assert (H2 : (2 ^ 64 + (stop - start)) / N < 2 ^ 63)
    by (apply Z.div_lt_upper_bound; lia).
  split; [apply int64_wrap_id; lia | lia].
Qed.

(** X28: the waveform of every complete acquisition of N points carries
    as time per point the sweep width divided by N in the unsigned type of
    N (for an ordered sweep (stop - start)/N; for a reversed sweep and two
    or more points a positive number, 2^64 being added to the negative
    width first), the sweep start as trigger phase, and the clock reading
    taken after the read, split into whole seconds and a count of
    femtoseconds computed in double: between 0 and 10^15, and within a
    femtosecond and a quarter of the exact fraction of the second. *)
Theorem AcquireData_stamps
  (P : Platform) (st : TinySA) (w : world) (N : Z) (ch : SpectrumChannel)
  (data : list ascii) (w1 : world) :
  m_sampleDepth st = N -> 0 < N -> 3 * N + 2 < 2 ^ 64 ->
  m_channels st = [ch] -> ch_enabled ch = true ->
  ConverseBinary P (scanraw_command st) [] (3 * N + 2) w
    = Ret (3 * N + 2, data, w1) ->
  exists st' w' cap,
    AcquireData P st w = Ret (true, st', w')
    /\ m_pendingWaveforms st' = m_pendingWaveforms st ++ [[(0, cap)]]
    /\ m_timescale cap
       = int64_wrap (size_t_wrap (m_sweepStop st - m_sweepStart st) / N)
    /\ (m_sweepStart st <= m_sweepStop st ->
        m_sweepStop st - m_sweepStart st < 2 ^ 63 ->
        m_timescale cap = (m_sweepStop st - m_sweepStart st) / N)
    /\ (m_sweepStop st < m_sweepStart st ->
        - 2 ^ 63 <= m_sweepStop st - m_sweepStart st -> 2 <= N ->
        m_timescale cap
        = (2 ^ 64 + (m_sweepStop st - m_sweepStart st)) / N
        /\ 0 < m_timescale cap)
    /\ m_triggerPhase cap = m_sweepStart st
    /\ m_startTimestamp cap = Qfloor (GetTime w1)
    /\ m_startFemtoseconds cap
       = truncate (double_mul
                     (double_sub (GetTime w1) (inject_Z (Qfloor (GetTime w1))))
                     (inject_Z FS_PER_SECOND))
    /\ 0 <= m_startFemtoseconds cap <= FS_PER_SECOND
    /\ ((GetTime w1 - inject_Z (m_startTimestamp cap))
          * inject_Z FS_PER_SECOND - (5 # 4)
        < inject_Z (m_startFemtoseconds cap)
        <= (GetTime w1 - inject_Z (m_startTimestamp cap))
             * inject_Z FS_PER_SECOND + (1 # 4))%Q.
Proof.
  intros Hn Hpos Hb Hch Hen HCB.
  destruct (AcquireData_full_read P st w N ch data w1 Hn Hpos Hb Hch HCB)
    as (samples & st' & w2 & extra & E & Hp & _).
  rewrite Hen in Hp.
  destruct (timestamp_split (GetTime w1)) as (Hfs & Hacc).
  eexists st', _, _. split; [exact E|]. split; [exact Hp|].
  cbn [m_timescale m_triggerPhase m_startTimestamp m_startFemtoseconds].
  split; [reflexivity|].
  split; [intros Hle Hspan; apply timescale_ordered; assumption|].
  split.
  { intros Hlt Hlo HN.
    destruct (timescale_reversed (m_sweepStart st) (m_sweepStop st) N Hlt Hlo
                HN ltac:(lia)) as [Hq Hq'].
    rewrite Hq. split; [reflexivity | exact Hq']. }
  split; [reflexivity|]. split; [reflexivity|]. split; [reflexivity|].
  split; [exact Hfs | exact Hacc].
Qed.

(** [AcquireData_stamps] at a two point scan from 0 to 6 MHz read at
    1700000000 + 295227/2^22 s: 3 MHz per point, 1700000000 s, and
    70387601852417 fs, the exact product 70387601852416.99 being rounded up
    to a whole number by the multiplication in double. *)
Lemma AcquireData_stamps_witness :
  exists w1 st' w' cap,
    ConverseBinary example_platform (scanraw_command (example_TinySA 2)) []
      8 odd_clock_scan_world = Ret (8, good_payload, w1)
    /\ AcquireData example_platform (example_TinySA 2) odd_clock_scan_world
       = Ret (true, st', w')
    /\ m_pendingWaveforms st' = [[(0, cap)]]
    /\ m_timescale cap = 3000000
    /\ m_triggerPhase cap = 0
    /\ m_startTimestamp cap = 1700000000
    /\ m_startFemtoseconds cap = 70387601852417.
Proof.
  assert (HCB : exists w1,
    ConverseBinary example_platform (scanraw_command (example_TinySA 2)) []
      8 odd_clock_scan_world = Ret (8, good_payload, w1)
    /\ GetTime w1 = ((1700000000 * 2 ^ 22 + 295227) # 2 ^ 22)%Q).
  { eexists. split; vm_compute; reflexivity. }
  destruct HCB as (w1 & HCB & Ht).
  destruct (AcquireData_stamps example_platform (example_TinySA 2)
              odd_clock_scan_world 2 _ good_payload w1 eq_refl ltac:(lia)
              ltac:(lia) eq_refl eq_refl HCB)
    as (st' & w' & cap & E & Hp & _ & Hts & _ & Htp & Hst & Hfs & _).
  exists w1, st', w', cap.
  split; [exact HCB|]. split; [exact E|]. split; [exact Hp|].
  split; [rewrite Hts; [reflexivity | cbn; lia | cbn; lia]|].
  split; [exact Htp|].
  split; [rewrite Hst, Ht; reflexivity|].
  rewrite Hfs, Ht. vm_compute. reflexivity.
Defined.

(** C8 fails on a reversed sweep.  [SetSpan] with a span of -6 MHz, on a
    device that takes the request as it is, leaves the sweep running from
    6 MHz down to 0.  A complete acquisition of two points then succeeds;
    the claim has (0 - 6000000)/2 = -3000000 as the time per point; the
    code converts the negative width to [size_t] before it divides and
    stamps the waveform with 9223372036851775808. *)
Theorem AcquireData_timescale_reversed_sweep :
  (exists w0,
     SetSpan example_platform (-6000000) (example_TinySA 2) negative_span_world
     = Ret (reversed_TinySA, w0)
     /\ w_log w0 = [])
  /\ exists st' w' cap,
       AcquireData example_platform reversed_TinySA reversed_scan_world
       = Ret (true, st', w')
       /\ m_pendingWaveforms st' = [[(0, cap)]]
       /\ m_sweepStart reversed_TinySA = 6000000
       /\ m_sweepStop reversed_TinySA = 0
       /\ m_sampleDepth reversed_TinySA = 2
       /\ Z.quot (m_sweepStop reversed_TinySA - m_sweepStart reversed_TinySA)
            (m_sampleDepth reversed_TinySA) = -3000000
       /\ m_timescale cap = 9223372036851775808.
Proof.
  split.
  - eexists. split; [vm_compute; reflexivity | reflexivity].
  - eexists _, _, _. split; [vm_compute; reflexivity|].
    repeat split.
Qed.

(** ** Responses beyond the budget *)

(** C6, as the conversations have it: a conversation never takes more than
    MAX_RESPONSE_SIZE + 1 bytes of text (line) or of header and footer
    (binary); when it takes that many, it stops reading and logs that the
    response was too long, just as it stops and logs on a timeout, and it
    returns what it has, for there is no failure value.  The line
    conversation returns the text it has read.  The binary conversation
    returns the number of payload bytes read: 0 if the budget ran out in the
    header, at least the requested length if it ran out in the footer.
    [AcquireData] looks at that count only, not at the error: it goes on
    with a count equal to the requested length and fails on every other
    count, 0 as well as a count beyond the length. *)
Theorem response_too_long_returns_what_was_read
  (P : Platform) (commandString : string) (w : world) :
  0 <= MAX_RESPONSE_SIZE P < 2 ^ 64 - 1 ->
  Z.of_nat (List.length (w_rx w)) < 2 ^ 64 ->
  (exists r w' consumed extra,
     ConverseString P commandString w = Ret (r, w')
     /\ w_rx w = consumed ++ w_rx w'
     /\ r = rx_bytes consumed
     /\ w_log w' = w_log w ++ extra
     /\ ((Z.of_nat (String.length r) <= MAX_RESPONSE_SIZE P
          /\ (extra = [] \/ extra = [LogError_Timeout]))
         \/ (Z.of_nat (String.length r) = MAX_RESPONSE_SIZE P + 1
             /\ extra
                = [LogError_ResponseTooLong (MAX_RESPONSE_SIZE P + 1)])))
  /\ (forall len, exists read data w' consumed extra hf,
        ConverseBinary P commandString [] len w = Ret (read, data, w')
        /\ w_rx w = consumed ++ w_rx w'
        /\ Z.of_nat (String.length (rx_bytes consumed)) = hf + read
        /\ 0 <= hf
        /\ w_log w' = w_log w ++ extra
        /\ ((hf <= MAX_RESPONSE_SIZE P
             /\ forall n, ~ In (LogError_ResponseTooLong n) extra)
            \/ (hf = MAX_RESPONSE_SIZE P + 1
                /\ In (LogError_ResponseTooLong (MAX_RESPONSE_SIZE P + 1))
                      extra
                /\ (read = 0 \/ len <= read))))
  /\ (forall st N ch read data w1,
        m_sampleDepth st = N -> 0 < N -> 3 * N + 2 < 2 ^ 64 ->
        m_channels st = [ch] -> commandString = scanraw_command st ->
        ConverseBinary P commandString [] (3 * N + 2) w
          = Ret (read, data, w1) ->
        (read <> 3 * N + 2 ->
         AcquireData P st w
         = Ret (false, st,
                Log (LogError_InvalidByteCount read (3 * N + 2)) w1))
        /\ (read = 3 * N + 2 ->
            exists st' w', AcquireData P st w = Ret (true, st', w'))).
Proof.
  intros Hmax Hsz. split; [|split].
  - destruct (ConverseString_spec P commandString w)
      as (r & w' & consumed & extra & E & _ & Erx & Er & Elog & _).
    destruct (ConverseString_budget P Hmax commandString w r w' E)
      as (extra' & Elog' & Ex).
    exists r, w', consumed, extra'. repeat split; assumption.
  - intros len.
    destruct (ConverseBinary_spec P commandString len w)
      as (read & data & w' & extra & E & _).
    destruct (ConverseBinary_budget P Hmax commandString len w read data w'
                Hsz E)
      as (consumed & extra' & hf & Erx & Ecount & Ehf & Elog & Ex).
    exists read, data, w', consumed, extra', hf. repeat split; assumption.
  - intros st N ch read data w1 Hn Hpos Hb Hch -> HCB. split.
    + intros Hne.
      apply (AcquireData_wrong_count P st w N read data w1 Hn
               ltac:(lia) Hb HCB Hne).
    + intros Hfull. subst read.
      destruct (AcquireData_full_read P st w N ch data w1 Hn Hpos Hb Hch HCB)
        as (samples & st' & w2 & extra & E & _).
      eexists. eexists. exact E.
Qed.

(** [response_too_long_returns_what_was_read] at a scan whose header never
    ends: the budget of 64 bytes runs out at byte 65, the count is 0 and the
    acquisition fails. *)
Lemma response_too_long_returns_what_was_read_witness :
  exists data w1,
    0 <= MAX_RESPONSE_SIZE example_platform < 2 ^ 64 - 1
    /\ Z.of_nat (List.length (w_rx long_header_world)) < 2 ^ 64
    /\ ConverseBinary example_platform (scanraw_command (example_TinySA 2)) []
         8 long_header_world = Ret (0, data, w1)
    /\ In (LogError_ResponseTooLong 65) (w_log w1)
    /\ AcquireData example_platform (example_TinySA 2) long_header_world
       = Ret (false, example_TinySA 2,
              Log (LogError_InvalidByteCount 0 8) w1).
Proof.
  assert (HCB : exists data w1,
    ConverseBinary example_platform (scanraw_command (example_TinySA 2)) []
      8 long_header_world = Ret (0, data, w1)
    /\ In (LogError_ResponseTooLong 65) (w_log w1)).
  { eexists. eexists. split; [vm_compute; reflexivity | left; reflexivity]. }
  destruct HCB as (data & w1 & HCB & Hlog).
  assert (Hmax : 0 <= MAX_RESPONSE_SIZE example_platform < 2 ^ 64 - 1)
    by (cbn; lia).
  assert (Hsz : Z.of_nat (List.length (w_rx long_header_world)) < 2 ^ 64)
    by (cbn; lia).
  exists data, w1. split; [exact Hmax|]. split; [exact Hsz|].
  split; [exact HCB|]. split; [exact Hlog|].
  destruct (response_too_long_returns_what_was_read example_platform
              (scanraw_command (example_TinySA 2)) long_header_world Hmax Hsz)
    as (_ & _ & H).
  destruct (H (example_TinySA 2) 2 _ 0 data w1 eq_refl ltac:(lia) ltac:(lia)
              eq_refl eq_refl HCB) as [Hfail _].
  apply Hfail. discriminate.
Defined.

(** C6 as stated fails: the budget runs out in the footer of a complete two
    point scan; the error is logged, yet [ConverseBinary] returns the full
    count 8 and [AcquireData] returns true and publishes the waveform.  In
    the line conversation the budget runs out after "version" and 56
    letters; the error is logged, yet [ConverseSingle] returns the letters
    as the answer. *)
Lemma response_too_long_is_not_a_failure :
  (exists data w1 st' w',
     ConverseBinary example_platform (scanraw_command (example_TinySA 2)) []
       8 long_footer_world = Ret (8, data, w1)
     /\ In (LogError_ResponseTooLong 65) (w_log w1)
     /\ AcquireData example_platform (example_TinySA 2) long_footer_world
        = Ret (true, st', w')
     /\ List.length (m_pendingWaveforms st') = 1%nat
     /\ In Notify_ChannelsDownloadFinished (w_log w'))
  /\ (exists r w',
        ConverseSingle example_platform "version" long_line_world
        = Ret (r, w')
        /\ In (LogError_ResponseTooLong 65) (w_log w')
        /\ String.length r = 56%nat).
Proof.
  split.
  - eexists. eexists. eexists. eexists.
    split; [vm_compute; reflexivity|].
    split; [left; reflexivity|].
    split; [vm_compute; reflexivity|].
    split; [reflexivity|]. cbn. tauto.
  - eexists. eexists. split; [vm_compute; reflexivity|].
    split; [left; reflexivity | reflexivity].
Qed.

(* ===================================================================== *)
(** * Further properties of the driver *)

(** ** The line conversation reads up to the first prompt *)

Lemma app_one_neq {A : Type} (l : list A) (x : A) : l ++ [x] <> l.
Proof.
  intros H. apply (f_equal (@List.length A)) in H.
  rewrite length_app in H. cbn in H. lia.
Qed.

Lemma push_char_nonempty (s : string) (c : ascii) : push_char s c <> EmptyString.
Proof. unfold push_char. destruct s; discriminate. Qed.

Lemma script_app (s t : string) : script (s ++ t) = script s ++ script t.
Proof.
  unfold script. induction s as [|c s IH]; cbn; [reflexivity|].
  f_equal. exact IH.
Qed.

Lemma script_length (s : string) : List.length (script s) = String.length s.
Proof.
  unfold script. rewrite length_map.
  induction s as [|c s IH]; cbn; [reflexivity | rewrite IH; reflexivity].
Qed.

Lemma rx_bytes_script (s : string) : rx_bytes (script s) = s.
Proof.
  unfold script. induction s as [|c s IH]; cbn; [reflexivity|].
  rewrite IH. reflexivity.
Qed.

Lemma no_early_end_sound (t q : string) :
  forall p,
    no_early_end p q t = true ->
    forall p' q', q = (p' ++ q')%string ->
      p' <> EmptyString -> q' <> EmptyString ->
      ends_with (p ++ p') t = false.
Proof.
  induction q as [|c q IH]; intros p H p' q' Hpq Hp' Hq'.
  - destruct p'; [congruence | discriminate Hpq].
  - destruct p' as [|a p']; [congruence|].
    cbn in Hpq. injection Hpq as Hac Hpq. subst a.
    cbn [no_early_end] in H.
    destruct q as [|c' q].
    + destruct p'; cbn in Hpq; [congruence | discriminate Hpq].
    + apply andb_true_iff in H. destruct H as [H1 H2].
      destruct p' as [|b p'].
      * apply negb_true_iff in H1. exact H1.
      * rewrite <- (push_char_append p (String b p') c).
        apply (IH (push_char p c) H2 (String b p') q' Hpq);
          [discriminate | exact Hq'].
Qed.

Lemma first_ends_withb_sound (s t : string) :
  first_ends_withb s t = true -> first_ends_with s t.
Proof.
  unfold first_ends_withb. intros H.
  apply andb_true_iff in H. destruct H as [H H3].
  apply andb_true_iff in H. destruct H as [H1 H2].
  split.
  - intros ->. discriminate H1.
  - split; [exact H2|]. intros p q Hpq Hp Hq.
    exact (no_early_end_sound t s EmptyString H3 p q Hpq Hp Hq).
Qed.

Section FirstPrompt.

Variable P : Platform.

(** What the loop of [ConverseString] adds to the text it holds: no
    beginning of it completes the prompt before its last byte, and if the
    loop logs nothing, the text ends with the prompt. *)
Lemma ConverseString_loop_first_prompt (fuel : nat) :
  forall (start : Q) (result : string) (bytesRead : Z) (w : world)
         (r : string) (w' : world),
    ConverseString_loop P fuel start result bytesRead w = Ret (r, w') ->
    exists added,
      r = (result ++ added)%string
      /\ (w_log w' = w_log w ->
          added <> EmptyString /\ ends_with r (TRAILER_STRING P) = true)
      /\ (forall p q, added = (p ++ q)%string ->
            p <> EmptyString -> q <> EmptyString ->
            ends_with (result ++ p) (TRAILER_STRING P) = false).
Proof.
  induction fuel as [|fuel IH]; intros start result bytesRead w r w' H;
    [discriminate H|].
  cbn [ConverseString_loop] in H.
  pose proof (ReadRawData_1_spec w) as R.
  destruct (ReadRawData_1 w) as [[c|] w1].
  - destruct R as (_ & Hlog & _).
    assert (Hsingle : forall p q : string,
              String c EmptyString = (p ++ q)%string ->
              p <> EmptyString -> q <> EmptyString -> False).
    { intros p q Hpq Hp Hq. destruct p as [|a p]; [congruence|].
      cbn in Hpq. injection Hpq as _ Hpq.
      destruct p; cbn in Hpq; [congruence | discriminate Hpq]. }
    destruct (MAX_RESPONSE_SIZE P <? size_t_wrap (bytesRead + 1)).
    { injection H as <- <-. exists (String c EmptyString).
      split; [reflexivity|]. split.
      - cbn [w_log Log]. rewrite Hlog. intros Habs.
        exfalso. exact (app_one_neq _ _ Habs).
      - intros p q Hpq Hp Hq. exfalso. exact (Hsingle p q Hpq Hp Hq). }
    destruct (ends_with (push_char result c) (TRAILER_STRING P)) eqn:T.
    { injection H as <- <-. exists (String c EmptyString).
      split; [reflexivity|]. split.
      - intros _. split; [discriminate | exact T].
      - intros p q Hpq Hp Hq. exfalso. exact (Hsingle p q Hpq Hp Hq). }
    destruct (IH start (push_char result c) (size_t_wrap (bytesRead + 1)) w1
                r w' H) as (added & Er & Eend & Epre).
    exists (String c added).
    split; [rewrite Er; apply push_char_append|].
    split.
    + intros Hl. rewrite <- Hlog in Hl. destruct (Eend Hl) as [_ He].
      split; [discriminate | exact He].
    + intros p q Hpq Hp Hq. destruct p as [|a p]; [congruence|].
      cbn in Hpq. injection Hpq as Hac Hpq. subst a.
      destruct p as [|b p].
      * exact T.
      * rewrite <- (push_char_append result (String b p) c).
        apply (Epre (String b p) q Hpq); [discriminate | exact Hq].
  - destruct R as (_ & Hlog & HR).
    assert (Hexit : forall w0, w_log w0 = w_log w ->
      Ret (result, timeout_exit P start w0) = Ret (r, w') ->
      exists added,
        r = (result ++ added)%string
        /\ (w_log w' = w_log w ->
            added <> EmptyString /\ ends_with r (TRAILER_STRING P) = true)
        /\ (forall p q, added = (p ++ q)%string ->
              p <> EmptyString -> q <> EmptyString ->
              ends_with (result ++ p) (TRAILER_STRING P) = false)).
    { intros w0 Hw0 Heq. injection Heq as <- <-. exists EmptyString.
      split; [symmetry; apply append_empty_r|]. split.
      - destruct (timeout_exit_fields P start w0) as (_ & _ & Flog).
        rewrite Flog, Hw0. intros Habs. exfalso. exact (app_one_neq _ _ Habs).
      - intros p q Hpq Hp _. destruct p; [congruence | discriminate Hpq]. }
    destruct (deadline_passed P start w1).
    + apply (Hexit w1 Hlog H).
    + destruct (IH start result bytesRead w1 r w' H)
        as (added & Er & Eend & Epre).
      exists added. split; [exact Er|]. split; [|exact Epre].
      intros Hl. rewrite <- Hlog in Hl. exact (Eend Hl).
Qed.

(** X1: [ConverseString] never reads past the first prompt: no shorter
    non-empty beginning of the text it returns ends with TRAILER_STRING;
    and when it logs no error, the text it returns is not empty and ends
    with TRAILER_STRING. *)
Theorem ConverseString_stops_at_first_prompt
  (commandString : string) (w : world) :
  exists r w',
    ConverseString P commandString w = Ret (r, w')
    /\ (w_log w' = w_log w -> first_ends_with r (TRAILER_STRING P))
    /\ (forall p q, r = (p ++ q)%string ->
          p <> EmptyString -> q <> EmptyString ->
          ends_with p (TRAILER_STRING P) = false).
Proof.
  destruct (ConverseString_spec P commandString w)
    as (r & w' & _ & _ & E & _).
  exists r, w'. split; [exact E|].
  unfold ConverseString in E.
  apply ConverseString_loop_first_prompt in E.
  destruct E as (added & Er & Eend & Epre). cbn in Er. subst added.
  cbn [w_log SendCommand] in Eend.
  split.
  - intros Hl. destruct (Eend Hl) as [Hne He].
    split; [exact Hne|]. split; [exact He|]. exact Epre.
  - exact Epre.
Qed.

Hypothesis budget_range : 0 <= MAX_RESPONSE_SIZE P < 2 ^ 64 - 1.

(** The loop of [ConverseString] on a device that delivers, back to back,
    bytes [q] that complete the prompt with their last byte and stay within
    the budget: it returns the text with [q] added and has consumed [q]. *)
Lemma ConverseString_loop_complete (q : string) :
  forall (p : string) (fuel : nat) (start : Q) (bytesRead : Z) (w : world)
         (rest : list rx_event),
    q <> EmptyString ->
    w_rx w = script q ++ rest ->
    bytesRead = Z.of_nat (String.length p) ->
    Z.of_nat (String.length (p ++ q)) <= MAX_RESPONSE_SIZE P ->
    ends_with (p ++ q) (TRAILER_STRING P) = true ->
    (forall p' q', q = (p' ++ q')%string ->
       p' <> EmptyString -> q' <> EmptyString ->
       ends_with (p ++ p') (TRAILER_STRING P) = false) ->
    (String.length q <= fuel)%nat ->
    ConverseString_loop P fuel start p bytesRead w
    = Ret ((p ++ q)%string,
           {| w_rx := rest; w_clock := w_clock w; w_tx := w_tx w;
              w_log := w_log w |}).
Proof.
  induction q as [|c q IH]; intros p fuel start bytesRead w rest Hne Hrx Hb
    Hmax Hend Hfirst Hfuel; [congruence|].
  destruct fuel as [|fuel]; [cbn in Hfuel; lia|].
  cbn [ConverseString_loop]. unfold ReadRawData_1.
  change (script (String c q)) with (Rx c :: script q) in Hrx.
  rewrite Hrx. cbn [app].
  rewrite string_length_app in Hmax. cbn [String.length] in Hmax.
  rewrite size_t_wrap_id by lia.
  destruct (MAX_RESPONSE_SIZE P <? bytesRead + 1) eqn:M;
    [apply Z.ltb_lt in M; lia|].
  rewrite <- (push_char_append p q c) in Hend |- *.
  destruct q as [|c' q].
  - rewrite append_empty_r in Hend |- *. rewrite Hend. reflexivity.
  - assert (Hnot : ends_with (push_char p c) (TRAILER_STRING P) = false).
    { unfold push_char.
      apply (Hfirst (String c EmptyString) (String c' q));
        [reflexivity | discriminate | discriminate]. }
    rewrite Hnot.
    rewrite (IH (push_char p c) fuel start (bytesRead + 1)
               {| w_rx := script (String c' q) ++ rest; w_clock := w_clock w;
                  w_tx := w_tx w; w_log := w_log w |} rest).
    + reflexivity.
    + discriminate.
    + reflexivity.
    + rewrite push_char_length. lia.
    + rewrite string_length_app, push_char_length.
      cbn [String.length] in *. lia.
    + exact Hend.
    + intros p' q' Hpq Hp' Hq'.
      rewrite (push_char_append p p' c).
      apply (Hfirst (String c p') q');
        [cbn; rewrite Hpq; reflexivity | discriminate | exact Hq'].
    + cbn [String.length] in Hfuel |- *. lia.
Qed.

(** [ConverseString] on a device that delivers a complete response. *)
Lemma ConverseString_on_script
  (commandString response : string) (w : world) (rest : list rx_event) :
  w_rx w = script response ++ rest ->
  first_ends_with response (TRAILER_STRING P) ->
  Z.of_nat (String.length response) <= MAX_RESPONSE_SIZE P ->
  ConverseString P commandString w
  = Ret (response, world_after w commandString rest).
Proof.
  intros Hrx (Hne & Hend & Hfirst) Hmax. unfold ConverseString.
  rewrite (ConverseString_loop_complete response EmptyString _ _ 0
             (SendCommand (commandString ++ CRLF) w) rest Hne Hrx eq_refl
             Hmax Hend Hfirst).
  - reflexivity.
  - cbn [w_rx SendCommand]. rewrite Hrx, length_app, script_length. lia.
Qed.

(** X2: when the device delivers, back to back, a response within the
    budget whose last byte completes the first prompt, [ConverseString]
    returns exactly that response, leaves what follows it unread, sends the
    command with a line end and logs nothing. *)
Theorem ConverseString_complete_response
  (commandString response : string) (w : world) (rest : list rx_event) :
  w_rx w = script response ++ rest ->
  first_ends_with response (TRAILER_STRING P) ->
  Z.of_nat (String.length response) <= MAX_RESPONSE_SIZE P ->
  ConverseString P commandString w
  = Ret (response, world_after w commandString rest).
Proof. apply ConverseString_on_script. Qed.

End FirstPrompt.

(** [ConverseString_complete_response] at a device that answers "version"
    and goes on sending: the answer up to the prompt is returned, "more" is
    left unread. *)
Lemma ConverseString_complete_response_witness :
  ConverseString example_platform "version" version_world
  = Ret (("version" ++ CRLF ++ "tinySA_v1.4" ++ CRLF ++ "ch> ")%string,
         world_after version_world "version" (script "more")).
Proof.
  apply (ConverseString_complete_response example_platform).
  - cbn. lia.
  - reflexivity.
  - apply first_ends_withb_sound. reflexivity.
  - cbn. lia.
Defined.

(** ** Timeouts *)

(** [no_end_in] decides that the delimiter never completes. *)
Lemma no_end_in_sound (t q : string) :
  forall p,
    no_end_in p q t = true ->
    forall p' q', q = (p' ++ q')%string -> p' <> EmptyString ->
      ends_with (p ++ p') t = false.
Proof.
  induction q as [|c q IH]; intros p H p' q' Hpq Hp'.
  - destruct p'; [congruence | discriminate Hpq].
  - destruct p' as [|a p']; [congruence|].
    cbn in Hpq. injection Hpq as Hac Hpq. subst a.
    cbn [no_end_in] in H.
    apply andb_true_iff in H. destruct H as [H1 H2].
    destruct p' as [|b p'].
    + apply negb_true_iff in H1. exact H1.
    + rewrite <- (push_char_append p (String b p') c).
      apply (IH (push_char p c) H2 (String b p') q' Hpq). discriminate.
Qed.

Lemma no_end_in_never (s t : string) :
  no_end_in EmptyString s t = true -> never_ends_with s t.
Proof.
  intros H p q Hpq Hp.
  exact (no_end_in_sound t s EmptyString H p q Hpq Hp).
Qed.

Section Timeouts.

Variable P : Platform.

(** The loop of [ConverseString] on a device that stays quiet, however long
    it polls. *)
Lemma ConverseString_loop_quiet (times : list Q) :
  forall (fuel : nat) (start : Q) (result : string) (bytesRead : Z)
         (w : world),
    w_rx w = map Quiet times ->
    (List.length times < fuel)%nat ->
    exists w',
      ConverseString_loop P fuel start result bytesRead w = Ret (result, w')
      /\ w_tx w' = w_tx w
      /\ w_log w' = w_log w ++ [LogError_Timeout].
Proof.
  induction times as [|t times IH]; intros fuel start result bytesRead w Hrx
    Hfuel; (destruct fuel as [|fuel]; [cbn in Hfuel; lia|]);
    cbn [ConverseString_loop]; unfold ReadRawData_1; rewrite Hrx;
    cbn [map].
  - unfold deadline_passed. rewrite Hrx.
    destruct (timeout_exit_fields P start w) as (_ & Ftx & Flog).
    eexists. split; [reflexivity|]. split; [exact Ftx | exact Flog].
  - set (w1 := {| w_rx := map Quiet times; w_clock := t; w_tx := w_tx w;
                  w_log := w_log w |}).
    destruct (deadline_passed P start w1).
    + destruct (timeout_exit_fields P start w1) as (_ & Ftx & Flog).
      eexists. split; [reflexivity|]. split; [exact Ftx | exact Flog].
    + apply (IH fuel start result bytesRead w1 eq_refl).
      cbn in Hfuel. lia.
Qed.

(** The loop of [ConverseString] on a device that stays quiet: it polls
    again while the clock is short of the deadline, and leaves at the first
    poll after which the clock has reached it. *)
Lemma ConverseString_loop_polls (early : list Q) :
  forall (fuel : nat) (start : Q) (result : string) (bytesRead : Z)
         (w : world) (t : Q) (late : list Q),
    w_rx w = map Quiet (early ++ t :: late) ->
    Forall (fun u => (u - start < COMMUNICATION_TIMEOUT P)%Q) early ->
    (COMMUNICATION_TIMEOUT P <= t - start)%Q ->
    (List.length early < fuel)%nat ->
    ConverseString_loop P fuel start result bytesRead w
    = Ret (result,
           {| w_rx := map Quiet late; w_clock := t; w_tx := w_tx w;
              w_log := w_log w ++ [LogError_Timeout] |}).
Proof.
  induction early as [|u early IH]; intros fuel start result bytesRead w t
    late Hrx Hearly Ht Hfuel;
    (destruct fuel as [|fuel]; [cbn in Hfuel; lia|]);
    cbn [ConverseString_loop]; unfold ReadRawData_1; rewrite Hrx;
    cbn [map app].
  - assert (Hq : Qle_bool (COMMUNICATION_TIMEOUT P) (t - start) = true)
      by (apply Qle_bool_iff; exact Ht).
    assert (Hd : deadline_passed P start
                   {| w_rx := map Quiet late; w_clock := t; w_tx := w_tx w;
                      w_log := w_log w |} = true).
    { unfold deadline_passed. cbn [w_rx GetTime w_clock].
      destruct (map Quiet late); [reflexivity | exact Hq]. }
    rewrite Hd. unfold timeout_exit, await_deadline.
    cbn [GetTime w_clock]. rewrite Hq. reflexivity.
  - inversion Hearly as [|u' early' Hu Hrest]; subst.
    assert (Hd : deadline_passed P start
                   {| w_rx := map Quiet (early ++ t :: late); w_clock := u;
                      w_tx := w_tx w; w_log := w_log w |} = false).
    { unfold deadline_passed. cbn [w_rx GetTime w_clock].
      destruct (map Quiet (early ++ t :: late)) eqn:E.
      - destruct early; discriminate E.
      - destruct (Qle_bool _ _) eqn:Eq; [|reflexivity].
        apply Qle_bool_iff in Eq. lra. }
    rewrite Hd.
    apply (IH fuel start result bytesRead
             {| w_rx := map Quiet (early ++ t :: late); w_clock := u;
                w_tx := w_tx w; w_log := w_log w |} t late eq_refl Hrest Ht).
    cbn in Hfuel. lia.
Qed.

Hypothesis budget_range : 0 <= MAX_RESPONSE_SIZE P < 2 ^ 64 - 1.

(** The loop of [ConverseString] on bytes among which the prompt never
    completes, followed by quiet polls. *)
Lemma ConverseString_loop_stalls (q : string) :
  forall (p : string) (fuel : nat) (start : Q) (bytesRead : Z) (w : world)
         (early : list Q) (t : Q) (late : list Q),
    w_rx w = script q ++ map Quiet (early ++ t :: late) ->
    bytesRead = Z.of_nat (String.length p) ->
    Z.of_nat (String.length (p ++ q)) <= MAX_RESPONSE_SIZE P ->
    (forall p' q', q = (p' ++ q')%string -> p' <> EmptyString ->
       ends_with (p ++ p') (TRAILER_STRING P) = false) ->
    Forall (fun u => (u - start < COMMUNICATION_TIMEOUT P)%Q) early ->
    (COMMUNICATION_TIMEOUT P <= t - start)%Q ->
    (String.length q + List.length early < fuel)%nat ->
    ConverseString_loop P fuel start p bytesRead w
    = Ret ((p ++ q)%string,
           {| w_rx := map Quiet late; w_clock := t; w_tx := w_tx w;
              w_log := w_log w ++ [LogError_Timeout] |}).
Proof.
  induction q as [|c q IH]; intros p fuel start bytesRead w early t late Hrx
    Hb Hmax Hfree Hearly Ht Hfuel.
  - rewrite append_empty_r.
    apply (ConverseString_loop_polls early fuel start p bytesRead w t late
             Hrx Hearly Ht).
    cbn in Hfuel. exact Hfuel.
  - destruct fuel as [|fuel]; [cbn in Hfuel; lia|].
    cbn [ConverseString_loop]. unfold ReadRawData_1.
    change (script (String c q)) with (Rx c :: script q) in Hrx.
    rewrite Hrx. cbn [app].
    rewrite string_length_app in Hmax. cbn [String.length] in Hmax.
    rewrite size_t_wrap_id by lia.
    destruct (MAX_RESPONSE_SIZE P <? bytesRead + 1) eqn:M;
      [apply Z.ltb_lt in M; lia|].
    assert (Hnot : ends_with (push_char p c) (TRAILER_STRING P) = false).
    { unfold push_char.
      apply (Hfree (String c EmptyString) q); [reflexivity | discriminate]. }
    rewrite Hnot. rewrite <- (push_char_append p q c).
    apply (IH (push_char p c) fuel start (bytesRead + 1)
             {| w_rx := script q ++ map Quiet (early ++ t :: late);
                w_clock := w_clock w; w_tx := w_tx w; w_log := w_log w |}
             early t late eq_refl).
    + rewrite push_char_length. lia.
    + rewrite string_length_app, push_char_length. lia.
    + intros p' q' Hpq Hp'.
      rewrite (push_char_append p p' c).
      apply (Hfree (String c p') q');
        [cbn; rewrite Hpq; reflexivity | discriminate].
    + exact Hearly.
    + exact Ht.
    + cbn [String.length] in Hfuel. lia.
Qed.

(** X3: when the device delivers bytes among which the prompt never
    completes, within the budget, and then stays quiet, [ConverseString]
    polls as long as the clock is short of the deadline and gives up at the
    first quiet poll after which [GetTime() - start >= COMMUNICATION_TIMEOUT]
    holds: it returns exactly the bytes read so far, has sent the command
    once, logs the timeout and nothing else, the clock stands at that
    poll's time and what the device does later is left unread. *)
Theorem ConverseString_timeout_returns_partial
  (commandString s : string) (early : list Q) (t : Q) (late : list Q)
  (w : world) :
  w_rx w = script s ++ map Quiet (early ++ t :: late) ->
  never_ends_with s (TRAILER_STRING P) ->
  Z.of_nat (String.length s) <= MAX_RESPONSE_SIZE P ->
  Forall (fun u => (u - w_clock w < COMMUNICATION_TIMEOUT P)%Q) early ->
  (COMMUNICATION_TIMEOUT P <= t - w_clock w)%Q ->
  ConverseString P commandString w
  = Ret (s, {| w_rx := map Quiet late; w_clock := t;
               w_tx := w_tx w ++ [(commandString ++ CRLF)%string];
               w_log := w_log w ++ [LogError_Timeout] |}).
Proof.
  intros Hrx Hfree Hmax Hearly Ht. unfold ConverseString.
  apply (ConverseString_loop_stalls s EmptyString _ _ 0
           (SendCommand (commandString ++ CRLF) w) early t late Hrx eq_refl
           Hmax Hfree Hearly Ht).
  cbn [w_rx SendCommand].
  rewrite Hrx, length_app, script_length, length_map, length_app.
  cbn [List.length]. lia.
Qed.

End Timeouts.

(** [ConverseString_timeout_returns_partial] at a device that sends "vers"
    and then stalls: with a timeout of 5 the polls at 1 and 3 are too early,
    the call leaves at the poll at 6 and the poll at 7 is not made. *)
Lemma ConverseString_timeout_returns_partial_witness :
  ConverseString example_platform "version" stalled_world
  = Ret ("vers"%string,
         {| w_rx := [Quiet 7]; w_clock := 6;
            w_tx := [("version" ++ CRLF)%string];
            w_log := [LogError_Timeout] |}).
Proof.
  apply (ConverseString_timeout_returns_partial example_platform
           ltac:(cbn; lia) "version" "vers" [1%Q; 3%Q] 6%Q [7%Q]
           stalled_world).
  - reflexivity.
  - apply no_end_in_never. reflexivity.
  - cbn. lia.
  - repeat constructor.
  - cbn. discriminate.
Defined.

(** X4: on a device that never answers, the constructor gives up after
    the first question: it sends "version" and nothing else, logs the
    timeout, the missing echo and "could not connect", and leaves the
    object as it was. *)
Theorem TinySA_ctor_silent_device
  (P : Platform) (blank : TinySA) (w : world) (times : list Q) :
  w_rx w = map Quiet times ->
  exists w',
    TinySA_ctor P blank w = Ret (blank, w')
    /\ w_tx w' = w_tx w ++ [("version" ++ CRLF)%string]
    /\ w_log w'
       = w_log w ++ [LogError_Timeout;
                     LogWarning_UnexpectedResponse EmptyString "version";
                     LogError_CouldNotConnect].
Proof.
  intros Hrx. unfold TinySA_ctor, ConverseSingle, ConverseString.
  destruct (ConverseString_loop_quiet P times
              (S (List.length (w_rx (SendCommand ("version" ++ CRLF) w))))
              (GetTime (SendCommand ("version" ++ CRLF) w)) EmptyString 0
              (SendCommand ("version" ++ CRLF) w) Hrx)
    as (w' & E & Etx & Elog).
  { cbn [w_rx SendCommand]. rewrite Hrx, length_map. lia. }
  rewrite E. cbn.
  eexists. split; [reflexivity|]. cbn. rewrite Etx, Elog. cbn.
  split; [reflexivity|]. rewrite <- !app_assoc. reflexivity.
Qed.

(** [TinySA_ctor_silent_device] at three quiet polls. *)
Lemma TinySA_ctor_silent_device_witness :
  exists w',
    TinySA_ctor example_platform blank_TinySA silent_world = Ret (blank_TinySA, w')
    /\ w_tx w' = [("version" ++ CRLF)%string]
    /\ w_log w'
       = [LogError_Timeout;
          LogWarning_UnexpectedResponse EmptyString "version";
          LogError_CouldNotConnect].
Proof.
  apply (TinySA_ctor_silent_device example_platform blank_TinySA silent_world
           [1%Q; 3%Q; 6%Q]).
  reflexivity.
Defined.

(** ** Reply lines *)

(** [lines_from] follows [split_line], as [getline] does. *)
Lemma lines_from_split (s : string) :
  forall cur,
    lines_from cur s
    = match split_line s with
      | (line, Some rest) =>
          (cur ++ line)%string :: lines_from EmptyString rest
      | (line, None) =>
          if String.eqb (cur ++ line) EmptyString then []
          else [(cur ++ line)%string]
      end.
Proof.
  induction s as [|c s IH]; intros cur; cbn [lines_from split_line].
  - rewrite append_empty_r. reflexivity.
  - destruct (Ascii.eqb c LF).
    + rewrite append_empty_r. reflexivity.
    + rewrite IH. destruct (split_line s) as [line [rest|]];
        rewrite push_char_append; reflexivity.
Qed.

(** The loop of [ConverseMultiple] after the first line. *)
Lemma ConverseMultiple_loop_rest (commandString : string) (fuel : nat) :
  forall (buf curLine : string) (readLines : list string) (size : Z)
         (w : world),
    (String.length buf + 2 <= fuel)%nat ->
    0 <= size -> size + Z.of_nat (String.length buf) < 2 ^ 64 ->
    ConverseMultiple_loop fuel commandString (mkStream buf true) curLine false
      readLines size w
    = Ret (size + Z.of_nat (List.length
                    (filter (fun line => negb (String.eqb line EmptyString))
                       (map RemoveCR (lines_from EmptyString buf)))),
           readLines ++ filter (fun line => negb (String.eqb line EmptyString))
                          (map RemoveCR (lines_from EmptyString buf)),
           w).
Proof.
  induction fuel as [|fuel IH]; intros buf curLine readLines size w Hfuel
    Hsize Hmax; [lia|].
  cbn [ConverseMultiple_loop]. unfold getline. cbn [ss_good ss_buf negb].
  rewrite lines_from_split.
  pose proof (split_line_shorter buf) as Hshort.
  destruct (split_line buf) as [line [rest|]] eqn:Hsp.
  - specialize (Hshort line rest eq_refl). cbn [negb append map filter].
    destruct (String.eqb (RemoveCR line) EmptyString); cbn [negb].
    + apply IH; lia.
    + rewrite size_t_wrap_id by lia. rewrite IH by lia.
      cbn [List.length]. rewrite <- app_assoc. cbn [app].
      f_equal. f_equal. f_equal. lia.
  - clear Hshort. cbn [append].
    destruct (String.eqb line EmptyString) eqn:E; cbn [negb].
    + cbn [List.length map filter]. rewrite Z.add_0_r, app_nil_r. reflexivity.
    + assert (Hlen : (1 <= String.length buf)%nat).
      { destruct buf; [|cbn; lia]. cbn in Hsp. injection Hsp as <-.
        discriminate E. }
      destruct fuel as [|fuel]; [lia|].
      cbn [map filter].
      destruct (String.eqb (RemoveCR line) EmptyString); cbn [negb].
      * cbn [ConverseMultiple_loop getline ss_good negb List.length].
        rewrite Z.add_0_r, app_nil_r. reflexivity.
      * cbn [ConverseMultiple_loop getline ss_good negb List.length].
        rewrite size_t_wrap_id by lia. reflexivity.
Qed.

(** The loop of [ConverseMultiple] from the start of a response. *)
Lemma ConverseMultiple_loop_lines
  (commandString response : string) (readLines : list string) (w : world) :
  Z.of_nat (String.length response) <= 2 ^ 64 ->
  ConverseMultiple_loop (String.length response + 2) commandString
    (stringstream_of response) EmptyString true readLines 0 w
  = Ret (Z.of_nat (List.length (reply_lines response)),
         readLines ++ reply_lines response,
         echo_warning commandString response w).
Proof.
  intros Hmax. replace (String.length response + 2)%nat
    with (S (String.length response + 1)) by lia.
  cbn [ConverseMultiple_loop]. unfold getline, stringstream_of.
  cbn [ss_good ss_buf negb]. unfold reply_lines, echo_warning.
  rewrite lines_from_split.
  pose proof (split_line_shorter response) as Hshort.
  destruct (split_line response) as [line [rest|]] eqn:Hsp.
  - specialize (Hshort line rest eq_refl). cbn [negb append tl].
    rewrite ConverseMultiple_loop_rest by lia. reflexivity.
  - clear Hshort. cbn [append].
    destruct (String.eqb line EmptyString) eqn:E; cbn [negb].
    + cbn [tl map filter List.length]. rewrite app_nil_r. reflexivity.
    + replace (String.length response + 1)%nat
        with (S (String.length response)) by lia.
      cbn [ConverseMultiple_loop getline ss_good negb tl map filter
           List.length].
      rewrite app_nil_r. reflexivity.
Qed.

Section ReplyLines.

Variable P : Platform.
Hypothesis budget_range : 0 <= MAX_RESPONSE_SIZE P < 2 ^ 64 - 1.

(** [ConverseMultiple] in terms of the response of [ConverseString]. *)
Lemma ConverseMultiple_reply_lines
  (commandString response : string) (readLines : list string) (w w1 : world) :
  ConverseString P commandString w = Ret (response, w1) ->
  ConverseMultiple P commandString readLines w
  = Ret (Z.of_nat (List.length (reply_lines response)),
         readLines ++ reply_lines response,
         echo_warning commandString response w1).
Proof.
  intros E. unfold ConverseMultiple. rewrite E. cbn [bind].
  apply ConverseMultiple_loop_lines.
  destruct (ConverseString_budget P budget_range commandString w response w1 E)
    as (extra & _ & [[H _]|[H _]]); lia.
Qed.

(** X5: [ConverseMultiple] appends to [readLines] (it does not clear it)
    the lines of the response after the first, carriage returns stripped
    and empty lines dropped, returns how many lines it appended (not the
    size of the vector), and logs a warning only if the first line is not
    the echo of the command. *)
Theorem ConverseMultiple_appends_reply_lines
  (commandString : string) (readLines : list string) (w : world) :
  exists response w1,
    ConverseString P commandString w = Ret (response, w1)
    /\ ConverseMultiple P commandString readLines w
       = Ret (Z.of_nat (List.length (reply_lines response)),
              readLines ++ reply_lines response,
              echo_warning commandString response w1).
Proof.
  destruct (ConverseString_spec P commandString w) as (r & w1 & _ & _ & E & _).
  exists r, w1. split; [exact E|].
  apply ConverseMultiple_reply_lines. exact E.
Qed.

End ReplyLines.

(** [ConverseMultiple_appends_reply_lines] at the answer to "rbw": the
    usage line, the value and the prompt are appended after what the vector
    held; the empty line is dropped. *)
Lemma ConverseMultiple_appends_reply_lines_witness :
  exists w',
    ConverseMultiple example_platform "rbw" ["earlier"%string] rbw_query_world
    = Ret (3, ["earlier"; "usage: rbw 0.2..850|auto"; "600kHz"; "ch> "]%string,
           w').
Proof.
  destruct (ConverseMultiple_appends_reply_lines example_platform
              ltac:(cbn; lia) "rbw" ["earlier"%string] rbw_query_world)
    as (response & w1 & E & M).
  exists (echo_warning "rbw" response w1). rewrite M.
  assert (E' : exists w2,
    ConverseString example_platform "rbw" rbw_query_world
    = Ret (("rbw" ++ CRLF ++ "usage: rbw 0.2..850|auto" ++ CRLF
            ++ CRLF ++ "600kHz" ++ CRLF ++ "ch> ")%string, w2)).
  { eexists. vm_compute. reflexivity. }
  destruct E' as (w2 & E'). rewrite E' in E. injection E as <- <-.
  reflexivity.
Defined.

(** ** Sweep and rbw exchanges *)

Section Sweep.

Variable P : Platform.

(** What [ConverseSweep] sends and what its flag means. *)
Lemma ConverseSweep_spec (sweepStart sweepStop : Z) (setValue : bool)
  (w : world) :
  exists changed start stop w',
    ConverseSweep P sweepStart sweepStop setValue w
    = Ret (changed, start, stop, w')
    /\ w_tx w'
       = w_tx w
         ++ (if setValue
             then [(sweep_start_command sweepStart ++ CRLF)%string;
                   (sweep_stop_command sweepStop ++ CRLF)%string]
             else [])
         ++ [("sweep" ++ CRLF)%string]
    /\ (changed = true
        <-> setValue = true /\ (start <> sweepStart \/ stop <> sweepStop)).
Proof.
  assert (Last : forall (setValue : bool) (w0 : world),
    exists changed start stop w',
      ('(lines, reply, w) <- ConverseMultiple P "sweep" [] w0 ;;
       if lines <? 1 then
         Ret (false, sweepStart, sweepStop, Log LogWarning_SweepNoLines w)
       else
         let (sweepStart', sweepStop') :=
           sscanf_sweep P (nth 0 reply EmptyString) sweepStart sweepStop in
         Ret (setValue &&
              (negb (sweepStart =? sweepStart') ||
               negb (sweepStop =? sweepStop')),
              sweepStart', sweepStop', w))
      = Ret (changed, start, stop, w')
      /\ w_tx w' = w_tx w0 ++ [("sweep" ++ CRLF)%string]
      /\ (changed = true
          <-> setValue = true /\ (start <> sweepStart \/ stop <> sweepStop))).
  { intros sv w0.
    destruct (ConverseMultiple_spec P "sweep" [] w0)
      as (n & lines & w1 & E & Etx).
    rewrite E. cbn [bind].
    destruct (n <? 1).
    - eexists _, _, _, _. split; [reflexivity|]. split; [exact Etx|].
      split; [discriminate | intros [_ [H|H]]; congruence].
    - destruct (sscanf_sweep P (nth 0 lines EmptyString) sweepStart sweepStop)
        as [s' t'].
      eexists _, _, _, _. split; [reflexivity|]. split; [exact Etx|].
      destruct sv; cbn [andb]; [|split; [discriminate | intros [H _]; discriminate]].
      destruct (Z.eqb_spec sweepStart s'), (Z.eqb_spec sweepStop t');
        cbn [negb orb]; split; try discriminate; try tauto;
        try (intros _; split; [reflexivity|]; lia).
      intros [_ [H|H]]; congruence. }
  unfold ConverseSweep. destruct setValue.
  - destruct (ConverseMultiple_spec P
                ("sweep start " ++ to_string sweepStart)%string [] w)
      as (n1 & l1 & w1 & E1 & T1).
    rewrite E1. cbn [bind].
    set (w1' := Log_if (1 <? n1)
                  (LogWarning_SweepStartRejected sweepStart
                     (nth 0 l1 EmptyString)) w1).
    destruct (ConverseMultiple_spec P
                ("sweep stop " ++ to_string sweepStop)%string l1 w1')
      as (n2 & l2 & w2 & E2 & T2).
    rewrite E2. cbn [bind].
    set (w2' := Log_if (1 <? n2)
                  (LogWarning_SweepStopRejected sweepStop
                     (nth 0 l2 EmptyString)) w2).
    destruct (Last true w2') as (changed & s' & t' & w' & E & T & Hc).
    exists changed, s', t', w'. split; [exact E|]. split; [|exact Hc].
    rewrite T. unfold w2'.
    destruct (Log_if_fields (1 <? n2)
                (LogWarning_SweepStopRejected sweepStop (nth 0 l2 EmptyString))
                w2) as (_ & -> & _).
    rewrite T2. unfold w1'.
    destruct (Log_if_fields (1 <? n1)
                (LogWarning_SweepStartRejected sweepStart
                   (nth 0 l1 EmptyString)) w1) as (_ & -> & _).
    rewrite T1. unfold sweep_start_command, sweep_stop_command.
    rewrite <- !app_assoc. reflexivity.
  - cbn [bind]. destruct (Last false w) as (changed & s' & t' & w' & E & T & Hc).
    exists changed, s', t', w'. split; [exact E|]. split; [exact T | exact Hc].
Qed.

(** X6: [ConverseSweep] always returns; when [setValue] is set it sends
    "sweep start <start>", "sweep stop <stop>" and then "sweep", each with a
    line end and in this order; otherwise it sends "sweep" alone. *)
Theorem ConverseSweep_commands (sweepStart sweepStop : Z) (setValue : bool)
  (w : world) :
  exists changed start stop w',
    ConverseSweep P sweepStart sweepStop setValue w
    = Ret (changed, start, stop, w')
    /\ w_tx w'
       = w_tx w
         ++ (if setValue
             then [(sweep_start_command sweepStart ++ CRLF)%string;
                   (sweep_stop_command sweepStop ++ CRLF)%string]
             else [])
         ++ [("sweep" ++ CRLF)%string].
Proof.
  destruct (ConverseSweep_spec sweepStart sweepStop setValue w)
    as (changed & s' & t' & w' & E & T & _).
  exists changed, s', t', w'. split; [exact E | exact T].
Qed.

(** X7: the flag [ConverseSweep] returns is true exactly when [setValue]
    was set and the start or the stop it hands back differs from the one it
    was given; a pure query never reports a change. *)
Theorem ConverseSweep_reports_change (sweepStart sweepStop : Z)
  (setValue : bool) (w : world) :
  exists changed start stop w',
    ConverseSweep P sweepStart sweepStop setValue w
    = Ret (changed, start, stop, w')
    /\ (changed = true
        <-> setValue = true /\ (start <> sweepStart \/ stop <> sweepStop)).
Proof.
  destruct (ConverseSweep_spec sweepStart sweepStop setValue w)
    as (changed & s' & t' & w' & E & _ & Hc).
  exists changed, s', t', w'. split; [exact E | exact Hc].
Qed.

End Sweep.

Section Refined.

Variable P : Platform.
Hypothesis budget_range : 0 <= MAX_RESPONSE_SIZE P < 2 ^ 64 - 1.

(** X8: a query of the rbw ([sendValue] false) reads its answer from the
    second of the kept reply lines, times 1000 (wrapped to int64) when that
    line contains "kHz"; with fewer than two lines it returns 0 and logs how
    many lines there were; the [value] argument plays no part. *)
Theorem ConverseRbwValue_reads_second_line (value : Z) (w : world) :
  exists response w1,
    ConverseString P "rbw" w = Ret (response, w1)
    /\ ConverseRbwValue P false value w
       = Ret (match reply_lines response with
              | _ :: line :: _ =>
                  (if contains line "kHz"
                   then int64_wrap (sscanf_rbw P line * 1000)
                   else sscanf_rbw P line,
                   echo_warning "rbw" response w1)
              | lines =>
                  (0, Log (LogWarning_RbwTooFewLines
                             (Z.of_nat (List.length lines)))
                        (echo_warning "rbw" response w1))
              end).
Proof.
  destruct (ConverseString_spec P "rbw" w) as (r & w1 & _ & _ & E & _).
  exists r, w1. split; [exact E|].
  unfold ConverseRbwValue. cbn [bind].
  rewrite (ConverseMultiple_reply_lines P budget_range "rbw" r [] w w1 E).
  cbn [bind app].
  destruct (reply_lines r) as [|l0 [|l1 ls]]; [reflexivity | reflexivity |].
  destruct (Z.ltb_spec (Z.of_nat (List.length (l0 :: l1 :: ls))) 2) as [H|H];
    [cbn [List.length] in H; lia|].
  reflexivity.
Qed.

(** The part of a log that a call has added. *)
Lemma ConverseString_log_grows (commandString : string) (w : world)
  (r : string) (w' : world) :
  ConverseString P commandString w = Ret (r, w') ->
  exists extra, w_log w' = w_log w ++ extra.
Proof.
  intros E. destruct (ConverseString_spec P commandString w)
    as (r0 & w0 & _ & extra & E0 & _ & _ & _ & Hlog & _).
  rewrite E in E0. injection E0 as <- <-. exists extra. exact Hlog.
Qed.

(** [echo_warning] only adds to the log. *)
Lemma echo_warning_log (commandString response : string) (w : world) :
  exists extra, w_log (echo_warning commandString response w) = w_log w ++ extra.
Proof.
  unfold echo_warning. destruct (lines_from EmptyString response) as [|l ls].
  - exists []. rewrite app_nil_r. reflexivity.
  - eexists. apply Log_if_fields.
Qed.

(** X9: in [ConverseSweep] the reply vector is not cleared between the
    "sweep start" and the "sweep stop" exchange: when the start exchange
    left at least one line and the stop exchange is rejected (more than one
    line), the warning about the stop value quotes the first line of the
    reply to the START command. *)
Theorem ConverseSweep_stop_warning_quotes_start_reply
  (sweepStart sweepStop : Z) (w w1 w2 : world) (r1 r2 first : string)
  (more : list string) :
  ConverseString P (sweep_start_command sweepStart) w = Ret (r1, w1) ->
  reply_lines r1 = first :: more ->
  ConverseString P (sweep_stop_command sweepStop)
    (Log_if (1 <? Z.of_nat (List.length (reply_lines r1)))
       (LogWarning_SweepStartRejected sweepStart first)
       (echo_warning (sweep_start_command sweepStart) r1 w1))
  = Ret (r2, w2) ->
  (1 < List.length (reply_lines r2))%nat ->
  exists changed start stop w',
    ConverseSweep P sweepStart sweepStop true w
    = Ret (changed, start, stop, w')
    /\ In (LogWarning_SweepStopRejected sweepStop first) (w_log w').
Proof.
  intros E1 Hr1 E2 Hn2. unfold ConverseSweep.
  fold (sweep_start_command sweepStart). fold (sweep_stop_command sweepStop).
  rewrite (ConverseMultiple_reply_lines P budget_range _ r1 [] w w1 E1).
  cbv beta iota delta [bind]. cbn [app].
  replace (nth 0 (reply_lines r1) EmptyString) with first
    by (rewrite Hr1; reflexivity).
  rewrite (ConverseMultiple_reply_lines P budget_range _ r2 _ _ w2 E2).
  cbv beta iota.
  replace (nth 0 (reply_lines r1 ++ reply_lines r2) EmptyString) with first
    by (rewrite Hr1; reflexivity).
  destruct (Z.ltb_spec 1 (Z.of_nat (List.length (reply_lines r2)))) as [_|H];
    [|lia].
  cbn [Log_if].
  set (w2' := Log (LogWarning_SweepStopRejected sweepStop first)
                (echo_warning (sweep_stop_command sweepStop) r2 w2)).
  destruct (ConverseString_spec P "sweep" w2')
    as (r3 & w3 & _ & extra & E3 & _ & _ & _ & Hlog3 & _).
  rewrite (ConverseMultiple_reply_lines P budget_range _ r3 [] w2' w3 E3).
  cbv beta iota.
  destruct (echo_warning_log "sweep" r3 w3) as (extra3 & Hecho).
  assert (Hin : In (LogWarning_SweepStopRejected sweepStop first)
                  (w_log (echo_warning "sweep" r3 w3))).
  { rewrite Hecho, Hlog3. unfold w2'. cbn [w_log Log].
    apply in_or_app. left. apply in_or_app. left.
    apply in_or_app. right. left. reflexivity. }
  destruct (Z.of_nat (List.length (reply_lines r3)) <? 1).
  - eexists _, _, _, _. split; [reflexivity|].
    cbn [w_log Log]. apply in_or_app. left. exact Hin.
  - destruct (sscanf_sweep P (nth 0 ([] ++ reply_lines r3) EmptyString)
                sweepStart sweepStop) as [s' t'].
    eexists _, _, _, _. split; [reflexivity | exact Hin].
Qed.

End Refined.


(** [ConverseRbwValue_reads_second_line] at the answer "600kHz". *)
Lemma ConverseRbwValue_reads_second_line_witness :
  exists w', ConverseRbwValue example_platform false 0 rbw_query_world
             = Ret (600000, w').
Proof.
  destruct (ConverseRbwValue_reads_second_line example_platform
              ltac:(cbn; lia) 0 rbw_query_world) as (response & w1 & E & M).
  assert (E' : exists w2,
    ConverseString example_platform "rbw" rbw_query_world
    = Ret (("rbw" ++ CRLF ++ "usage: rbw 0.2..850|auto" ++ CRLF
            ++ CRLF ++ "600kHz" ++ CRLF ++ "ch> ")%string, w2)).
  { eexists. vm_compute. reflexivity. }
  destruct E' as (w2 & E'). rewrite E' in E. injection E as <- <-.
  eexists. rewrite M. reflexivity.
Defined.

(** ** Resolution bandwidth *)

(** [echo_warning] sends nothing. *)
Lemma echo_warning_tx (commandString response : string) (w : world) :
  w_tx (echo_warning commandString response w) = w_tx w.
Proof.
  unfold echo_warning. destruct (lines_from EmptyString response) as [|l ls].
  - reflexivity.
  - apply Log_if_fields.
Qed.

(** C10: for every argument, [SetResolutionBandwidth] returns; the first
    thing it sends is the rbw command carrying the argument clamped into the
    limits, min(m_rbwMax, max(m_rbwMin, rbw)), which lies within
    [m_rbwMin, m_rbwMax] (the limits being ordered), and the second is the
    question "rbw"; the m_rbw it stores is read from the device's answer to
    that question: the number on the second kept line, times 1000 when the
    line says kHz, and 0 when the answer has fewer than two lines.  The
    clamped value itself is not stored. *)
Theorem SetResolutionBandwidth_sends_clamped
  (P : Platform) (budget_range : 0 <= MAX_RESPONSE_SIZE P < 2 ^ 64 - 1)
  (rbw : Z) (st : TinySA) (w : world) :
  let value := clamped_rbw st rbw in
  exists (sent answer : string) (w1 w2 : world) (st' : TinySA) (w' : world),
    SetResolutionBandwidth P rbw st w = Ret (st', w')
    /\ value = Z.min (m_rbwMax st) (Z.max (m_rbwMin st) rbw)
    /\ (m_rbwMin st <= m_rbwMax st -> m_rbwMin st <= value <= m_rbwMax st)
    /\ ConverseString P ("rbw " ++ to_string_kHz P value)%string w = Ret (sent, w1)
    /\ ConverseString P "rbw"
         (Log_if (1 <? Z.of_nat (List.length (reply_lines sent)))
            (LogWarning_RbwRejected value (nth 0 (reply_lines sent) EmptyString))
            (echo_warning ("rbw " ++ to_string_kHz P value)%string sent w1))
       = Ret (answer, w2)
    /\ w_tx w' = w_tx w ++ [rbw_command P value; ("rbw" ++ CRLF)%string]
    /\ st' = set_rbw (m_rbw st') st
    /\ m_rbw st'
       = match reply_lines answer with
         | _ :: line :: _ =>
             if contains line "kHz"
             then int64_wrap (sscanf_rbw P line * 1000)
             else sscanf_rbw P line
         | _ => 0
         end.
Proof.
  intros value.
  destruct (ConverseString_spec P ("rbw " ++ to_string_kHz P value)%string w)
    as (sent & w1 & _ & _ & E1 & T1 & _).
  set (w1' := Log_if (1 <? Z.of_nat (List.length (reply_lines sent)))
            (LogWarning_RbwRejected value (nth 0 (reply_lines sent) EmptyString))
            (echo_warning ("rbw " ++ to_string_kHz P value)%string sent w1)).
  destruct (ConverseString_spec P "rbw" w1')
    as (answer & w2 & _ & _ & E2 & T2 & _).
  assert (E : ConverseRbwValue P true value w
              = Ret (match reply_lines answer with
                     | _ :: line :: _ =>
                         (if contains line "kHz"
                          then int64_wrap (sscanf_rbw P line * 1000)
                          else sscanf_rbw P line,
                          echo_warning "rbw" answer w2)
                     | lines =>
                         (0, Log (LogWarning_RbwTooFewLines
                                    (Z.of_nat (List.length lines)))
                               (echo_warning "rbw" answer w2))
                     end)).
  { unfold ConverseRbwValue.
    rewrite (ConverseMultiple_reply_lines P budget_range _ sent [] w w1 E1).
    cbv beta iota delta [bind]. cbn [app]. fold w1'.
    rewrite (ConverseMultiple_reply_lines P budget_range "rbw" answer [] w1' w2 E2).
    cbv beta iota. cbn [app].
    destruct (reply_lines answer) as [|l0 [|l1 ls]]; [reflexivity | reflexivity |].
    destruct (Z.ltb_spec (Z.of_nat (List.length (l0 :: l1 :: ls))) 2) as [H|H];
      [cbn [List.length] in H; lia|].
    reflexivity. }
  assert (T : forall w3, w_tx w3 = w_tx w2 ->
              w_tx w3 = w_tx w ++ [rbw_command P value; ("rbw" ++ CRLF)%string]).
  { intros w3 ->. rewrite T2. unfold w1'.
    destruct (Log_if_fields (1 <? Z.of_nat (List.length (reply_lines sent)))
      (LogWarning_RbwRejected value (nth 0 (reply_lines sent) EmptyString))
      (echo_warning ("rbw " ++ to_string_kHz P value)%string sent w1)) as (_ & -> & _).
    rewrite echo_warning_tx, T1, <- app_assoc. reflexivity. }
  assert (S0 : SetResolutionBandwidth P rbw st w
               = '(v, w) <- ConverseRbwValue P true value w ;;
                 Ret (set_rbw v st, w)).
  { unfold SetResolutionBandwidth. cbn [m_rbw m_rbwMax m_rbwMin set_rbw].
    reflexivity. }
  rewrite S0, E. clear S0 E.
  exists sent, answer, w1, w2.
  destruct (reply_lines answer) as [|l0 [|l1 ls]]; cbn [bind];
    eexists; eexists; (split; [reflexivity|]);
    (split; [reflexivity|]); (split; [unfold value, clamped_rbw; lia|]);
    (split; [exact E1|]); (split; [exact E2|]);
    (split; [apply T; cbn [w_tx Log]; apply echo_warning_tx|]);
    split; reflexivity.
Qed.

(** [SetResolutionBandwidth_sends_clamped] at a request of 5 MHz on the base
    model, with a device that settles on another rbw than the one sent:
    600 kHz is sent, the device reports 300 kHz, and 300 kHz is stored. *)
Lemma SetResolutionBandwidth_sends_clamped_witness :
  exists st' w',
    SetResolutionBandwidth example_platform 5000000 (example_TinySA 2)
      rbw_adjusted_world
    = Ret (st', w')
    /\ w_tx w' = [("rbw 600.000000" ++ CRLF)%string; ("rbw" ++ CRLF)%string]
    /\ m_rbwMin (example_TinySA 2) <= m_rbwMax (example_TinySA 2)
    /\ 1 <= clamped_rbw (example_TinySA 2) 5000000 <= 600000
    /\ clamped_rbw (example_TinySA 2) 5000000 = 600000
    /\ m_rbw st' = 300000.
Proof.
  destruct (SetResolutionBandwidth_sends_clamped example_platform
              ltac:(cbn; lia) 5000000 (example_TinySA 2) rbw_adjusted_world)
    as (sent & answer & w1 & w2 & st' & w' & E & C & R & E1 & E2 & T & S & M).
  vm_compute in E1. injection E1 as <- <-.
  vm_compute in E2. injection E2 as <- <-.
  exists st', w'. split; [exact E|].
  split; [rewrite T; vm_compute; reflexivity|].
  split; [vm_compute; discriminate|].
  split; [apply R; vm_compute; discriminate|].
  split; [reflexivity|].
  rewrite M. vm_compute. reflexivity.
Defined.

(** [ConverseSweep_stop_warning_quotes_start_reply] at a device that
    accepts the start and rejects the stop with "bad value": the warning
    quotes the prompt that ended the reply to the start command. *)
Lemma ConverseSweep_stop_warning_quotes_start_reply_witness :
  exists changed start stop w',
    ConverseSweep example_platform 1000 99 true stop_rejected_world
    = Ret (changed, start, stop, w')
    /\ In (LogWarning_SweepStopRejected 99 "ch> ") (w_log w').
Proof.
  assert (E1 : exists w1,
    ConverseString example_platform (sweep_start_command 1000)
      stop_rejected_world
    = Ret (("sweep start 1000" ++ CRLF ++ "ch> ")%string, w1)).
  { eexists. vm_compute. reflexivity. }
  destruct E1 as (w1 & E1).
  assert (E2 : exists w2,
    ConverseString example_platform (sweep_stop_command 99)
      (Log_if (1 <? Z.of_nat (List.length
                 (reply_lines ("sweep start 1000" ++ CRLF ++ "ch> "))))
         (LogWarning_SweepStartRejected 1000 "ch> ")
         (echo_warning (sweep_start_command 1000)
            ("sweep start 1000" ++ CRLF ++ "ch> ") w1))
    = Ret (("sweep stop 99" ++ CRLF ++ "bad value" ++ CRLF ++ "ch> ")%string,
           w2)).
  { eexists. vm_compute in E1. injection E1 as <-. vm_compute. reflexivity. }
  destruct E2 as (w2 & E2).
  apply (ConverseSweep_stop_warning_quotes_start_reply example_platform
           ltac:(cbn; lia) 1000 99 stop_rejected_world w1 w2 _ _ "ch> " []
           E1 eq_refl E2).
  vm_compute. lia.
Defined.

(** ** Span and centre frequency *)

Section Span.

Variable P : Platform.

(** What a call that sets the sweep around a centre does, for [SetSpan] and
    [SetCenterFrequency] alike. *)
Lemma set_sweep_around_spec (freq span : Z) (st : TinySA) (w : world) :
  exists start stop w',
    ('(_, sweepStart, sweepStop, w) <-
       ConverseSweep P (requested_start st freq span)
         (requested_stop st freq span) true w ;;
     Ret (set_sweep sweepStart sweepStop st, w))
    = Ret (set_sweep start stop st, w')
    /\ w_tx w'
       = w_tx w
         ++ [(sweep_start_command (requested_start st freq span) ++ CRLF)%string;
             (sweep_stop_command (requested_stop st freq span) ++ CRLF)%string;
             ("sweep" ++ CRLF)%string].
Proof.
  destruct (ConverseSweep_spec P (requested_start st freq span)
              (requested_stop st freq span) true w)
    as (changed & s' & t' & w' & E & T & _).
  exists s', t', w'. rewrite E. split; [reflexivity | exact T].
Qed.

(** X10: [SetSpan] always returns; it asks the device for the span laid
    around the current centre, start clamped from below to m_freqMin and
    stop clamped from above to m_freqMax, then queries the sweep; of the
    instrument it changes m_sweepStart and m_sweepStop only. *)
Theorem SetSpan_sends_clamped_request (span : Z) (st : TinySA) (w : world) :
  exists st' w',
    SetSpan P span st w = Ret (st', w')
    /\ w_tx w'
       = w_tx w
         ++ [(sweep_start_command
                (requested_start st (GetCenterFrequency st) span) ++ CRLF)%string;
             (sweep_stop_command
                (requested_stop st (GetCenterFrequency st) span) ++ CRLF)%string;
             ("sweep" ++ CRLF)%string]
    /\ m_freqMin st <= requested_start st (GetCenterFrequency st) span
    /\ requested_stop st (GetCenterFrequency st) span <= m_freqMax st
    /\ set_sweep (m_sweepStart st) (m_sweepStop st) st' = st.
Proof.
  destruct (set_sweep_around_spec (GetCenterFrequency st) span st w)
    as (s' & t' & w' & E & T).
  exists (set_sweep s' t' st), w'.
  split; [exact E|]. split; [exact T|].
  unfold requested_start, requested_stop.
  split; [lia|]. split; [lia|]. destruct st; reflexivity.
Qed.

(** X11: [SetCenterFrequency] always returns; it asks the device for the
    current span laid around the new centre, start clamped from below to
    m_freqMin and stop clamped from above to m_freqMax, then queries the
    sweep; of the instrument it changes m_sweepStart and m_sweepStop
    only. *)
Theorem SetCenterFrequency_sends_clamped_request
  (freq : Z) (st : TinySA) (w : world) :
  exists st' w',
    SetCenterFrequency P freq st w = Ret (st', w')
    /\ w_tx w'
       = w_tx w
         ++ [(sweep_start_command
                (requested_start st freq (GetSpan st)) ++ CRLF)%string;
             (sweep_stop_command
                (requested_stop st freq (GetSpan st)) ++ CRLF)%string;
             ("sweep" ++ CRLF)%string]
    /\ m_freqMin st <= requested_start st freq (GetSpan st)
    /\ requested_stop st freq (GetSpan st) <= m_freqMax st
    /\ set_sweep (m_sweepStart st) (m_sweepStop st) st' = st.
Proof.
  destruct (set_sweep_around_spec freq (GetSpan st) st w)
    as (s' & t' & w' & E & T).
  exists (set_sweep s' t' st), w'.
  split; [exact E|]. split; [exact T|].
  unfold requested_start, requested_stop.
  split; [lia|]. split; [lia|]. destruct st; reflexivity.
Qed.

(** C++ integer division by 2, which rounds towards zero. *)
Lemma quot_2_bounds (x : Z) : 2 * Z.quot x 2 - 1 <= x <= 2 * Z.quot x 2 + 1.
Proof.
  pose proof (Z.quot_rem' x 2) as E.
  pose proof (Z.rem_bound_abs x 2 ltac:(lia)). lia.
Qed.

(** Half the sum and half the difference, both rounded down. *)
Lemma half_sum_diff (a b : Z) :
  (b + a) / 2 - (b - a) / 2 = a
  /\ (b + a) / 2 + (b - a) / 2 = b - (b - a) mod 2.
Proof.
  replace (b + a) with ((b - a) + a * 2) by lia.
  rewrite Z.div_add by lia.
  pose proof (Z.div_mod (b - a) 2 ltac:(lia)). lia.
Qed.

(** X12: for an ordered sweep whose sum of start and stop fits int64,
    [GetCenterFrequency] lies between m_sweepStart and m_sweepStop. *)
Theorem GetCenterFrequency_within_sweep (st : TinySA) :
  m_sweepStart st <= m_sweepStop st ->
  - 2 ^ 63 <= m_sweepStop st + m_sweepStart st < 2 ^ 63 ->
  m_sweepStart st <= GetCenterFrequency st <= m_sweepStop st.
Proof.
  intros Hle Hrange. unfold GetCenterFrequency.
  rewrite int64_wrap_id by exact Hrange.
  pose proof (quot_2_bounds (m_sweepStop st + m_sweepStart st)). lia.
Qed.

(** X13: setting the span to the current span (or the centre to the
    current centre: the two calls are the same) is not always the identity:
    within the limits, the request keeps the start, and the stop it asks for
    is the current stop when the span is even and one less when the span is
    odd, because both halves are integer divisions. *)
Theorem SetSpan_of_GetSpan_request (st : TinySA) (w : world) :
  0 <= m_sweepStart st <= m_sweepStop st ->
  m_sweepStop st < 2 ^ 62 ->
  m_freqMin st <= m_sweepStart st ->
  m_sweepStop st <= m_freqMax st ->
  exists st' w',
    SetSpan P (GetSpan st) st w = Ret (st', w')
    /\ SetCenterFrequency P (GetCenterFrequency st) st w = Ret (st', w')
    /\ w_tx w'
       = w_tx w
         ++ [(sweep_start_command (m_sweepStart st) ++ CRLF)%string;
             (sweep_stop_command
                (m_sweepStop st - (m_sweepStop st - m_sweepStart st) mod 2)
              ++ CRLF)%string;
             ("sweep" ++ CRLF)%string].
Proof.
  intros Hs Ht Hmin Hmax.
  destruct (set_sweep_around_spec (GetCenterFrequency st) (GetSpan st) st w)
    as (s' & t' & w' & E & T).
  exists (set_sweep s' t' st), w'.
  split; [exact E|]. split; [exact E|].
  rewrite T.
  assert (Hc : GetCenterFrequency st
               = (m_sweepStop st + m_sweepStart st) / 2).
  { unfold GetCenterFrequency. rewrite int64_wrap_id by lia.
    apply Z.quot_div_nonneg; lia. }
  assert (Hh : Z.quot (GetSpan st) 2
               = (m_sweepStop st - m_sweepStart st) / 2).
  { unfold GetSpan. rewrite int64_wrap_id by lia.
    apply Z.quot_div_nonneg; lia. }
  destruct (half_sum_diff (m_sweepStart st) (m_sweepStop st))
    as [Hsum Hdiff].
  assert (Hstart : requested_start st (GetCenterFrequency st) (GetSpan st)
                   = m_sweepStart st).
  { unfold requested_start. rewrite Hc, Hh, Hsum.
    rewrite int64_wrap_id by lia. lia. }
  assert (Hstop : requested_stop st (GetCenterFrequency st) (GetSpan st)
                  = m_sweepStop st - (m_sweepStop st - m_sweepStart st) mod 2).
  { unfold requested_stop. rewrite Hc, Hh, Hdiff.
    pose proof (Z.mod_pos_bound (m_sweepStop st - m_sweepStart st) 2
                  ltac:(lia)).
    rewrite int64_wrap_id by lia. lia. }
  rewrite Hstart, Hstop. reflexivity.
Qed.

End Span.

(** [GetCenterFrequency_within_sweep] at a sweep from 0 to 5. *)
Lemma GetCenterFrequency_within_sweep_witness :
  m_sweepStart odd_span_TinySA <= GetCenterFrequency odd_span_TinySA
  <= m_sweepStop odd_span_TinySA.
Proof.
  apply (GetCenterFrequency_within_sweep odd_span_TinySA); cbn; lia.
Defined.

(** [SetSpan_of_GetSpan_request] at a sweep from 0 to 5: setting the span
    to 5 asks for a stop of 4. *)
Lemma SetSpan_of_GetSpan_request_witness :
  exists st' w',
    SetSpan example_platform 5 odd_span_TinySA silent_world = Ret (st', w')
    /\ w_tx w' = [("sweep start 0" ++ CRLF)%string;
                  ("sweep stop 4" ++ CRLF)%string;
                  ("sweep" ++ CRLF)%string].
Proof.
  destruct (SetSpan_of_GetSpan_request example_platform odd_span_TinySA
              silent_world ltac:(cbn; lia) ltac:(cbn; lia) ltac:(cbn; lia)
              ltac:(cbn; lia)) as (st' & w' & E & _ & T).
  exists st', w'. split; [exact E | exact T].
Defined.

(** ** What an acquisition changes *)

(** The decoding loop touches nothing of the world but the log. *)
Lemma decode_loop_world (data : list ascii) (offset : Z) (count : nat) :
  forall (j : Z) (cap : Waveform) (w : world) (cap' : Waveform) (w' : world),
    decode_loop count j data offset cap w = Ret (cap', w') ->
    w_rx w' = w_rx w /\ w_tx w' = w_tx w /\ w_clock w' = w_clock w.
Proof.
  induction count as [|count IH]; intros j cap w cap' w' H;
    cbn [decode_loop] in H.
  - injection H as _ <-. repeat split.
  - destruct (vector_at data (size_t_wrap (1 + 3 * j))) as [d0|];
      [|discriminate H].
    destruct (vector_at data (size_t_wrap (2 + 3 * j))) as [d1|];
      [|discriminate H].
    destruct (vector_at data (size_t_wrap (3 + 3 * j))) as [d2|];
      [|discriminate H].
    cbn [bind] in H. apply IH in H. destruct H as (Hrx & Htx & Hclock).
    destruct (Log_if_fields (negb (Ascii.eqb d0 "x"))
                (LogWarning_InvalidPointHeader (uint8_of d0)) w)
      as (Lrx & Ltx & Lclock & _).
    split; [congruence|]. split; congruence.
Qed.

Section AcquireDataFrame.

Variable P : Platform.

(** What a call of [AcquireData] that returns has done. *)
Lemma AcquireData_inv (st : TinySA) (w : world) (ok : bool) (st' : TinySA)
  (w' : world) :
  AcquireData P st w = Ret (ok, st', w') ->
  exists read data w1,
    ConverseBinary P (scanraw_command st) []
      (size_t_wrap (m_sampleDepth st * 3 + 2)) w = Ret (read, data, w1)
    /\ w_rx w' = w_rx w1 /\ w_tx w' = w_tx w1 /\ w_clock w' = w_clock w1
    /\ (if ok
        then read = size_t_wrap (m_sampleDepth st * 3 + 2)
             /\ m_sampleDepth st <> 0
             /\ (exists s, m_pendingWaveforms st' = m_pendingWaveforms st ++ [s])
             /\ m_triggerArmed st'
                = (if m_triggerOneShot st then false else m_triggerArmed st)
        else read <> size_t_wrap (m_sampleDepth st * 3 + 2) /\ st' = st)
    /\ set_pendingWaveforms (m_pendingWaveforms st)
         (set_triggerArmed (m_triggerArmed st)
            (set_channels (m_channels st) st')) = st
    /\ List.length (m_channels st') = List.length (m_channels st)
    /\ (m_channels st' = m_channels st
        \/ exists peaks, m_channels st' = m_channels (set_peaks 0 peaks st)).
Proof.
  intros H. unfold AcquireData in H.
  destruct (ConverseBinary P (scanraw_command st) []
              (size_t_wrap (m_sampleDepth st * 3 + 2)) w)
    as [[[read data] w1]|] eqn:HCB; [|discriminate H].
  exists read, data, w1. split; [reflexivity|].
  cbn [bind] in H.
  destruct (Z.eqb_spec read (size_t_wrap (m_sampleDepth st * 3 + 2)))
    as [Hread|Hread]; cbn [negb] in H.
  2:{ injection H as <- <- <-. cbn [w_rx w_tx w_clock Log].
      repeat (split; [reflexivity|]). split; [split; [exact Hread|reflexivity]|].
      split; [destruct st; reflexivity|]. split; [reflexivity|].
      left. reflexivity. }
  destruct (Z.eqb_spec (m_sampleDepth st) 0) as [H0|H0]; [discriminate H|].
  destruct (vector_at data 0) as [first|]; [|discriminate H].
  cbn [bind] in H.
  destruct (vector_at data _) as [last|]; [|discriminate H].
  cbn [bind] in H.
  match type of H with
  | context [decode_loop ?c ?j data ?o ?cap0 ?wb] =>
      destruct (decode_loop c j data o cap0 wb) as [[cap w2]|] eqn:Ed;
        [|discriminate H];
        apply decode_loop_world in Ed; destruct Ed as (Drx & Dtx & Dclock)
  end.
  cbn [bind] in H.
  destruct (vector_at (m_channels st) 0) as [ch0|] eqn:Hch; [|discriminate H].
  cbn [bind] in H.
  destruct (fill_SequenceSet _ _ _ _ _ _) as [s|]; [|discriminate H].
  cbn [bind] in H. injection H as <- <- <-.
  cbn [w_rx w_tx w_clock Log].
  rewrite Drx, Dtx, Dclock.
  repeat match goal with
         | |- context [Log_if ?b ?e ?w0] =>
             let L := fresh "L" in
             pose proof (Log_if_fields b e w0) as L;
             destruct L as (-> & -> & -> & _)
         end.
  split; [reflexivity|]. split; [reflexivity|]. split; [reflexivity|].
  unfold set_peaks, map_channel.
  destruct (nth_error (m_channels st) 0) as [c|] eqn:Hn.
  - split.
    { split; [exact Hread|]. split; [exact H0|].
      destruct st as [? ? ? ? ? ? ? ? ? ? ? ? ? ? ? os ?]; cbn in *.
      destruct os; cbn;
        (split; [eexists; reflexivity | reflexivity]). }
    split.
    { destruct st as [? ? ? ? ? ? ? ? ? ? ? ? ? ? ? os ?]; cbn in *.
      destruct os; reflexivity. }
    assert (Hl : List.length (vector_set (m_channels st) 0
                   (mkSpectrumChannel (ch_hwname c) (ch_color c) (ch_index c)
                      (ch_enabled c) (ch_voltageRange c) (ch_offset c)
                      (FindPeaks P cap 10 500000)))
                 = List.length (m_channels st)) by apply vector_set_length.
    split.
    { destruct st as [? ? ? ? ? ? ? ? ? ? ? ? ? ? ? os ?]; cbn in *.
      destruct os; exact Hl. }
    right. exists (FindPeaks P cap 10 500000).
    destruct st as [? ? ? ? ? ? ? ? ? ? ? ? ? ? ? os ?]; cbn in *.
    destruct os; reflexivity.
  - split.
    { split; [exact Hread|]. split; [exact H0|].
      destruct st as [? ? ? ? ? ? ? ? ? ? ? ? ? ? ? os ?]; cbn in *.
      destruct os; cbn;
        (split; [eexists; reflexivity | reflexivity]). }
    split.
    { destruct st as [? ? ? ? ? ? ? ? ? ? ? ? ? ? ? os ?]; cbn in *.
      destruct os; reflexivity. }
    split.
    { destruct st as [? ? ? ? ? ? ? ? ? ? ? ? ? ? ? os ?]; cbn in *.
      destruct os; reflexivity. }
    left. destruct st as [? ? ? ? ? ? ? ? ? ? ? ? ? ? ? os ?]; cbn in *.
    destruct os; reflexivity.
Qed.

End AcquireDataFrame.

Section AcquireDataTotal.

Variable P : Platform.

(** On a one-channel instrument with a positive depth whose read size fits
    [size_t], [AcquireData] returns. *)
Lemma AcquireData_total (st : TinySA) (w : world) (N : Z)
  (ch : SpectrumChannel) :
  m_sampleDepth st = N -> 0 < N -> 3 * N + 2 < 2 ^ 64 ->
  m_channels st = [ch] ->
  exists ok st' w', AcquireData P st w = Ret (ok, st', w').
Proof.
  intros Hn Hpos Hb Hch.
  destruct (ConverseBinary_spec P (scanraw_command st) (3 * N + 2) w)
    as (read & data & w1 & extra & HCB & _).
  destruct (Z.eq_dec read (3 * N + 2)) as [->|Hne].
  - destruct (AcquireData_full_read P st w N ch data w1 Hn Hpos Hb Hch HCB)
      as (samples & st' & w2 & ex & E & _).
    eexists _, _, _. exact E.
  - eexists _, _, _.
    apply (AcquireData_wrong_count P st w N read data w1 Hn ltac:(lia) Hb HCB
             Hne).
Qed.

(** X14: on a one-channel instrument with a positive sample depth whose
    read size fits [size_t], [AcquireData] returns (no undefined behaviour)
    whatever the device does, and it has sent exactly one command: the
    scanraw command with a line end. *)
Theorem AcquireData_sends_one_command (st : TinySA) (w : world) (N : Z)
  (ch : SpectrumChannel) :
  m_sampleDepth st = N -> 0 < N -> 3 * N + 2 < 2 ^ 64 ->
  m_channels st = [ch] ->
  exists ok st' w',
    AcquireData P st w = Ret (ok, st', w')
    /\ w_tx w' = w_tx w ++ [(scanraw_command st ++ CRLF)%string].
Proof.
  intros Hn Hpos Hb Hch.
  destruct (AcquireData_total st w N ch Hn Hpos Hb Hch) as (ok & st' & w' & E).
  exists ok, st', w'. split; [exact E|].
  destruct (AcquireData_inv P st w ok st' w' E)
    as (read & data & w1 & HCB & _ & Htx & _).
  destruct (ConverseBinary_spec P (scanraw_command st)
              (size_t_wrap (m_sampleDepth st * 3 + 2)) w)
    as (read' & data' & w1' & extra & HCB' & Htx' & _).
  rewrite HCB in HCB'. injection HCB' as <- <- <-.
  rewrite Htx. exact Htx'.
Qed.


(** X16: with a sample depth of 0 the read size is 2, and when the device
    delivers those two bytes [AcquireData] goes on to divide the sweep width
    by a sample count of 0: an integer division by zero. *)
Theorem AcquireData_zero_depth_divides_by_zero (st : TinySA) (w : world)
  (data : list ascii) (w1 : world) :
  m_sampleDepth st = 0 ->
  ConverseBinary P (scanraw_command st) [] 2 w = Ret (2, data, w1) ->
  AcquireData P st w = Fault DivisionByZero.
Proof.
  intros Hn HCB. unfold AcquireData. rewrite Hn.
  change (size_t_wrap (0 * 3 + 2)) with 2. rewrite HCB. reflexivity.
Qed.

(** X17: every sample depth that [GetSampleDepthsNonInterleaved] offers
    is one on which [AcquireData] returns, on a one-channel instrument and
    whatever the device does. *)
Theorem AcquireData_accepts_offered_depths (st : TinySA) (w : world)
  (ch : SpectrumChannel) :
  In (m_sampleDepth st) GetSampleDepthsNonInterleaved ->
  m_channels st = [ch] ->
  exists ok st' w', AcquireData P st w = Ret (ok, st', w').
Proof.
  intros Hin Hch.
  apply (AcquireData_total st w (m_sampleDepth st) ch eq_refl); [| |exact Hch];
    unfold GetSampleDepthsNonInterleaved in Hin; cbn [In] in Hin;
    repeat (destruct Hin as [<-|Hin]; [lia|]); destruct Hin.
Qed.

End AcquireDataTotal.


(** [AcquireData_sends_one_command] at a complete two point scan. *)
Lemma AcquireData_sends_one_command_witness :
  exists ok st' w',
    AcquireData example_platform (example_TinySA 2) good_scan_world
    = Ret (ok, st', w')
    /\ w_tx w' = ["scanraw 0 6000000 2" ++ CRLF]%string.
Proof.
  apply (AcquireData_sends_one_command example_platform (example_TinySA 2)
           good_scan_world 2 _ eq_refl ltac:(lia) ltac:(lia) eq_refl).
Defined.


(** [AcquireData_zero_depth_divides_by_zero] at a device that answers a
    scan of no points with the two brackets. *)
Lemma AcquireData_zero_depth_divides_by_zero_witness :
  AcquireData example_platform (example_TinySA 0) empty_scan_world
  = Fault DivisionByZero.
Proof.
  assert (HCB : exists data w1,
    ConverseBinary example_platform (scanraw_command (example_TinySA 0)) [] 2
      empty_scan_world = Ret (2, data, w1)).
  { eexists _, _. vm_compute. reflexivity. }
  destruct HCB as (data & w1 & HCB).
  apply (AcquireData_zero_depth_divides_by_zero example_platform
           (example_TinySA 0) empty_scan_world data w1 eq_refl HCB).
Defined.

(** [AcquireData_accepts_offered_depths] at a depth of 1000. *)
Lemma AcquireData_accepts_offered_depths_witness :
  exists ok st' w',
    AcquireData example_platform (example_TinySA 1000) silent_world
    = Ret (ok, st', w').
Proof.
  apply (AcquireData_accepts_offered_depths example_platform
           (example_TinySA 1000) silent_world
           (mkSpectrumChannel "CH1" "#ffff00" 0 true 130 50 [])).
  - cbn. tauto.
  - reflexivity.
Defined.

(** ** Complete scans *)

(** A block read of as many bytes as the device delivers back to back. *)
Lemma take_run_exact (bs : list ascii) (tail : list rx_event) :
  take_run (List.length bs) (map Rx bs ++ tail) = (bs, tail).
Proof.
  induction bs as [|b bs IH]; cbn [List.length map app take_run].
  - destruct tail; reflexivity.
  - rewrite IH. reflexivity.
Qed.

Lemma ReadRawData_run (payload buf : list ascii) (w : world)
  (tail : list rx_event) :
  payload <> [] ->
  w_rx w = map Rx payload ++ tail ->
  List.length buf = List.length payload ->
  ReadRawData (Z.of_nat (List.length payload)) buf w
  = (Z.of_nat (List.length payload), payload,
     {| w_rx := tail; w_clock := w_clock w; w_tx := w_tx w;
        w_log := w_log w |}).
Proof.
  intros Hne Hrx Hlen. unfold ReadRawData. rewrite Hrx, Nat2Z.id.
  destruct payload as [|b bs]; [congruence|].
  change (map Rx (b :: bs) ++ tail) with (Rx b :: (map Rx bs ++ tail)).
  cbv beta iota.
  change (Rx b :: (map Rx bs ++ tail)) with (map Rx (b :: bs) ++ tail).
  rewrite take_run_exact.
  rewrite skipn_all2 by lia. rewrite app_nil_r. reflexivity.
Qed.

Section BinaryComplete.

Variable P : Platform.
Hypothesis budget_range : 0 <= MAX_RESPONSE_SIZE P < 2 ^ 64 - 1.

(** The header phase of [ConverseBinary] on a header that ends with its
    first line end. *)
Lemma ConverseBinary_loop_header (q : string) :
  forall (p : string) (fuel : nat) (commandString : string) (len : Z)
         (start : Q) (bytesRead dataRead : Z) (data : list ascii) (w : world)
         (tail : list rx_event),
    q <> EmptyString ->
    w_rx w = script q ++ tail ->
    0 <= bytesRead ->
    bytesRead + Z.of_nat (String.length q) <= MAX_RESPONSE_SIZE P ->
    ends_with (p ++ q) (EOL_STRING P) = true ->
    (forall p' q', q = (p' ++ q')%string ->
       p' <> EmptyString -> q' <> EmptyString ->
       ends_with (p ++ p') (EOL_STRING P) = false) ->
    ConverseBinary_loop P (String.length q + fuel) commandString len start
      true false p bytesRead dataRead data w
    = ConverseBinary_loop P fuel commandString len start false false
        EmptyString (bytesRead + Z.of_nat (String.length q)) dataRead data
        (Log_if (negb (prefix commandString (p ++ q)))
           (LogWarning_UnexpectedResponse (p ++ q) commandString)
           {| w_rx := tail; w_clock := w_clock w; w_tx := w_tx w;
              w_log := w_log w |}).
Proof.
  induction q as [|c q IH]; intros p fuel commandString len start bytesRead
    dataRead data w tail Hne Hrx Hb Hmax Hend Hfirst; [congruence|].
  cbn [String.length Nat.add ConverseBinary_loop orb].
  unfold ReadRawData_1.
  change (script (String c q)) with (Rx c :: script q) in Hrx.
  rewrite Hrx. cbn [app].
  cbn [String.length] in Hmax.
  rewrite size_t_wrap_id by lia.
  destruct (MAX_RESPONSE_SIZE P <? bytesRead + 1) eqn:M;
    [apply Z.ltb_lt in M; lia|].
  rewrite <- (push_char_append p q c) in Hend |- *.
  destruct q as [|c' q].
  - rewrite append_empty_r in Hend |- *. rewrite Hend.
    cbn [String.length Nat.add]. replace (bytesRead + Z.of_nat 1)
      with (bytesRead + 1) by lia.
    reflexivity.
  - assert (Hnot : ends_with (push_char p c) (EOL_STRING P) = false).
    { unfold push_char.
      apply (Hfirst (String c EmptyString) (String c' q));
        [reflexivity | discriminate | discriminate]. }
    rewrite Hnot.
    rewrite (IH (push_char p c) fuel commandString len start (bytesRead + 1)
               dataRead data
               {| w_rx := script (String c' q) ++ tail; w_clock := w_clock w;
                  w_tx := w_tx w; w_log := w_log w |} tail).
    + cbn [w_clock w_tx w_log]. f_equal. lia.
    + discriminate.
    + reflexivity.
    + lia.
    + lia.
    + exact Hend.
    + intros p' q' Hpq Hp' Hq'.
      rewrite (push_char_append p p' c).
      apply (Hfirst (String c p') q');
        [cbn; rewrite Hpq; reflexivity | discriminate | exact Hq'].
Qed.

(** The footer phase of [ConverseBinary] on a footer that ends with its
    first prompt. *)
Lemma ConverseBinary_loop_footer (q : string) :
  forall (p : string) (fuel : nat) (commandString : string) (len : Z)
         (start : Q) (bytesRead dataRead : Z) (data : list ascii) (w : world)
         (tail : list rx_event),
    q <> EmptyString ->
    w_rx w = script q ++ tail ->
    0 <= bytesRead ->
    bytesRead + Z.of_nat (String.length q) <= MAX_RESPONSE_SIZE P ->
    ends_with (p ++ q) (TRAILER_STRING P) = true ->
    (forall p' q', q = (p' ++ q')%string ->
       p' <> EmptyString -> q' <> EmptyString ->
       ends_with (p ++ p') (TRAILER_STRING P) = false) ->
    (String.length q <= fuel)%nat ->
    ConverseBinary_loop P fuel commandString len start false true p bytesRead
      dataRead data w
    = Ret (dataRead, data,
           {| w_rx := tail; w_clock := w_clock w; w_tx := w_tx w;
              w_log := w_log w |}).
Proof.
  induction q as [|c q IH]; intros p fuel commandString len start bytesRead
    dataRead data w tail Hne Hrx Hb Hmax Hend Hfirst Hfuel; [congruence|].
  destruct fuel as [|fuel]; [cbn in Hfuel; lia|].
  cbn [ConverseBinary_loop orb].
  unfold ReadRawData_1.
  change (script (String c q)) with (Rx c :: script q) in Hrx.
  rewrite Hrx. cbn [app].
  cbn [String.length] in Hmax, Hfuel.
  rewrite size_t_wrap_id by lia.
  destruct (MAX_RESPONSE_SIZE P <? bytesRead + 1) eqn:M;
    [apply Z.ltb_lt in M; lia|].
  rewrite <- (push_char_append p q c) in Hend.
  destruct q as [|c' q].
  - rewrite append_empty_r in Hend. rewrite Hend. reflexivity.
  - assert (Hnot : ends_with (push_char p c) (TRAILER_STRING P) = false).
    { unfold push_char.
      apply (Hfirst (String c EmptyString) (String c' q));
        [reflexivity | discriminate | discriminate]. }
    rewrite Hnot.
    rewrite (IH (push_char p c) fuel commandString len start (bytesRead + 1)
               dataRead data
               {| w_rx := script (String c' q) ++ tail; w_clock := w_clock w;
                  w_tx := w_tx w; w_log := w_log w |} tail).
    + reflexivity.
    + discriminate.
    + reflexivity.
    + lia.
    + lia.
    + exact Hend.
    + intros p' q' Hpq Hp' Hq'.
      rewrite (push_char_append p p' c).
      apply (Hfirst (String c p') q');
        [cbn; rewrite Hpq; reflexivity | discriminate | exact Hq'].
    + lia.
Qed.

(** [ConverseBinary] on a device that delivers a complete framed response. *)
Lemma ConverseBinary_on_script
  (commandString header footer : string) (payload : list ascii) (w : world)
  (rest : list rx_event) :
  w_rx w = script header ++ map Rx payload ++ script footer ++ rest ->
  first_ends_with header (EOL_STRING P) ->
  first_ends_with footer (TRAILER_STRING P) ->
  payload <> [] ->
  Z.of_nat (List.length payload) < 2 ^ 64 ->
  Z.of_nat (String.length header + String.length footer)
    <= MAX_RESPONSE_SIZE P ->
  ConverseBinary P commandString [] (Z.of_nat (List.length payload)) w
  = Ret (Z.of_nat (List.length payload), payload,
         Log_if (negb (prefix commandString header))
           (LogWarning_UnexpectedResponse header commandString)
           (world_after w commandString rest)).
Proof.
  intros Hrx (Hhne & Hhend & Hhfirst) (Hfne & Hfend & Hffirst) Hpne Hplen Hmax.
  unfold ConverseBinary. cbn [w_rx SendCommand].
  replace (List.length (w_rx w) + 2)%nat
    with (String.length header
          + S (List.length payload + String.length footer
               + List.length rest + 1))%nat
    by (rewrite Hrx, !length_app, !script_length, length_map; lia).
  rewrite (ConverseBinary_loop_header header EmptyString _ commandString _ _
             0 0 _ (SendCommand (commandString ++ CRLF) w)
             (map Rx payload ++ script footer ++ rest) Hhne Hrx
             ltac:(lia) ltac:(lia) Hhend Hhfirst).
  cbn [append w_clock w_tx w_log SendCommand GetTime].
  set (wH := Log_if _ _ _).
  assert (HwH : w_rx wH = map Rx payload ++ script footer ++ rest
                /\ w_clock wH = w_clock w
                /\ w_tx wH = w_tx w ++ [(commandString ++ CRLF)%string]).
  { unfold wH.
    match goal with
    | |- context [Log_if ?b ?e ?w0] =>
        destruct (Log_if_fields b e w0) as (-> & -> & -> & _)
    end. repeat split. }
  destruct HwH as (Hrx' & Hclock' & Htx').
  cbn [ConverseBinary_loop orb].
  rewrite (ReadRawData_run payload (resize (Z.of_nat (List.length payload)) [])
             wH (script footer ++ rest) Hpne Hrx').
  2:{ unfold resize. rewrite length_app, firstn_nil, repeat_length, Nat2Z.id.
      cbn. lia. }
  rewrite size_t_wrap_id by lia. cbn [Z.add].
  rewrite Z.leb_refl.
  rewrite (ConverseBinary_loop_footer footer EmptyString
             (List.length payload + String.length footer
              + List.length rest + 1) commandString _ _
             (0 + Z.of_nat (String.length header)) _ _
             {| w_rx := script footer ++ rest; w_clock := w_clock wH;
                w_tx := w_tx wH; w_log := w_log wH |} rest Hfne eq_refl
             ltac:(lia) ltac:(lia) Hfend Hffirst ltac:(lia)).
  cbn [w_clock w_tx w_log]. f_equal. f_equal.
  unfold wH, world_after.
  destruct (negb (prefix commandString header)); reflexivity.
Qed.

(** X18: when the device delivers, back to back, a header whose last
    byte completes the first line end, then exactly [length] payload bytes,
    then a footer whose last byte completes the first prompt, header and
    footer together within the budget, [ConverseBinary] returns [length],
    the buffer holds exactly the payload, what follows the footer is left
    unread, and the only log entry is a warning in case the header does not
    start with the command. *)
Theorem ConverseBinary_complete_response
  (commandString header footer : string) (payload : list ascii) (w : world)
  (rest : list rx_event) :
  w_rx w = script header ++ map Rx payload ++ script footer ++ rest ->
  first_ends_with header (EOL_STRING P) ->
  first_ends_with footer (TRAILER_STRING P) ->
  payload <> [] ->
  Z.of_nat (List.length payload) < 2 ^ 64 ->
  Z.of_nat (String.length header + String.length footer)
    <= MAX_RESPONSE_SIZE P ->
  ConverseBinary P commandString [] (Z.of_nat (List.length payload)) w
  = Ret (Z.of_nat (List.length payload), payload,
         Log_if (negb (prefix commandString header))
           (LogWarning_UnexpectedResponse header commandString)
           (world_after w commandString rest)).
Proof. apply ConverseBinary_on_script. Qed.

End BinaryComplete.

Section CompleteScan.

Variable P : Platform.
Hypothesis budget_range : 0 <= MAX_RESPONSE_SIZE P < 2 ^ 64 - 1.

(** X19: a complete scan from end to end: when the device answers the
    scanraw command with a header line, 3N+2 payload bytes and the prompt,
    [AcquireData] returns true and appends one SequenceSet with one waveform
    of N samples, sample k being decoded from payload bytes 2+3k and 3+3k;
    it sent the one command and read the response to its end. *)
Theorem AcquireData_complete_scan
  (st : TinySA) (w : world) (N : Z) (ch : SpectrumChannel)
  (header footer : string) (payload : list ascii) (rest : list rx_event) :
  m_sampleDepth st = N -> 0 < N -> 3 * N + 2 < 2 ^ 64 ->
  m_channels st = [ch] -> ch_enabled ch = true ->
  w_rx w = script header ++ map Rx payload ++ script footer ++ rest ->
  first_ends_with header (EOL_STRING P) ->
  first_ends_with footer (TRAILER_STRING P) ->
  Z.of_nat (List.length payload) = 3 * N + 2 ->
  Z.of_nat (String.length header + String.length footer)
    <= MAX_RESPONSE_SIZE P ->
  exists st' w' cap,
    AcquireData P st w = Ret (true, st', w')
    /\ m_pendingWaveforms st' = m_pendingWaveforms st ++ [[(0, cap)]]
    /\ List.length (m_samples cap) = Z.to_nat N
    /\ (forall k, 0 <= k < N ->
          nth (Z.to_nat k) (m_samples cap) 0%Q
          = decode_value (payload_byte payload (3 + 3 * k))
                         (payload_byte payload (2 + 3 * k))
                         (m_modelDbmOffset st))
    /\ w_rx w' = rest
    /\ w_tx w' = w_tx w ++ [(scanraw_command st ++ CRLF)%string].
Proof.
  intros Hn Hpos Hb Hch Hen Hrx Hh Hf Hlen Hmax.
  assert (Hpne : payload <> []).
  { intros ->. cbn [List.length] in Hlen. lia. }
  pose proof (ConverseBinary_on_script P budget_range (scanraw_command st)
                header footer payload w rest Hrx Hh Hf Hpne ltac:(lia) Hmax)
    as HCB.
  rewrite Hlen in HCB.
  set (w1 := Log_if _ _ _) in HCB.
  destruct (AcquireData_full_read P st w N ch payload w1 Hn Hpos Hb Hch HCB)
    as (samples & st' & w2 & extra & E & Hq & _ & Hl & Hs & _).
  rewrite Hen in Hq.
  eexists st', _, _. split; [exact E|]. split; [exact Hq|].
  split; [exact Hl|]. split; [exact Hs|].
  destruct (AcquireData_inv P st w _ _ _ E)
    as (read' & data' & w1' & HCB' & Irx & Itx & _).
  rewrite Hn in HCB'. replace (N * 3 + 2) with (3 * N + 2) in HCB' by lia.
  rewrite size_t_wrap_id in HCB' by lia.
  rewrite HCB in HCB'. injection HCB' as <- <- <-.
  rewrite Irx, Itx. unfold w1.
  match goal with
  | |- context [Log_if ?b ?e ?w0] =>
      destruct (Log_if_fields b e w0) as (-> & -> & _)
  end.
  split; reflexivity.
Qed.

End CompleteScan.

Section SampleRange.

Variable P : Platform.

(** The range of [decode_value] on two bytes. *)
Lemma decode_value_range (data2 data1 : ascii) (offset : Z) :
  (- inject_Z offset
   <= decode_value (uint8_of data2) (uint8_of data1) offset
   < 2048 - inject_Z offset)%Q.
Proof.
  pose proof (uint8_of_range data1). pose proof (uint8_of_range data2).
  rewrite decode_value_as_fraction.
  set (x := uint8_of data2 * 256 + uint8_of data1) in *.
  assert (Hx : 0 <= x < 65536) by (unfold x; lia).
  clearbody x.
  unfold Qle, Qlt, Qminus, Qplus, Qopp, inject_Z. cbn [Qnum Qden].
  lia.
Qed.

(** X20: every sample of a waveform that [AcquireData] publishes lies in
    [-m_modelDbmOffset, 2048 - m_modelDbmOffset): two payload bytes over 32,
    less the offset. *)
Theorem AcquireData_sample_range
  (st : TinySA) (w : world) (N : Z) (ch : SpectrumChannel) (st' : TinySA)
  (w' : world) :
  m_sampleDepth st = N -> 0 < N -> 3 * N + 2 < 2 ^ 64 ->
  m_channels st = [ch] -> ch_enabled ch = true ->
  AcquireData P st w = Ret (true, st', w') ->
  exists cap,
    m_pendingWaveforms st' = m_pendingWaveforms st ++ [[(0, cap)]]
    /\ forall k, 0 <= k < N ->
         (- inject_Z (m_modelDbmOffset st)
          <= nth (Z.to_nat k) (m_samples cap) 0
          < 2048 - inject_Z (m_modelDbmOffset st))%Q.
Proof.
  intros Hn Hpos Hb Hch Hen H.
  destruct (ConverseBinary_spec P (scanraw_command st) (3 * N + 2) w)
    as (read & data & w1 & extra & HCB & _).
  destruct (Z.eq_dec read (3 * N + 2)) as [->|Hne].
  2:{ rewrite (AcquireData_wrong_count P st w N read data w1 Hn ltac:(lia) Hb
                 HCB Hne) in H. discriminate H. }
  destruct (AcquireData_full_read P st w N ch data w1 Hn Hpos Hb Hch HCB)
    as (samples & st'' & w2 & ex & E & Hq & _ & _ & Hs & _).
  rewrite E in H. injection H as <- _. rewrite Hen in Hq.
  eexists. split; [exact Hq|].
  intros k Hk. cbn [m_samples]. rewrite (Hs k Hk).
  apply decode_value_range.
Qed.

End SampleRange.

(** [ConverseBinary_complete_response] at a complete two point scan. *)
Lemma ConverseBinary_complete_response_witness :
  ConverseBinary example_platform "scanraw 0 6000000 2" [] 8 good_scan_world
  = Ret (8, good_payload,
         world_after good_scan_world "scanraw 0 6000000 2" []).
Proof.
  apply (ConverseBinary_complete_response example_platform ltac:(cbn; lia)
           "scanraw 0 6000000 2" ("scanraw 0 6000000 2" ++ CRLF) "ch> "
           good_payload good_scan_world []).
  - reflexivity.
  - apply first_ends_withb_sound. reflexivity.
  - apply first_ends_withb_sound. reflexivity.
  - discriminate.
  - cbn. lia.
  - cbn. lia.
Defined.

(** [AcquireData_complete_scan] at a complete two point scan: the values
    0x0201 and 0x0403 over 32, less 128. *)
Lemma AcquireData_complete_scan_witness :
  exists st' w' cap,
    AcquireData example_platform (example_TinySA 2) good_scan_world
    = Ret (true, st', w')
    /\ m_pendingWaveforms st' = [[(0, cap)]]
    /\ m_samples cap = [(513 # 32) - 128; (1027 # 32) - 128]%Q
    /\ w_rx w' = [].
Proof.
  assert (Hh : first_ends_with ("scanraw 0 6000000 2" ++ CRLF)
                 (EOL_STRING example_platform))
    by (apply first_ends_withb_sound; reflexivity).
  assert (Hf : first_ends_with "ch> " (TRAILER_STRING example_platform))
    by (apply first_ends_withb_sound; reflexivity).
  destruct (AcquireData_complete_scan example_platform ltac:(cbn; lia)
              (example_TinySA 2) good_scan_world 2 _
              ("scanraw 0 6000000 2" ++ CRLF) "ch> " good_payload []
              eq_refl ltac:(lia) ltac:(lia) eq_refl eq_refl eq_refl
              Hh Hf eq_refl ltac:(cbn; lia))
    as (st' & w' & cap & E & Hq & Hl & Hs & Hrx & _).
  exists st', w', cap. split; [exact E|]. split; [exact Hq|].
  split; [|exact Hrx].
  pose proof (Hs 0 ltac:(lia)) as H0. pose proof (Hs 1 ltac:(lia)) as H1.
  change (Z.to_nat 0) with 0%nat in H0. change (Z.to_nat 1) with 1%nat in H1.
  destruct (m_samples cap) as [|a [|b [|c l]]]; try discriminate Hl.
  cbn [nth] in H0, H1. rewrite H0, H1. vm_compute. reflexivity.
Defined.

(** [AcquireData_sample_range] at a complete two point scan on the base
    model. *)
Lemma AcquireData_sample_range_witness :
  exists st' w' cap,
    AcquireData example_platform (example_TinySA 2) good_scan_world
    = Ret (true, st', w')
    /\ m_pendingWaveforms st' = [[(0, cap)]]
    /\ forall k, 0 <= k < 2 ->
         (- (128 # 1) <= nth (Z.to_nat k) (m_samples cap) 0 < 2048 - (128 # 1))%Q.
Proof.
  assert (E : exists st' w',
    AcquireData example_platform (example_TinySA 2) good_scan_world
    = Ret (true, st', w')).
  { eexists _, _. vm_compute. reflexivity. }
  destruct E as (st' & w' & E).
  destruct (AcquireData_sample_range example_platform (example_TinySA 2)
              good_scan_world 2 _ st' w' eq_refl ltac:(lia) ltac:(lia)
              eq_refl eq_refl E) as (cap & Hq & Hr).
  exists st', w', cap. split; [exact E|]. split; [exact Hq | exact Hr].
Defined.

(** ** Construction *)

Section Construction.

Variable P : Platform.

(** What [ConverseSingle] and a query of the rbw send. *)
Lemma ConverseSingle_tx (commandString : string) (w : world) :
  exists r w',
    ConverseSingle P commandString w = Ret (r, w')
    /\ w_tx w' = w_tx w ++ [(commandString ++ CRLF)%string].
Proof.
  unfold ConverseSingle.
  destruct (ConverseString_spec P commandString w)
    as (r & w1 & _ & _ & E & Htx & _).
  rewrite E. cbn [bind].
  destruct (getline (stringstream_of r) EmptyString) as [[ss1 l1] ok1].
  destruct (getline ss1 (RemoveCR l1)) as [[ss2 l2] ok2].
  eexists _, _. split; [reflexivity|].
  match goal with
  | |- context [Log_if ?b ?e ?w0] =>
      destruct (Log_if_fields b e w0) as (_ & -> & _)
  end.
  exact Htx.
Qed.

Lemma ConverseRbwValue_query_tx (value : Z) (w : world) :
  exists v w',
    ConverseRbwValue P false value w = Ret (v, w')
    /\ w_tx w' = w_tx w ++ [("rbw" ++ CRLF)%string].
Proof.
  unfold ConverseRbwValue. cbn [bind].
  destruct (ConverseMultiple_spec P "rbw" [] w) as (n & lines & w1 & E & Htx).
  rewrite E. cbn [bind].
  destruct (n <? 2); eexists _, _; (split; [reflexivity | exact Htx]).
Qed.

(** What the constructor leaves behind, and what it has sent. *)
Lemma TinySA_ctor_spec (blank : TinySA) (w : world) :
  exists st w',
    TinySA_ctor P blank w = Ret (st, w')
    /\ ((st = blank
         /\ w_tx w' = w_tx w ++ [("version" ++ CRLF)%string])
        \/ (m_vendor st = "tinySA"%string
            /\ m_fwVersion st <> EmptyString
            /\ m_tinySAModel st
               = (if contains (m_model st) "ULTRA" then TINY_SA_ULTRA
                  else TINY_SA)
            /\ m_sampleDepth st = 1000
            /\ (m_channels blank = [] ->
                m_channels st
                = [mkSpectrumChannel "CH1" "#ffff00" 0 false 130 50 []])
            /\ m_pendingWaveforms st = m_pendingWaveforms blank
            /\ w_tx w'
               = w_tx w ++ [("version" ++ CRLF)%string;
                            ("info" ++ CRLF)%string;
                            ("sweep" ++ CRLF)%string;
                            ("rbw" ++ CRLF)%string])).
Proof.
  unfold TinySA_ctor.
  destruct (ConverseSingle_tx "version" w) as (version & w1 & E1 & T1).
  rewrite E1. cbn [bind].
  destruct (String.eqb version EmptyString) eqn:Ev.
  { eexists _, _. split; [reflexivity|]. left.
    split; [reflexivity | exact T1]. }
  destruct (ConverseSingle_tx "info" w1) as (model & w2 & E2 & T2).
  rewrite E2. cbn [bind].
  match goal with
  | |- context [ConverseSweep P ?a ?b false w2] =>
      destruct (ConverseSweep_spec P a b false w2)
        as (r & s1 & s2 & w3 & E3 & T3 & _)
  end.
  rewrite E3. cbn [bind].
  destruct (ConverseRbwValue_query_tx 0 w3) as (rbw & w4 & E4 & T4).
  rewrite E4. cbn [bind].
  eexists _, _. split; [reflexivity|]. right.
  assert (Hv : version <> EmptyString).
  { intros ->. discriminate Ev. }
  assert (Htx : w_tx w4
                = w_tx w ++ [("version" ++ CRLF)%string;
                             ("info" ++ CRLF)%string;
                             ("sweep" ++ CRLF)%string;
                             ("rbw" ++ CRLF)%string]).
  { rewrite T4, T3, T2, T1. cbn [app]. rewrite <- !app_assoc. reflexivity. }
  unfold SetChannelOffset, SetChannelVoltageRange, map_channel.
  destruct blank as [? ? ? ? chs ? ? ? ? ? ? ? ? ? ? ? ?].
  destruct (contains model "ULTRA") eqn:Hm; destruct chs as [|c0 chs];
    cbn; rewrite ?Hm;
    repeat (split; [first [reflexivity | exact Hv | exact Htx
                          | intros Hch; try discriminate Hch; reflexivity]|]);
    exact Htx.
Qed.

(** X21: the constructor always returns, and it only asks: it has sent
    either "version" alone (when it gives up) or "version", "info", "sweep"
    and "rbw" in this order; it never sends a command that sets a value. *)
Theorem TinySA_ctor_only_queries (blank : TinySA) (w : world) :
  exists st w',
    TinySA_ctor P blank w = Ret (st, w')
    /\ (w_tx w' = w_tx w ++ [("version" ++ CRLF)%string]
        \/ w_tx w'
           = w_tx w ++ [("version" ++ CRLF)%string;
                        ("info" ++ CRLF)%string;
                        ("sweep" ++ CRLF)%string;
                        ("rbw" ++ CRLF)%string]).
Proof.
  destruct (TinySA_ctor_spec blank w) as (st & w' & E & [[_ T]|H]).
  - exists st, w'. split; [exact E|]. left. exact T.
  - exists st, w'. split; [exact E|]. right.
    destruct H as (_ & _ & _ & _ & _ & _ & T). exact T.
Qed.

(** X22: on an object without channels the constructor either gives up
    and leaves the object as it was, or leaves an instrument of vendor
    "tinySA" with a non-empty firmware version, the model flag that matches
    the presence of "ULTRA" in the model text, a sample depth of 1000 (one
    of the depths offered), one channel "CH1" of colour #ffff00 and index 0
    with range 130 and offset 50, and the waveform queue untouched. *)
Theorem TinySA_ctor_postcondition (blank st : TinySA) (w w' : world) :
  m_channels blank = [] ->
  TinySA_ctor P blank w = Ret (st, w') ->
  st = blank
  \/ (m_vendor st = "tinySA"%string
      /\ m_fwVersion st <> EmptyString
      /\ m_tinySAModel st
         = (if contains (m_model st) "ULTRA" then TINY_SA_ULTRA else TINY_SA)
      /\ m_sampleDepth st = 1000
      /\ In (m_sampleDepth st) GetSampleDepthsNonInterleaved
      /\ (exists ch,
            m_channels st = [ch]
            /\ ch_hwname ch = "CH1"%string /\ ch_color ch = "#ffff00"%string
            /\ ch_index ch = 0
            /\ ch_voltageRange ch = 130 /\ ch_offset ch = 50)
      /\ m_pendingWaveforms st = m_pendingWaveforms blank).
Proof.
  intros Hch H.
  destruct (TinySA_ctor_spec blank w) as (st0 & w0 & E & Hs).
  rewrite H in E. injection E as <- <-.
  destruct Hs as [[Hb _]|(Hv & Hf & Hm & Hd & Hc & Hp & _)];
    [left; exact Hb | right].
  split; [exact Hv|]. split; [exact Hf|]. split; [exact Hm|].
  split; [exact Hd|]. split; [rewrite Hd; cbn; tauto|].
  split; [|exact Hp].
  eexists. split; [exact (Hc Hch)|]. repeat split.
Qed.

(** X23: an instrument that the constructor has set up (on an object
    without channels) meets what [AcquireData] needs: on it [AcquireData]
    returns, whatever the device does. *)
Theorem constructed_TinySA_acquires (blank st : TinySA) (w w' : world) :
  m_channels blank = [] ->
  TinySA_ctor P blank w = Ret (st, w') ->
  st <> blank ->
  forall w2, exists ok st2 w3, AcquireData P st w2 = Ret (ok, st2, w3).
Proof.
  intros Hch H Hne w2.
  destruct (TinySA_ctor_spec blank w) as (st0 & w0 & E & Hs).
  rewrite H in E. injection E as <- <-.
  destruct Hs as [[Hb _]|(_ & _ & _ & Hd & Hc & _)]; [contradiction|].
  apply (AcquireData_total P st w2 1000 _ Hd ltac:(lia) ltac:(lia) (Hc Hch)).
Qed.

End Construction.

(** [TinySA_ctor_postcondition] at a device that answers as a base-model
    tinySA. *)
Lemma TinySA_ctor_postcondition_witness :
  exists st w',
    TinySA_ctor example_platform blank_TinySA boot_world = Ret (st, w')
    /\ m_fwVersion st = "tinySA_v1.4-143-g864bb27"%string
    /\ m_model st = "tinySA v0.3"%string
    /\ m_tinySAModel st = TINY_SA
    /\ m_sampleDepth st = 1000
    /\ exists ch, m_channels st = [ch] /\ ch_hwname ch = "CH1"%string
                  /\ ch_voltageRange ch = 130 /\ ch_offset ch = 50.
Proof.
  assert (E : exists st w',
    TinySA_ctor example_platform blank_TinySA boot_world = Ret (st, w')
    /\ st <> blank_TinySA
    /\ m_fwVersion st = "tinySA_v1.4-143-g864bb27"%string
    /\ m_model st = "tinySA v0.3"%string).
  { eexists _, _. split; [vm_compute; reflexivity|].
    split; [discriminate|]. split; reflexivity. }
  destruct E as (st & w' & E & Hne & Hfw & Hmodel).
  exists st, w'. split; [exact E|]. split; [exact Hfw|].
  split; [exact Hmodel|].
  destruct (TinySA_ctor_postcondition example_platform blank_TinySA st
              boot_world w' eq_refl E)
    as [Hb|(_ & _ & Hm & Hd & _ & (ch & Hc & Hname & _ & _ & Hr & Ho) & _)];
    [contradiction|].
  rewrite Hmodel in Hm.
  split; [exact Hm|]. split; [exact Hd|].
  exists ch. split; [exact Hc|]. split; [exact Hname|].
  split; [exact Hr | exact Ho].
Defined.

(** [constructed_TinySA_acquires] at the instrument set up from a
    base-model tinySA, then acquiring from a silent device. *)
Lemma constructed_TinySA_acquires_witness :
  exists st w',
    TinySA_ctor example_platform blank_TinySA boot_world = Ret (st, w')
    /\ exists ok st2 w3,
         AcquireData example_platform st silent_world = Ret (ok, st2, w3).
Proof.
  assert (E : exists st w',
    TinySA_ctor example_platform blank_TinySA boot_world = Ret (st, w')
    /\ st <> blank_TinySA).
  { eexists _, _. split; [vm_compute; reflexivity | discriminate]. }
  destruct E as (st & w' & E & Hne).
  exists st, w'. split; [exact E|].
  apply (constructed_TinySA_acquires example_platform blank_TinySA st
           boot_world w' eq_refl E Hne).
Defined.

(** ** A silent device; single and multiple lines *)

Section Silent.

Variable P : Platform.

(** The header phase of [ConverseBinary] on a device that stays quiet. *)
Lemma ConverseBinary_loop_quiet (times : list Q) :
  forall (fuel : nat) (commandString : string) (len : Z) (start : Q)
         (result : string) (bytesRead dataRead : Z) (data : list ascii)
         (w : world),
    w_rx w = map Quiet times ->
    (List.length times < fuel)%nat ->
    exists w',
      ConverseBinary_loop P fuel commandString len start true false result
        bytesRead dataRead data w = Ret (dataRead, data, w')
      /\ w_tx w' = w_tx w
      /\ w_log w' = w_log w ++ [LogError_Timeout].
Proof.
  induction times as [|t times IH]; intros fuel commandString len start result
    bytesRead dataRead data w Hrx Hfuel;
    (destruct fuel as [|fuel]; [cbn in Hfuel; lia|]);
    cbn [ConverseBinary_loop orb]; unfold ReadRawData_1; rewrite Hrx;
    cbn [map].
  - unfold deadline_passed. rewrite Hrx.
    destruct (timeout_exit_fields P start w) as (_ & Ftx & Flog).
    eexists. split; [reflexivity|]. split; [exact Ftx | exact Flog].
  - set (w1 := {| w_rx := map Quiet times; w_clock := t; w_tx := w_tx w;
                  w_log := w_log w |}).
    destruct (deadline_passed P start w1).
    + destruct (timeout_exit_fields P start w1) as (_ & Ftx & Flog).
      eexists. split; [reflexivity|]. split; [exact Ftx | exact Flog].
    + apply (IH fuel commandString len start result bytesRead dataRead data
               w1 eq_refl).
      cbn in Hfuel. lia.
Qed.

(** X24: on a device that never answers, [AcquireData] returns false and
    leaves the instrument as it was, having sent the scanraw command once
    and logged the timeout and then the byte count 0 against the 3N+2
    expected. *)
Theorem AcquireData_silent_device (st : TinySA) (w : world) (N : Z)
  (times : list Q) :
  m_sampleDepth st = N -> 0 <= N -> 3 * N + 2 < 2 ^ 64 ->
  w_rx w = map Quiet times ->
  exists w',
    AcquireData P st w = Ret (false, st, w')
    /\ w_tx w' = w_tx w ++ [(scanraw_command st ++ CRLF)%string]
    /\ w_log w'
       = w_log w ++ [LogError_Timeout;
                     LogError_InvalidByteCount 0 (3 * N + 2)].
Proof.
  intros Hn H0 Hb Hrx.
  destruct (ConverseBinary_loop_quiet times
              (List.length (w_rx (SendCommand (scanraw_command st ++ CRLF) w))
               + 2)
              (scanraw_command st) (3 * N + 2)
              (GetTime (SendCommand (scanraw_command st ++ CRLF) w))
              EmptyString 0 0 (resize (3 * N + 2) [])
              (SendCommand (scanraw_command st ++ CRLF) w) Hrx)
    as (w1 & E & Etx & Elog).
  { cbn [w_rx SendCommand]. rewrite Hrx, length_map. lia. }
  fold (ConverseBinary P (scanraw_command st) [] (3 * N + 2) w) in E.
  rewrite (AcquireData_wrong_count P st w N 0 _ w1 Hn H0 Hb E ltac:(lia)).
  eexists. split; [reflexivity|]. cbn [w_tx w_log Log SendCommand] in *.
  split; [exact Etx|]. rewrite Elog, <- app_assoc. reflexivity.
Qed.

Hypothesis budget_range : 0 <= MAX_RESPONSE_SIZE P < 2 ^ 64 - 1.

(** X25: when the response has a line end and [ConverseSingle] returns a
    non-empty answer, that answer is the first line [ConverseMultiple]
    reports for the same exchange, and both leave the same world (the same
    warning about the echo, or none). *)
Theorem ConverseSingle_agrees_with_ConverseMultiple
  (commandString response line1 rest : string) (w w1 : world) :
  ConverseString P commandString w = Ret (response, w1) ->
  split_line response = (line1, Some rest) ->
  forall (r : string) (w' : world),
    ConverseSingle P commandString w = Ret (r, w') ->
    r <> EmptyString ->
    exists more,
      ConverseMultiple P commandString [] w
      = Ret (Z.of_nat (S (List.length more)), r :: more, w').
Proof.
  intros E Hsp r w' HS Hr.
  destruct (ConverseSingle_with_line_end P commandString w)
    as (response' & w1' & E' & H).
  rewrite E in E'. injection E' as <- <-.
  destruct (H line1 rest Hsp) as [HS' _].
  rewrite HS in HS'. injection HS' as -> ->.
  rewrite (ConverseMultiple_reply_lines P budget_range commandString response
             [] w w1 E).
  unfold reply_lines, echo_warning, second_line in *.
  rewrite (lines_from_split response), Hsp. cbn [tl append app].
  clear H HS. rewrite Hsp in Hr. cbv beta iota in Hr.
  rewrite (lines_from_split rest).
  destruct (split_line rest) as [line2 [rest2|]]; cbn [fst] in Hr |- *.
  - cbn [append map filter].
    destruct (String.eqb (RemoveCR line2) EmptyString) eqn:Ee;
      [apply String.eqb_eq in Ee; contradiction|].
    cbn [negb]. eexists. reflexivity.
  - cbn [append].
    destruct (String.eqb line2 EmptyString) eqn:E2.
    { apply String.eqb_eq in E2. subst line2. exfalso. apply Hr. reflexivity. }
    cbn [map filter].
    destruct (String.eqb (RemoveCR line2) EmptyString) eqn:Ee;
      [apply String.eqb_eq in Ee; contradiction|].
    cbn [negb]. exists []. reflexivity.
Qed.

End Silent.

(** [AcquireData_silent_device] at a two point scan and three quiet
    polls. *)
Lemma AcquireData_silent_device_witness :
  exists w',
    AcquireData example_platform (example_TinySA 2) silent_world
    = Ret (false, example_TinySA 2, w')
    /\ w_tx w' = [("scanraw 0 6000000 2" ++ CRLF)%string]
    /\ w_log w' = [LogError_Timeout; LogError_InvalidByteCount 0 8].
Proof.
  apply (AcquireData_silent_device example_platform (example_TinySA 2)
           silent_world 2 [1%Q; 3%Q; 6%Q] eq_refl ltac:(lia) ltac:(lia)
           eq_refl).
Defined.

(** [ConverseSingle_agrees_with_ConverseMultiple] at the answer to
    "rbw". *)
Lemma ConverseSingle_agrees_with_ConverseMultiple_witness :
  exists w',
    ConverseSingle example_platform "rbw" rbw_query_world
    = Ret ("usage: rbw 0.2..850|auto"%string, w')
    /\ exists more,
         ConverseMultiple example_platform "rbw" [] rbw_query_world
         = Ret (Z.of_nat (S (List.length more)),
                "usage: rbw 0.2..850|auto"%string :: more, w').
Proof.
  assert (E : exists w1,
    ConverseString example_platform "rbw" rbw_query_world
    = Ret (("rbw" ++ CRLF ++ "usage: rbw 0.2..850|auto" ++ CRLF
            ++ CRLF ++ "600kHz" ++ CRLF ++ "ch> ")%string, w1)).
  { eexists. vm_compute. reflexivity. }
  destruct E as (w1 & E).
  assert (S1 : exists w',
    ConverseSingle example_platform "rbw" rbw_query_world
    = Ret ("usage: rbw 0.2..850|auto"%string, w')).
  { eexists. vm_compute. reflexivity. }
  destruct S1 as (w' & S1).
  exists w'. split; [exact S1|].
  apply (ConverseSingle_agrees_with_ConverseMultiple example_platform
           ltac:(cbn; lia) "rbw" _ _ _ rbw_query_world w1 E eq_refl _ w' S1).
  discriminate.
Defined.

(** ** Payloads that arrive in bursts *)

(** A block read takes the bytes that arrive back to back and stops at a
    quiet poll, or at the end of what the device delivers. *)
Lemma take_run_until_quiet (bs : list ascii) (t : Q) (tail : list rx_event) :
  forall n, (List.length bs <= n)%nat ->
    take_run n (map Rx bs ++ Quiet t :: tail) = (bs, Quiet t :: tail).
Proof.
  induction bs as [|b bs IH]; intros n Hn; cbn [List.length map app].
  - destruct n; reflexivity.
  - destruct n as [|n]; [cbn in Hn; lia|].
    cbn [take_run]. rewrite IH by (cbn in Hn; lia). reflexivity.
Qed.

Lemma ReadRawData_burst (chunk buf : list ascii) (len : Z) (t : Q) (w : world)
  (tail : list rx_event) :
  chunk <> [] ->
  w_rx w = map Rx chunk ++ Quiet t :: tail ->
  Z.of_nat (List.length chunk) <= len ->
  ReadRawData len buf w
  = (Z.of_nat (List.length chunk), chunk ++ skipn (List.length chunk) buf,
     {| w_rx := Quiet t :: tail; w_clock := w_clock w; w_tx := w_tx w;
        w_log := w_log w |}).
Proof.
  intros Hne Hrx Hlen. unfold ReadRawData. rewrite Hrx.
  destruct chunk as [|b bs]; [congruence|].
  change (map Rx (b :: bs) ++ Quiet t :: tail)
    with (Rx b :: (map Rx bs ++ Quiet t :: tail)).
  cbv beta iota.
  change (Rx b :: (map Rx bs ++ Quiet t :: tail))
    with (map Rx (b :: bs) ++ Quiet t :: tail).
  rewrite take_run_until_quiet by lia. reflexivity.
Qed.

Lemma take_run_to_end (bs : list ascii) :
  forall n, (List.length bs <= n)%nat -> take_run n (map Rx bs) = (bs, []).
Proof.
  induction bs as [|b bs IH]; intros n Hn; cbn [List.length map].
  - destruct n; reflexivity.
  - destruct n as [|n]; [cbn in Hn; lia|].
    cbn [take_run]. rewrite IH by (cbn in Hn; lia). reflexivity.
Qed.

Lemma ReadRawData_to_end (bs buf : list ascii) (len : Z) (w : world) :
  bs <> [] ->
  w_rx w = map Rx bs ->
  Z.of_nat (List.length bs) <= len ->
  ReadRawData len buf w
  = (Z.of_nat (List.length bs), bs ++ skipn (List.length bs) buf,
     {| w_rx := []; w_clock := w_clock w; w_tx := w_tx w;
        w_log := w_log w |}).
Proof.
  intros Hne Hrx Hlen. unfold ReadRawData. rewrite Hrx.
  destruct bs as [|b bs]; [congruence|].
  change (map Rx (b :: bs)) with (Rx b :: map Rx bs).
  cbv beta iota.
  change (Rx b :: map Rx bs) with (map Rx (b :: bs)).
  rewrite take_run_to_end by lia. reflexivity.
Qed.

(** The zero filling of a fresh buffer beyond its first [n] bytes. *)
Lemma skipn_resize_empty (n m : nat) :
  skipn n (resize (Z.of_nat (n + m)) []) = repeat zero m.
Proof.
  unfold resize. rewrite firstn_nil, Nat2Z.id. cbn [app List.length].
  rewrite Nat.sub_0_r, repeat_app, skipn_app, repeat_length, Nat.sub_diag.
  rewrite skipn_all2 by (rewrite repeat_length; lia). reflexivity.
Qed.

Section Bursts.

Variable P : Platform.
Hypothesis budget_range : 0 <= MAX_RESPONSE_SIZE P < 2 ^ 64 - 1.

(** While the device has more to deliver, the deadline is the clock's. *)
Lemma deadline_passed_pending (start : Q) (w : world) :
  w_rx w <> [] ->
  deadline_passed P start w
  = Qle_bool (COMMUNICATION_TIMEOUT P) (GetTime w - start).
Proof.
  unfold deadline_passed. destruct (w_rx w); [congruence | reflexivity].
Qed.

(** X26: [ConverseBinary] hands every block read the start of the buffer:
    when the payload arrives in two bursts, each followed by a quiet poll
    within the timeout, the call returns the full [length] and logs no
    error, but the second burst has overwritten the beginning of the first:
    the buffer holds the second burst, then what the first burst and the
    zero filling held beyond it. *)
Theorem ConverseBinary_second_read_overwrites
  (commandString header footer : string) (chunk1 chunk2 : list ascii)
  (t1 t2 : Q) (w : world) (rest : list rx_event) :
  w_rx w = script header ++ map Rx chunk1 ++ Quiet t1
           :: map Rx chunk2 ++ Quiet t2 :: script footer ++ rest ->
  first_ends_with header (EOL_STRING P) ->
  first_ends_with footer (TRAILER_STRING P) ->
  chunk1 <> [] -> chunk2 <> [] ->
  Z.of_nat (List.length chunk1 + List.length chunk2) < 2 ^ 64 ->
  Z.of_nat (String.length header + String.length footer)
    <= MAX_RESPONSE_SIZE P ->
  (0 < COMMUNICATION_TIMEOUT P)%Q ->
  (t1 - w_clock w < COMMUNICATION_TIMEOUT P)%Q ->
  (t2 - w_clock w < COMMUNICATION_TIMEOUT P)%Q ->
  ConverseBinary P commandString []
    (Z.of_nat (List.length chunk1 + List.length chunk2)) w
  = Ret (Z.of_nat (List.length chunk1 + List.length chunk2),
         chunk2 ++ skipn (List.length chunk2)
                     (chunk1 ++ repeat zero (List.length chunk2)),
         Log_if (negb (prefix commandString header))
           (LogWarning_UnexpectedResponse header commandString)
           {| w_rx := rest; w_clock := t2;
              w_tx := w_tx w ++ [(commandString ++ CRLF)%string];
              w_log := w_log w |}).
Proof.
  intros Hrx (Hhne & Hhend & Hhfirst) (Hfne & Hfend & Hffirst) Hc1 Hc2 Hlen
    Hmax HT Ht1 Ht2.
  assert (Late : forall t, (t - w_clock w < COMMUNICATION_TIMEOUT P)%Q ->
            Qle_bool (COMMUNICATION_TIMEOUT P) (t - w_clock w) = false).
  { intros t Ht. destruct (Qle_bool _ _) eqn:E; [|reflexivity].
    apply Qle_bool_iff in E. lra. }
  set (len := Z.of_nat (List.length chunk1 + List.length chunk2)) in *.
  unfold ConverseBinary. cbn [w_rx SendCommand GetTime w_clock].
  replace (List.length (w_rx w) + 2)%nat
    with (String.length header
          + S (S (S (S (String.length footer + List.length chunk1
                        + List.length chunk2 + List.length rest)))))%nat
    by (rewrite Hrx; repeat (rewrite ?length_app, ?script_length, ?length_map;
                             cbn [List.length]); lia).
  rewrite (ConverseBinary_loop_header P budget_range header EmptyString _
             commandString _ _ 0 0 _ (SendCommand (commandString ++ CRLF) w)
             (map Rx chunk1 ++ Quiet t1
              :: map Rx chunk2 ++ Quiet t2 :: script footer ++ rest)
             Hhne Hrx ltac:(lia) ltac:(lia) Hhend Hhfirst).
  cbn [append w_clock w_tx w_log SendCommand].
  set (b := negb (prefix commandString header)).
  set (e := LogWarning_UnexpectedResponse header commandString).
  assert (Hbuf : List.length (resize len []) = Z.to_nat len).
  { unfold resize. rewrite length_app, firstn_nil, repeat_length. cbn. lia. }
  (* first burst *)
  cbn [ConverseBinary_loop orb].
  match goal with
  | |- context [ReadRawData len ?buf (Log_if b e ?w0)] =>
      rewrite (ReadRawData_burst chunk1 buf len t1 (Log_if b e w0)
                 (map Rx chunk2 ++ Quiet t2 :: script footer ++ rest) Hc1);
        [| destruct b; reflexivity | unfold len; lia]
  end.
  rewrite size_t_wrap_id by (unfold len; lia).
  assert (Hl2 : (0 < List.length chunk2)%nat).
  { destruct chunk2; [congruence | cbn; lia]. }
  destruct (Z.leb_spec len (0 + Z.of_nat (List.length chunk1))) as [Hbad|_];
    [unfold len in Hbad; lia|].
  rewrite deadline_passed_pending by discriminate.
  cbn [w_rx GetTime w_clock].
  replace (w_clock (Log_if b e _)) with (w_clock w)
    by (destruct b; reflexivity).
  rewrite (Late (w_clock w)) by lra.
  (* the quiet poll *)
  cbn [ConverseBinary_loop orb].
  unfold ReadRawData at 1. cbn [w_rx].
  rewrite size_t_wrap_id by (unfold len; lia).
  destruct (Z.leb_spec len (0 + Z.of_nat (List.length chunk1) + 0))
    as [Hbad|_]; [unfold len in Hbad; lia|].
  rewrite deadline_passed_pending
    by (cbn [w_rx]; destruct chunk2; [congruence | discriminate]).
  cbn [w_rx GetTime w_clock]. rewrite (Late t1 Ht1).
  (* second burst *)
  cbn [ConverseBinary_loop orb].
  match goal with
  | |- context [ReadRawData len ?buf ?w0] =>
      rewrite (ReadRawData_burst chunk2 buf len t2 w0
                 (script footer ++ rest) Hc2);
        [| reflexivity | unfold len; lia]
  end.
  rewrite size_t_wrap_id by (unfold len; lia).
  destruct (Z.leb_spec len (0 + Z.of_nat (List.length chunk1) + 0
                            + Z.of_nat (List.length chunk2))) as [_|Hbad];
    [|unfold len in Hbad; lia].
  (* the quiet poll before the footer *)
  cbn [ConverseBinary_loop orb]. unfold ReadRawData_1 at 1. cbn [w_rx].
  rewrite deadline_passed_pending
    by (cbn [w_rx]; destruct footer; [congruence | discriminate]).
  cbn [w_rx GetTime w_clock]. rewrite (Late t2 Ht2).
  rewrite (ConverseBinary_loop_footer P budget_range footer EmptyString
             (String.length footer + List.length chunk1
              + List.length chunk2 + List.length rest) commandString _ _
             (0 + Z.of_nat (String.length header)) _ _ _ rest Hfne);
    [| reflexivity | lia | lia | exact Hfend | exact Hffirst | lia].
  cbn [w_clock w_tx w_log].
  f_equal. f_equal.
  - unfold len at 1. rewrite skipn_resize_empty. f_equal. unfold len. lia.
  - destruct b; reflexivity.
Qed.

(** X27: [ConverseBinary] asks every block read for the full [length]:
    when the payload arrives in two bursts and the footer follows the
    second at once (and fits the request), the second read takes the footer
    as payload, the count returned exceeds [length] by the size of the
    footer, and the call ends in the timeout waiting for a footer that was
    already read. *)
Theorem ConverseBinary_second_read_takes_prompt
  (commandString header footer : string) (chunk1 chunk2 : list ascii)
  (t1 : Q) (w : world) :
  w_rx w = script header ++ map Rx chunk1 ++ Quiet t1
           :: map Rx chunk2 ++ script footer ->
  first_ends_with header (EOL_STRING P) ->
  chunk1 <> [] -> chunk2 <> [] ->
  (String.length footer <= List.length chunk1)%nat ->
  Z.of_nat (List.length chunk1 + List.length chunk2 + String.length footer)
    < 2 ^ 64 ->
  Z.of_nat (String.length header) <= MAX_RESPONSE_SIZE P ->
  (0 < COMMUNICATION_TIMEOUT P)%Q ->
  (t1 - w_clock w < COMMUNICATION_TIMEOUT P)%Q ->
  exists data w',
    ConverseBinary P commandString []
      (Z.of_nat (List.length chunk1 + List.length chunk2)) w
    = Ret (Z.of_nat (List.length chunk1 + List.length chunk2)
           + Z.of_nat (String.length footer), data, w')
    /\ w_rx w' = []
    /\ In LogError_Timeout (w_log w').
Proof.
  intros Hrx (Hhne & Hhend & Hhfirst) Hc1 Hc2 Hroom Hlen Hmax HT Ht1.
  assert (Late : forall t, (t - w_clock w < COMMUNICATION_TIMEOUT P)%Q ->
            Qle_bool (COMMUNICATION_TIMEOUT P) (t - w_clock w) = false).
  { intros t Ht. destruct (Qle_bool _ _) eqn:E; [|reflexivity].
    apply Qle_bool_iff in E. lra. }
  set (len := Z.of_nat (List.length chunk1 + List.length chunk2)) in *.
  unfold ConverseBinary. cbn [w_rx SendCommand GetTime w_clock].
  replace (List.length (w_rx w) + 2)%nat
    with (String.length header
          + S (S (S (S (String.length footer + List.length chunk1
                        + List.length chunk2 - 1)))))%nat
    by (rewrite Hrx; repeat (rewrite ?length_app, ?script_length, ?length_map;
                             cbn [List.length]);
        destruct chunk1; [congruence | cbn [List.length]; lia]).
  rewrite (ConverseBinary_loop_header P budget_range header EmptyString _
             commandString _ _ 0 0 _ (SendCommand (commandString ++ CRLF) w)
             (map Rx chunk1 ++ Quiet t1 :: map Rx chunk2 ++ script footer)
             Hhne Hrx ltac:(lia) ltac:(lia) Hhend Hhfirst).
  cbn [append w_clock w_tx w_log SendCommand].
  set (b := negb (prefix commandString header)).
  set (e := LogWarning_UnexpectedResponse header commandString).
  assert (Hl2 : (0 < List.length chunk2)%nat).
  { destruct chunk2; [congruence | cbn; lia]. }
  (* first burst *)
  cbn [ConverseBinary_loop orb].
  match goal with
  | |- context [ReadRawData len ?buf (Log_if b e ?w0)] =>
      rewrite (ReadRawData_burst chunk1 buf len t1 (Log_if b e w0)
                 (map Rx chunk2 ++ script footer) Hc1);
        [| destruct b; reflexivity | unfold len; lia]
  end.
  rewrite size_t_wrap_id by (unfold len; lia).
  destruct (Z.leb_spec len (0 + Z.of_nat (List.length chunk1))) as [Hbad|_];
    [unfold len in Hbad; lia|].
  rewrite deadline_passed_pending by discriminate.
  cbn [w_rx GetTime w_clock].
  replace (w_clock (Log_if b e _)) with (w_clock w)
    by (destruct b; reflexivity).
  rewrite (Late (w_clock w)) by lra.
  (* the quiet poll *)
  cbn [ConverseBinary_loop orb].
  unfold ReadRawData at 1. cbn [w_rx].
  rewrite size_t_wrap_id by (unfold len; lia).
  destruct (Z.leb_spec len (0 + Z.of_nat (List.length chunk1) + 0))
    as [Hbad|_]; [unfold len in Hbad; lia|].
  rewrite deadline_passed_pending
    by (cbn [w_rx]; destruct chunk2; [congruence | discriminate]).
  cbn [w_rx GetTime w_clock]. rewrite (Late t1 Ht1).
  (* second read: the rest of the payload and the footer *)
  assert (Hfl : List.length (list_ascii_of_string footer)
                = String.length footer).
  { rewrite <- (script_length footer). unfold script.
    rewrite length_map. reflexivity. }
  cbn [ConverseBinary_loop orb].
  match goal with
  | |- context [ReadRawData len ?buf ?w0] =>
      rewrite (ReadRawData_to_end (chunk2 ++ list_ascii_of_string footer)
                 buf len w0);
        [| destruct chunk2; [congruence | discriminate]
         | cbn [w_rx]; unfold script; rewrite map_app; reflexivity
         | rewrite length_app, Hfl; unfold len; lia ]
  end.
  rewrite length_app, Hfl.
  rewrite size_t_wrap_id by (unfold len; lia).
  destruct (Z.leb_spec len
              (0 + Z.of_nat (List.length chunk1) + 0
               + Z.of_nat (List.length chunk2 + String.length footer)))
    as [_|Hbad]; [|unfold len in Hbad; lia].
  (* the footer never comes *)
  cbn [ConverseBinary_loop orb]. unfold ReadRawData_1 at 1. cbn [w_rx].
  unfold deadline_passed. cbn [w_rx].
  eexists _, _. split; [f_equal; f_equal; f_equal; unfold len; lia|].
  match goal with
  | |- context [timeout_exit P ?s ?w0] =>
      destruct (timeout_exit_fields P s w0) as (-> & _ & ->)
  end.
  split; [reflexivity|]. apply in_or_app. right. left. reflexivity.
Qed.

End Bursts.

(** [ConverseBinary_second_read_overwrites] at a two point scan in bursts
    of five and three bytes: the buffer starts with the last three. *)
Lemma ConverseBinary_second_read_overwrites_witness :
  exists w',
    ConverseBinary example_platform "scanraw 0 6000000 2" [] 8 split_scan_world
    = Ret (8, ["003"; "004"; "}"; "002"; "x"; zero; zero; zero]%char, w').
Proof.
  assert (Hh : first_ends_with ("scanraw 0 6000000 2" ++ CRLF)
                 (EOL_STRING example_platform))
    by (apply first_ends_withb_sound; reflexivity).
  assert (Hf : first_ends_with "ch> " (TRAILER_STRING example_platform))
    by (apply first_ends_withb_sound; reflexivity).
  eexists.
  apply (ConverseBinary_second_read_overwrites example_platform
           ltac:(cbn; lia) "scanraw 0 6000000 2"
           ("scanraw 0 6000000 2" ++ CRLF) "ch> "
           ["{"; "x"; "001"; "002"; "x"]%char ["003"; "004"; "}"]%char 1 2
           split_scan_world [] eq_refl Hh Hf ltac:(discriminate)
           ltac:(discriminate) ltac:(cbn; lia) ltac:(cbn; lia) eq_refl eq_refl
           eq_refl).
Defined.

(** [ConverseBinary_second_read_takes_prompt] at the same scan with the
    prompt on the heels of the second burst: 12 bytes counted for 8. *)
Lemma ConverseBinary_second_read_takes_prompt_witness :
  exists data w',
    ConverseBinary example_platform "scanraw 0 6000000 2" [] 8 late_rest_world
    = Ret (12, data, w')
    /\ w_rx w' = []
    /\ In LogError_Timeout (w_log w').
Proof.
  assert (Hh : first_ends_with ("scanraw 0 6000000 2" ++ CRLF)
                 (EOL_STRING example_platform))
    by (apply first_ends_withb_sound; reflexivity).
  apply (ConverseBinary_second_read_takes_prompt example_platform
           ltac:(cbn; lia) "scanraw 0 6000000 2"
           ("scanraw 0 6000000 2" ++ CRLF) "ch> "
           ["{"; "x"; "001"; "002"; "x"]%char ["003"; "004"; "}"]%char 1
           late_rest_world eq_refl Hh ltac:(discriminate)
           ltac:(discriminate) ltac:(cbn; lia) ltac:(cbn; lia)
           ltac:(cbn; lia) eq_refl eq_refl).
Defined.
